(** * news-bot: the deduplication and cross-source matching engine

    A shallow embedding of the engine of the news bot: the LRU embedding
    cache and the similarity scorer of [utils/similarity.py], the analyzed-URL
    store of [storage/s3.py], the aggregator pass of [sources/dzen.py] and the
    history reconciliation of [scheduler.py].

    Conventions of the embedding.
    - A Python [str] is a list of Unicode code points ([list N]); literals are
      written as UTF-8 strings and decoded by [PyStr.u].
    - A Python [float] is idealised as a real number: comparisons, [min] and
      the arithmetic of the scorer are those of [R] (no rounding, no NaN).
    - A Python [dict] loaded from JSON is a [gmap string json].
    - Exceptions are [None] in an option-valued state monad; the mutable
      module-level caches and the storage object are explicit state. *)

From Stdlib Require Import Reals Lra ZArith Ascii String.
From stdpp Require Import gmap strings list fin_maps sorting.

Abbreviation str := (list N).

(** ** Python strings *)

Module PyStr.

(** Decoder of UTF-8 literals into code points. *)
Fixpoint utf8_go (pending : nat) (acc : N) (bs : list N) : list N :=
  match bs with
  | [] => []
  | b :: bs' =>
      match pending with
      | O =>
          if (b <? 128)%N then b :: utf8_go 0 0%N bs'
          else if (b <? 224)%N then utf8_go 1 (b - 192)%N bs'
          else if (b <? 240)%N then utf8_go 2 (b - 224)%N bs'
          else utf8_go 3 (b - 240)%N bs'
      | S O => (acc * 64 + (b - 128))%N :: utf8_go 0 0%N bs'
      | S p => utf8_go p (acc * 64 + (b - 128))%N bs'
      end
  end.

Definition u (s : string) : str :=
  utf8_go 0 0%N (map N_of_ascii (list_ascii_of_string s)).

(** [str.isspace] on one code point: the Unicode whitespace that [str.strip],
    [str.split] and the regular expression class [\s] agree on. *)
Definition isspace (c : N) : bool :=
  ((9 <=? c) && (c <=? 13) || (28 <=? c) && (c <=? 32) || (c =? 133)
   || (c =? 160) || (c =? 5760) || (8192 <=? c) && (c <=? 8202)
   || (c =? 8232) || (c =? 8233) || (c =? 8239) || (c =? 8287)
   || (c =? 12288))%N.

(** [str.lower] on one code point.  The table is the part of Unicode
    lowercasing whose result can contain a character of the alphabet kept by
    [normalize_text_simple] (Latin and Cyrillic capitals, the Kelvin sign and
    the dotted capital I); every other character is left as it is, and its
    Python lowercase lies outside that alphabet as well. *)
Definition lower_char (c : N) : list N :=
  if ((65 <=? c) && (c <=? 90))%N then [(c + 32)%N]
  else if ((1040 <=? c) && (c <=? 1071))%N then [(c + 32)%N]
  else if ((1024 <=? c) && (c <=? 1039))%N then [(c + 80)%N]
  else if (c =? 8490)%N then [107%N]
  else if (c =? 304)%N then [105%N; 775%N]
  else [c].

Definition lower (s : str) : str := flat_map lower_char s.

Fixpoint lstrip (s : str) : str :=
  match s with
  | c :: s' => if isspace c then lstrip s' else s
  | [] => []
  end.

Definition rstrip (s : str) : str := reverse (lstrip (reverse s)).

Definition strip (s : str) : str := rstrip (lstrip s).

(** [s.split()]: the maximal runs of characters that are not whitespace. *)
Fixpoint split_go (cur : str) (s : str) : list str :=
  match s with
  | [] => if decide (cur = []) then [] else [reverse cur]
  | c :: s' =>
      if isspace c
      then (if decide (cur = []) then split_go [] s'
            else reverse cur :: split_go [] s')
      else split_go (c :: cur) s'
  end.

Definition split (s : str) : list str := split_go [] s.

Fixpoint startswith (p s : str) : bool :=
  match p, s with
  | [], _ => true
  | a :: p', b :: s' => bool_decide (a = b) && startswith p' s'
  | _ :: _, [] => false
  end.

Definition endswith (p s : str) : bool := startswith (reverse p) (reverse s).

(** [needle in hay] for strings. *)
Fixpoint contains (needle hay : str) : bool :=
  startswith needle hay ||
  match hay with
  | [] => false
  | _ :: hay' => contains needle hay'
  end.

(** [s.split(sep)[0]] for a one-character separator. *)
Fixpoint before (sep : N) (s : str) : str :=
  match s with
  | [] => []
  | c :: s' => if decide (c = sep) then [] else c :: before sep s'
  end.

(** [s.rstrip(ch)] for a one-character argument. *)
Fixpoint lstrip_char (ch : N) (s : str) : str :=
  match s with
  | c :: s' => if decide (c = ch) then lstrip_char ch s' else s
  | [] => []
  end.

Definition rstrip_char (ch : N) (s : str) : str :=
  reverse (lstrip_char ch (reverse s)).

(** [s[:n]] *)
Definition prefix (n : nat) (s : str) : str := take n s.

End PyStr.

(** ** The LRU cache ([class LRUCache(OrderedDict)]) *)

Module LRU.
Section lru_cache.
Context {K V : Type} `{EqDecision K}.

(** The ordered dictionary is the list of its items, oldest first. *)
Record LRUCache := mkLRU { capacity : Z; items : list (K * V) }.

Definition empty (cap : Z) : LRUCache := mkLRU cap [].
Definition keys (c : LRUCache) : list K := (items c).*1.
Definition len (c : LRUCache) : Z := Z.of_nat (length (items c)).

(** [key in self] *)
Definition contains (k : K) (c : LRUCache) : bool :=
  bool_decide (k ∈ keys c).

Fixpoint od_get (k : K) (l : list (K * V)) : option V :=
  match l with
  | [] => None
  | (k', v) :: l' => if decide (k = k') then Some v else od_get k l'
  end.

Fixpoint od_del (k : K) (l : list (K * V)) : list (K * V) :=
  match l with
  | [] => []
  | (k', v) :: l' => if decide (k = k') then l' else (k', v) :: od_del k l'
  end.

(** [OrderedDict.move_to_end(key)] *)
Definition move_to_end (k : K) (l : list (K * V)) : list (K * V) :=
  match od_get k l with
  | Some v => od_del k l ++ [(k, v)]
  | None => l
  end.

(** [OrderedDict.__setitem__]: a present key keeps its position. *)
Fixpoint od_set (k : K) (v : V) (l : list (K * V)) : list (K * V) :=
  match l with
  | [] => [(k, v)]
  | (k', v') :: l' =>
      if decide (k = k') then (k, v) :: l' else (k', v') :: od_set k v l'
  end.

(** [LRUCache.__getitem__]; [None] is [KeyError]. *)
Definition getitem (k : K) (c : LRUCache) : option V * LRUCache :=
  let c1 := if contains k c
            then mkLRU (capacity c) (move_to_end k (items c)) else c in
  (od_get k (items c1), c1).

(** [LRUCache.__setitem__] *)
Definition setitem (k : K) (v : V) (c : LRUCache) : LRUCache :=
  let l1 := if contains k c then move_to_end k (items c) else items c in
  let l2 := od_set k v l1 in
  if (Z.of_nat (length l2) >? capacity c)%Z
  then match l2 with
       | (oldest, _) :: _ => mkLRU (capacity c) (od_del oldest l2)
       | [] => mkLRU (capacity c) l2
       end
  else mkLRU (capacity c) l2.

(** [del self[key]]; [None] is [KeyError]. *)
Definition delitem (k : K) (c : LRUCache) : option LRUCache :=
  if contains k c then Some (mkLRU (capacity c) (od_del k (items c)))
  else None.

(** Successive [cache[k] = v]. *)
Definition insert_all (kvs : list (K * V)) (c : LRUCache) : LRUCache :=
  fold_left (λ c kv, setitem kv.1 kv.2 c) kvs c.

(** The key order after [k] has been touched: [k] is the newest key and the
    other keys keep their relative order. *)
Definition touched (k : K) (ks : list K) : list K :=
  filter (λ y, y ≠ k) ks ++ [k].

(** The cache is a dictionary (no key twice) within its capacity. *)
Definition wf (c : LRUCache) : Prop :=
  NoDup (keys c) ∧ (len c ≤ capacity c)%Z.

End lru_cache.
Global Arguments LRUCache : clear implicits.
End LRU.

(** ** Data of the engine *)

(** A value of a JSON document ([json.load]). *)
Inductive json :=
| JNull
| JBool (b : bool)
| JInt (z : Z)
| JFloat (r : R)
| JStr (s : str)
| JList (l : list str).

(** An entry of the [topics] list of [filters/keywords.yaml]. *)
Inductive yaml :=
| YStr (s : str)
| YOther.

(** [MosruHistoryItem] of [utils/models.py]. *)
Record MosruHistoryItem := mkMosru {
  m_url : str;
  m_title : str;
  m_snippet : str;
  m_added_at : str;
  in_dzen : bool
}.

(** [NewsItem] of [utils/models.py] (the fields the engine sets). *)
Record NewsItem := mkNews {
  n_title : str;
  n_url : str;
  n_source : str;
  n_snippet : option str
}.

(** [DzenHistoryItem] of [utils/models.py]. *)
Record DzenHistoryItem := mkDzen {
  d_url : str;
  d_title : str;
  d_added_at : str;
  mosru_source_url : option str;
  mosru_title : option str;
  mosru_snippet : option str;
  match_type : option str;
  similarity_score : option R;
  common_words : option nat;
  matched_keywords : list str
}.

(** What the engine takes from outside: the embedding model, the keyword
    file, the clock and the configuration of [config.py]. *)
Class Env := {
  (** [get_sentence_embedding]; [None] when the model raises *)
  embed : str → option (list R);
  (** the [topics] of [filters/keywords.yaml]; [None] when they cannot be
      read or iterated *)
  keywords_topics : option (list yaml);
  (** [f"temp_{hash(title)}"] *)
  temp_key : str → str;
  (** [datetime.now().timestamp()] *)
  timestamp_now : R;
  (** [datetime.now(TIMEZONE).isoformat()] *)
  now_iso : str;
  (** [datetime.now().isoformat()] *)
  now_naive_iso : str;
  (** [(now - datetime.fromisoformat(s)).days]; [None] when parsing raises *)
  age_days : str → option Z;
  SBERT_SIMILARITY_THRESHOLD : R;
  MAX_CACHE_SIZE : Z;
  MAX_NEWS_AGE_DAYS : Z
}.

(** ** The similarity scorer ([utils/similarity.py]) *)

Module Similarity.
Import PyStr.

Definition COMMON_WORD_STOPLIST : list str := map u [
  "рассказал"; "рассказала"; "рассказало"; "рассказали";
  "сообщил"; "сообщила"; "сообщило"; "сообщили";
  "заявил"; "заявила"; "заявило"; "заявили";
  "отметил"; "отметила"; "отметило"; "отметили";
  "уточнил"; "уточнила"; "уточнило"; "уточнили";
  "указал"; "указала"; "указало"; "указали";
  "подчеркнул"; "подчеркнула"; "подчеркнуло"; "подчеркнули";
  "добавил"; "добавила"; "добавило"; "добавили";
  "прокомментировал"; "прокомментировала"; "прокомментировало";
  "прокомментировали";
  "написал"; "написала"; "написало"; "написали";
  "сказал"; "сказала"; "сказало"; "сказали";
  "собя"; "моск"; "ново"
]%string.

(** The characters that [re.sub(r'[^а-яa-z0-9ё\s]', ' ', text)] keeps. *)
Definition kept_char (c : N) : bool :=
  ((1072 <=? c) && (c <=? 1103) || (97 <=? c) && (c <=? 122)
   || (48 <=? c) && (c <=? 57) || (c =? 1105))%N || isspace c.

(** [re.sub(r'\s+', ' ', text)] *)
Fixpoint collapse_ws (in_run : bool) (s : str) : str :=
  match s with
  | [] => []
  | c :: s' =>
      if isspace c
      then (if in_run then collapse_ws true s' else 32%N :: collapse_ws true s')
      else c :: collapse_ws false s'
  end.

Definition normalize_text_simple (text : str) : str :=
  if decide (text = []) then []
  else
    let text := lower text in
    let text := map (λ c, if kept_char c then c else 32%N) text in
    strip (collapse_ws false text).

(** [normalize_text] is a wrapper of [normalize_text_simple]. *)
Definition normalize_text (text : str) : str := normalize_text_simple text.

Definition normalize_for_match (text : str) : gset str :=
  let text := normalize_text_simple text in
  list_to_set
    (map (prefix 4)
       (filter (λ word, (2 < length word)%nat ∧ lower word ∉ COMMON_WORD_STOPLIST)
               (split text))).

Definition count_common_words (title1 title2 : str) : nat :=
  size (normalize_for_match title1 ∩ normalize_for_match title2).

(** One round of the loop of [has_keyword_phrase_in_both]: does the keyword
    occur in both normalized titles? *)
Definition keyword_in_both (norm1 norm2 : str) (kw : yaml) : bool :=
  match kw with
  | YOther => false
  | YStr kw =>
      let norm_kw := normalize_text_simple kw in
      if contains [32%N] norm_kw
      then contains norm_kw norm1 && contains norm_kw norm2
      else contains (32%N :: norm_kw ++ [32%N]) (32%N :: norm1 ++ [32%N])
           && contains (32%N :: norm_kw ++ [32%N]) (32%N :: norm2 ++ [32%N])
  end.

Definition has_keyword_phrase_in_both `{Env} (title1 title2 : str) : bool :=
  match keywords_topics with
  | Some topics =>
      existsb (keyword_in_both (normalize_text_simple title1)
                               (normalize_text_simple title2)) topics
  | None => false
  end.

(** *** Embeddings and their caches *)

Record dzen_entry := mkDzenEntry { embedding : list R; timestamp : R }.

Record mosru_embs := mkEmbs {
  emb_title : list R;
  emb_title_snippet : list R;
  emb_snippet : list R
}.

Record mosru_entry := mkMosruEntry { embeddings : mosru_embs; m_timestamp : R }.

(** The two module-level caches. *)
Record caches := mkCaches {
  DZEN_EMB_CACHE : LRU.LRUCache str dzen_entry;
  MOSRU_EMB_CACHE : LRU.LRUCache str mosru_entry
}.

(** Computations over the caches that may raise. *)
Definition M (A : Type) : Type := caches → option A * caches.

#[global] Instance M_ret : MRet M := λ A a st, (Some a, st).

#[global] Instance M_bind : MBind M := λ A B f m st,
  match m st with
  | (Some a, st') => f a st'
  | (None, st') => (None, st')
  end.

(** An exception, or the value of a computation that touches no cache. *)
Definition lift {A} (o : option A) : M A := λ st, (o, st).

Definition get_dzen_embedding `{Env} (url title : str) : M (list R) := λ st,
  if LRU.contains url (DZEN_EMB_CACHE st)
  then
    let '(entry, c) := LRU.getitem url (DZEN_EMB_CACHE st) in
    (embedding <$> entry, mkCaches c (MOSRU_EMB_CACHE st))
  else
    match embed title with
    | Some emb =>
        (Some emb,
         mkCaches (LRU.setitem url (mkDzenEntry emb timestamp_now)
                               (DZEN_EMB_CACHE st))
                  (MOSRU_EMB_CACHE st))
    | None => (None, st)
    end.

Definition zeros_like (v : list R) : list R := map (λ _, 0%R) v.

(** The embeddings of a mos.ru item that is not in the cache. *)
Definition compute_mosru_embeddings `{Env} (item : MosruHistoryItem)
  : option mosru_embs :=
  emb_title ← embed (m_title item);
  if decide (m_snippet item = [])
  then Some (mkEmbs emb_title emb_title (zeros_like emb_title))
  else
    emb_title_snippet ← embed (m_title item ++ u ". " ++ m_snippet item);
    emb_snippet ← embed (m_snippet item);
    Some (mkEmbs emb_title emb_title_snippet emb_snippet).

Definition get_mosru_embeddings `{Env} (item : MosruHistoryItem)
  : M mosru_embs := λ st,
  if LRU.contains (m_url item) (MOSRU_EMB_CACHE st)
  then
    let '(entry, c) := LRU.getitem (m_url item) (MOSRU_EMB_CACHE st) in
    (embeddings <$> entry, mkCaches (DZEN_EMB_CACHE st) c)
  else
    match compute_mosru_embeddings item with
    | Some embs =>
        (Some embs,
         mkCaches (DZEN_EMB_CACHE st)
                  (LRU.setitem (m_url item) (mkMosruEntry embs timestamp_now)
                               (MOSRU_EMB_CACHE st)))
    | None => (None, st)
    end.

(** [np.dot] of two vectors; it raises when their lengths differ. *)
Fixpoint dot (a b : list R) : option R :=
  match a, b with
  | [], [] => Some 0%R
  | x :: a', y :: b' => (λ d, (x * y + d)%R) <$> dot a' b'
  | _, _ => None
  end.

(** [np.linalg.norm] *)
Definition norm (a : list R) : R := sqrt (foldr (λ x s, (x * x + s)%R) 0%R a).

(** [np.dot(a, b) / (norm(a) * norm(b) + 1e-9)] *)
Definition cosine (a b : list R) : option R :=
  (λ d, (d / (norm a * norm b + 1e-9))%R) <$> dot a b.

(** The bonus of the scorer. *)
Definition bonus_of (n_common : nat) (has_matching_keywords : bool)
    (avg_score : R) : R :=
  if (3 <=? n_common)%nat
  then (if Rle_dec 0.7 avg_score then 0.1 else 0.15)%R
  else if has_matching_keywords then 0.15%R
  else 0%R.

(** The body of the [try] of [calculate_similarity_sbert]. *)
Definition sbert_score `{Env} (dzen_url dzen_title : str)
    (mosru_item : MosruHistoryItem) : M R :=
  dzen_emb ← get_dzen_embedding dzen_url dzen_title;
  mosru_embs ← get_mosru_embeddings mosru_item;
  score_title ← lift (cosine dzen_emb (emb_title mosru_embs));
  score_title_snippet ← lift (cosine dzen_emb (emb_title_snippet mosru_embs));
  let avg_score := ((score_title + score_title_snippet) / 2)%R in
  let n_common := count_common_words dzen_title (m_title mosru_item) in
  let has_matching_keywords :=
    has_keyword_phrase_in_both dzen_title (m_title mosru_item) in
  let bonus := bonus_of n_common has_matching_keywords avg_score in
  mret (Rmin (avg_score * (1 + bonus)) 1)%R.

(** [calculate_similarity_sbert]: any exception gives the score [0.0]. *)
Definition calculate_similarity_sbert `{Env} (dzen_url dzen_title : str)
    (mosru_item : MosruHistoryItem) (st : caches) : R * caches :=
  match sbert_score dzen_url dzen_title mosru_item st with
  | (Some final_score, st') => (final_score, st')
  | (None, st') => (0%R, st')
  end.

(** The state of the loop of [find_best_match]. *)
Record best := mkBest {
  best_item : option MosruHistoryItem;
  best_score : R;
  best_st : caches
}.

(** One round of the loop of [find_best_match]. *)
Definition best_step `{Env} (temp_url dzen_title : str) (b : best)
    (item : MosruHistoryItem) : best :=
  let '(score, st) :=
    calculate_similarity_sbert temp_url dzen_title item (best_st b) in
  if Rlt_dec (best_score b) score
  then mkBest (Some item) score st
  else mkBest (best_item b) (best_score b) st.

(** [if temp_url in DZEN_EMB_CACHE: del DZEN_EMB_CACHE[temp_url]] *)
Definition drop_temp (temp_url : str) (st : caches) : caches :=
  match LRU.delitem temp_url (DZEN_EMB_CACHE st) with
  | Some c => mkCaches c (MOSRU_EMB_CACHE st)
  | None => st
  end.

Definition find_best_match `{Env} (dzen_title : str)
    (mosru_items : list MosruHistoryItem) (st : caches)
  : (option MosruHistoryItem * R) * caches :=
  let temp_url := temp_key dzen_title in
  let b := foldl (best_step temp_url dzen_title) (mkBest None 0%R st)
                 mosru_items in
  ((best_item b, best_score b), drop_temp temp_url (best_st b)).

(** What the loop of [find_best_match] does with the scores: a score replaces
    the running best one only when it is strictly greater. *)
Fixpoint pick_best {A} (best_item : option A) (best_score : R)
    (scored : list (A * R)) : option A * R :=
  match scored with
  | [] => (best_item, best_score)
  | (item, score) :: scored' =>
      if Rlt_dec best_score score
      then pick_best (Some item) score scored'
      else pick_best best_item best_score scored'
  end.

(** The scores that the loop of [find_best_match] computes, in order. *)
Fixpoint scores_seen `{Env} (temp_url dzen_title : str)
    (mosru_items : list MosruHistoryItem) (st : caches) : list R :=
  match mosru_items with
  | [] => []
  | item :: items =>
      let '(score, st') :=
        calculate_similarity_sbert temp_url dzen_title item st in
      score :: scores_seen temp_url dzen_title items st'
  end.

End Similarity.

(** ** The storage ([storage/s3.py]) *)

Module Storage.

(** The order in which Python iterates a [set]: some enumeration of its
    elements, fixed by the hashing of the running process and not by the
    order of insertion. *)
Class SetOrder := {
  set_list : gset str → list str;
  set_list_perm : ∀ s, set_list s ≡ₚ elements s
}.

(** The storage object and the files behind it.  An absent file reads as
    the empty list, and writing a file always succeeds. *)
Record S3Storage := mkStorage {
  analyzed_urls : gset str;
  analyzed_urls_file : list str;
  mosru_history_file : list (gmap string json);
  dzen_history_file : list (gmap string json)
}.

Definition MAX_ANALYZED_URLS : Z := 5000.

(** An admissible iteration order: the one of [elements], except that the
    url [x] comes first in every set that holds it. *)
Definition front_order (x : str) : SetOrder.
Proof.
  refine {| set_list := λ s, if decide (x ∈ s)
                             then x :: elements (s ∖ {[x]})
                             else elements s |}.
  intros s. destruct (decide (x ∈ s)) as [Hx|Hx]; [|done].
  rewrite <- (elements_union_singleton (s ∖ {[x]}) x).
  - by rewrite <- (union_difference_singleton_L x s Hx).
  - intros [_ Hn]%elem_of_difference. by apply Hn, elem_of_singleton.
Defined.


Definition load_mosru_history (s : S3Storage) := mosru_history_file s.
Definition load_dzen_history (s : S3Storage) := dzen_history_file s.

Definition save_mosru_history (history : list (gmap string json))
    (s : S3Storage) : S3Storage :=
  mkStorage (analyzed_urls s) (analyzed_urls_file s) history
            (dzen_history_file s).

Definition save_dzen_history (history : list (gmap string json))
    (s : S3Storage) : S3Storage :=
  mkStorage (analyzed_urls s) (analyzed_urls_file s) (mosru_history_file s)
            history.

Definition is_url_analyzed (url : str) (s : S3Storage) : bool :=
  bool_decide (url ∈ analyzed_urls s).

(** [urls_list[-n:]] for [0 < n] *)
Definition last_n {A} (n : nat) (l : list A) : list A :=
  drop (length l - n) l.

Definition _trim_analyzed_urls_if_needed `{SetOrder} (s : S3Storage)
  : S3Storage :=
  if (Z.of_nat (size (analyzed_urls s)) >? MAX_ANALYZED_URLS)%Z
  then
    let urls_list := set_list (analyzed_urls s) in
    mkStorage
      (list_to_set (last_n (Z.to_nat MAX_ANALYZED_URLS) urls_list))
      (analyzed_urls_file s) (mosru_history_file s) (dzen_history_file s)
  else s.

Definition _save_analyzed_urls `{SetOrder} (s : S3Storage) : S3Storage :=
  mkStorage (analyzed_urls s) (set_list (analyzed_urls s))
            (mosru_history_file s) (dzen_history_file s).

Definition add_analyzed_urls `{SetOrder} (urls : list str) (s : S3Storage)
  : S3Storage :=
  match urls with
  | [] => s
  | _ =>
      let s := mkStorage (foldl (λ acc url, {[url]} ∪ acc) (analyzed_urls s) urls)
                 (analyzed_urls_file s) (mosru_history_file s)
                 (dzen_history_file s) in
      _save_analyzed_urls (_trim_analyzed_urls_if_needed s)
  end.

(** [S3Storage.__init__]: the set is read back from its file. *)
Definition _load_analyzed_urls (s : S3Storage) : S3Storage :=
  mkStorage (list_to_set (analyzed_urls_file s)) (analyzed_urls_file s)
            (mosru_history_file s) (dzen_history_file s).

End Storage.

(** ** The mos.ru parser ([sources/playwright_parser.py]) *)

Module Parser.
Import PyStr.

Definition normalize_mosru_url (url : str) : str :=
  if decide (url = []) then url
  else
    let url := before 63%N url in
    if endswith [47%N] url then url else url ++ [47%N].

End Parser.

(** ** The aggregator pass ([sources/dzen.py]) *)

Module Dzen.
Import PyStr Similarity Storage.

(** [normalize_text(v)] for a value read from a history record: a falsy
    value gives the empty string, any other value that is not a string
    raises. *)
Definition normalize_json (v : json) : option str :=
  match v with
  | JStr s => Some (normalize_text s)
  | JNull | JBool false | JList [] => Some []
  | JInt z => if decide (z = 0%Z) then Some [] else None
  | JFloat r => if Req_dec_T r 0%R then Some [] else None
  | JBool true | JList (_ :: _) => None
  end.

(** [v == s] for a string [s] *)
Definition json_eq_str (v : option json) (s : str) : bool :=
  match v with
  | Some (JStr t) => bool_decide (t = s)
  | _ => false
  end.

(** [x < v] for a float [x]; it raises unless [v] is a number. *)
Definition lt_json (x : R) (v : json) : option bool :=
  match v with
  | JFloat r => Some (if Rlt_dec x r then true else false)
  | JInt z => Some (if Rlt_dec x (IZR z) then true else false)
  | JBool b => Some (if Rlt_dec x (if b then 1%R else 0%R) then true else false)
  | JNull | JStr _ | JList _ => None
  end.

(** [normalize_text(item['title'])]; a record without title raises. *)
Definition record_title (item : gmap string json) : option str :=
  v ← item !! "title"%string;
  normalize_json v.

(** The dictionary from normalized title to history record: a later record
    replaces an earlier one of the same normalized title.  Records are
    referred to by their position in the loaded list. *)
Fixpoint build_title_map (history : list (gmap string json)) (i : nat)
    (m : gmap str nat) : option (gmap str nat) :=
  match history with
  | [] => Some m
  | item :: history' =>
      norm_title ← record_title item;
      build_title_map history' (S i) (<[norm_title := i]> m)
  end.

(** The loop over the history that looks for a stronger earlier claim on the
    same mos.ru source; [None] is a [TypeError] of the comparison. *)
Fixpoint mosru_url_already_used (best_url : str) (best_score : R)
    (history : list (gmap string json)) : option bool :=
  match history with
  | [] => Some false
  | item :: history' =>
      if json_eq_str (item !! "match_type"%string) (u "sbert")
         && json_eq_str (item !! "mosru_source_url"%string) best_url
      then
        let previous_score := default (JInt 0) (item !! "similarity_score"%string) in
        match lt_json best_score previous_score with
        | None => None
        | Some true => Some true
        | Some false => mosru_url_already_used best_url best_score history'
        end
      else mosru_url_already_used best_url best_score history'
  end.


(** What stays the same during the loop over the cards. *)
Record ctx := mkCtx {
  dzen_title_map : gmap str nat;
  dzen_history_urls : gset str;
  recent_mosru : list MosruHistoryItem;
  norm_keywords : list str
}.

(** What the loop over the cards changes.  The dictionaries loaded from the
    history file are objects shared by [dzen_history_raw] and
    [dzen_title_map]: [objs] holds them and the list refers to them by
    position. *)
Record pass := mkPass {
  objs : list (gmap string json);
  dzen_history_raw : list nat;
  url_set : gset str;
  filtered_dzen_news : list NewsItem;
  filtered_dzen_history : list DzenHistoryItem;
  filtered_out_urls : list str;
  already_analyzed_count : nat;
  p_caches : caches;
  p_storage : S3Storage
}.

(** The outcome of a step: it went through, or an exception left the pass
    in the given state. *)
Inductive res :=
| Done (p : pass)
| Raised (p : pass).

Definition count_analyzed (p : pass) : pass :=
  mkPass (objs p) (dzen_history_raw p) (url_set p) (filtered_dzen_news p)
    (filtered_dzen_history p) (filtered_out_urls p)
    (S (already_analyzed_count p)) (p_caches p) (p_storage p).

Definition add_url (url : str) (p : pass) : pass :=
  mkPass (objs p) (dzen_history_raw p) ({[url]} ∪ url_set p)
    (filtered_dzen_news p) (filtered_dzen_history p) (filtered_out_urls p)
    (already_analyzed_count p) (p_caches p) (p_storage p).

Definition set_caches (st : caches) (p : pass) : pass :=
  mkPass (objs p) (dzen_history_raw p) (url_set p) (filtered_dzen_news p)
    (filtered_dzen_history p) (filtered_out_urls p)
    (already_analyzed_count p) st (p_storage p).

Definition set_history (os : list (gmap string json)) (raw : list nat)
    (s : S3Storage) (p : pass) : pass :=
  mkPass os raw (url_set p) (filtered_dzen_news p) (filtered_dzen_history p)
    (filtered_out_urls p) (already_analyzed_count p) (p_caches p) s.

Definition accept (news : NewsItem) (record : DzenHistoryItem) (p : pass)
  : pass :=
  mkPass (objs p) (dzen_history_raw p) (url_set p)
    (filtered_dzen_news p ++ [news]) (filtered_dzen_history p ++ [record])
    (filtered_out_urls p) (already_analyzed_count p) (p_caches p)
    (p_storage p).

Definition reject (url : str) (p : pass) : pass :=
  mkPass (objs p) (dzen_history_raw p) (url_set p) (filtered_dzen_news p)
    (filtered_dzen_history p) (filtered_out_urls p ++ [url])
    (already_analyzed_count p) (p_caches p) (p_storage p).

(** The history list with its references resolved. *)
Definition resolve (os : list (gmap string json)) (raw : list nat)
  : list (gmap string json) :=
  omap (λ i, os !! i) raw.

(** The url of a card: site prefix for a relative link, query string cut. *)
Definition card_url (href : str) : str :=
  let url :=
    if bool_decide (href ≠ []) && negb (startswith (u "http") href)
    then u "https://dzen.ru" ++ href else href in
  if decide (url = []) then url else before 63%N url.

(** The normalized title of the record that a reference stands for. *)
Definition title_of (os : list (gmap string json)) (i : nat) : option str :=
  item ← os !! i;
  record_title item.

(** Every record of the history list has a title that can be normalized, as
    after [build_title_map]. *)
Definition titled (p : pass) : Prop :=
  ∀ i, i ∈ dzen_history_raw p → is_Some (title_of (objs p) i).

(** A known title under another url: the record is updated in place, the
    history list is rebuilt and saved.  Nothing is delivered. *)
Definition rename_step `{Env} (url norm_title : str) (old_id : nat) (p : pass)
  : res :=
  match objs p !! old_id with
  | None => Raised p
  | Some old_item =>
      match old_item !! "url"%string with
      | None => Raised p
      | Some old_url =>
          if json_eq_str (Some old_url) url then Done p
          else
            let old_item :=
              <["added_at"%string := JStr now_iso]>
                (<["url"%string := JStr url]> old_item) in
            let os := <[old_id := old_item]> (objs p) in
            match
              mapM (λ i, t ← title_of os i;
                         Some (if decide (t ≠ norm_title) then i else old_id))
                   (dzen_history_raw p)
            with
            | None => Raised p
            | Some raw =>
                Done (set_history os raw
                        (save_dzen_history (resolve os raw) (p_storage p)) p)
            end
      end
  end.

(** What is delivered for an accepted candidate. *)
Definition news_of (url title : str) : NewsItem :=
  mkNews (strip title) url (u "Дзен") None.

(** The record of a semantic match. *)
Definition sbert_record `{Env} (url title : str)
    (best_mosru : MosruHistoryItem) (best_score : R) : DzenHistoryItem :=
  mkDzen url (strip title) now_iso
    (Some (m_url best_mosru)) (Some (m_title best_mosru))
    (Some (m_snippet best_mosru)) (Some (u "sbert")) (Some best_score)
    (Some (count_common_words title (m_title best_mosru))) [].

(** The record of a keyword match. *)
Definition keywords_record `{Env} (url title : str)
    (matched_keywords : list str) : DzenHistoryItem :=
  mkDzen url (strip title) now_iso None None None (Some (u "keywords"))
    None None (take 5 matched_keywords).

(** A best mos.ru item at or above the threshold: the candidate is kept
    unless the history holds a stronger claim on the same source. *)
Definition semantic_step `{Env} (url title : str)
    (best_mosru : MosruHistoryItem) (best_score : R) (p : pass) : res :=
  match mosru_url_already_used (m_url best_mosru) best_score
          (resolve (objs p) (dzen_history_raw p)) with
  | None => Raised p
  | Some true => Done (reject url p)
  | Some false =>
      Done (accept (news_of url title)
                   (sbert_record url title best_mosru best_score) p)
  end.

(** The fallback on the keyword list. *)
Definition keyword_step `{Env} (cx : ctx) (url title : str) (p : pass) : res :=
  let title_norm := normalize_text title in
  let matched_keywords :=
    filter (λ kw, contains kw title_norm = true) (norm_keywords cx) in
  if decide (matched_keywords ≠ [])
  then Done (accept (news_of url title)
                    (keywords_record url title matched_keywords) p)
  else Done (reject url p).

(** A card that gets as far as the matching: it has a link and a title, it
    was not seen in this pass nor analyzed before, its title is not in the
    history and neither is its link. *)
Definition reaches_matching (cx : ctx) (p : pass) (card : str * str) : Prop :=
  card_url card.1 ≠ [] ∧ card.2 ≠ []
  ∧ (card_url card.1 ∉ url_set p)
  ∧ is_url_analyzed (card_url card.1) (p_storage p) = false
  ∧ dzen_title_map cx !! normalize_text card.2 = None
  ∧ (card_url card.1 ∉ dzen_history_urls cx).

(** The recorded similarity scores lie in the interval (0, 1]. *)
Definition scores_in_range (history : list DzenHistoryItem) : Prop :=
  Forall (λ r, ∀ score, similarity_score r = Some score → (0 < score <= 1)%R)
         history.

(** The body of the loop over the cards. *)
Definition card_step `{Env} (cx : ctx) (p : pass) (card : str * str) : res :=
  let url := card_url card.1 in
  let title := card.2 in
  if bool_decide (url = []) || bool_decide (title = [])
     || bool_decide (url ∈ url_set p)
  then Done p
  else if is_url_analyzed url (p_storage p) then Done (count_analyzed p)
  else
    let p := add_url url p in
    let norm_title := normalize_text title in
    match dzen_title_map cx !! norm_title with
    | Some old_id => rename_step url norm_title old_id p
    | None =>
        if bool_decide (url ∈ dzen_history_urls cx) then Done p
        else
          let '((best_mosru, best_score), st) :=
            find_best_match title (recent_mosru cx) (p_caches p) in
          let p := set_caches st p in
          match best_mosru with
          | Some best_mosru =>
              if Rle_dec SBERT_SIMILARITY_THRESHOLD best_score
              then semantic_step url title best_mosru best_score p
              else keyword_step cx url title p
          | None => keyword_step cx url title p
          end
    end.

Fixpoint run_cards `{Env} (cx : ctx) (p : pass) (cards : list (str * str))
  : res :=
  match cards with
  | [] => Done p
  | card :: cards' =>
      match card_step cx p card with
      | Done p' => run_cards cx p' cards'
      | Raised p' => Raised p'
      end
  end.

(** The filter on the age of the mos.ru history; the url of an item that is
    kept is normalized in place. *)
Definition mark_recent `{Env} (item : MosruHistoryItem)
  : MosruHistoryItem * bool :=
  match age_days (m_added_at item) with
  | None => (item, false)
  | Some days =>
      if (days <=? MAX_NEWS_AGE_DAYS)%Z
      then (mkMosru (Parser.normalize_mosru_url (m_url item)) (m_title item)
                    (m_snippet item) (m_added_at item) (in_dzen item), true)
      else (item, false)
  end.

(** What [fetch_dzen_news] returns and leaves behind. *)
Record fetched := mkFetched {
  f_result : option (list NewsItem * list DzenHistoryItem);
  f_mosru_history : list MosruHistoryItem;
  f_caches : caches;
  f_storage : S3Storage
}.

(** The normalized keywords, in the order in which their set is iterated. *)
Definition norm_keywords_of `{SetOrder} (raw_keywords : list yaml) : list str :=
  set_list (list_to_set
    (omap (λ kw, match kw with
                 | YStr kw => Some (normalize_text kw)
                 | YOther => None
                 end) raw_keywords)).

(** The mos.ru history after the age filter has normalized the urls of the
    items it keeps, and the items it keeps. *)
Definition normalized_history `{Env} (mosru_history : list MosruHistoryItem)
  : list MosruHistoryItem :=
  (mark_recent <$> mosru_history).*1.

Definition recent_of `{Env} (mosru_history : list MosruHistoryItem)
  : list MosruHistoryItem :=
  (filter (λ x, x.2 = true) (mark_recent <$> mosru_history)).*1.

(** The state in which the loop over the cards starts. *)
Definition first_pass (dzen_history_raw : list (gmap string json))
    (st : caches) (s : S3Storage) : pass :=
  mkPass dzen_history_raw (seq 0 (length dzen_history_raw)) ∅ [] [] [] 0 st s.

(** The two [add_analyzed_urls] after the loop. *)
Definition store_analyzed `{SetOrder} (p : pass) : S3Storage :=
  let s := p_storage p in
  let s :=
    if decide (filtered_out_urls p ≠ [])
    then add_analyzed_urls (filtered_out_urls p) s else s in
  if decide (filtered_dzen_news p ≠ [])
  then add_analyzed_urls (n_url <$> filtered_dzen_news p) s
  else s.

(** [fetch_dzen_news]; [page] is the list of the cards of the page (link and
    title), [None] when the page cannot be opened. *)
Definition fetch_dzen_news `{Env} `{SetOrder}
    (mosru_history : list MosruHistoryItem) (dzen_history_urls : gset str)
    (max_items : nat) (page : option (list (str * str)))
    (st : caches) (s : S3Storage) : fetched :=
  match keywords_topics with
  | None => mkFetched None mosru_history st s
  | Some raw_keywords =>
      let norm_keywords := norm_keywords_of raw_keywords in
      let recent_mosru := recent_of mosru_history in
      let mosru_history := normalized_history mosru_history in
      let dzen_history_raw := load_dzen_history s in
      match build_title_map dzen_history_raw 0 ∅ with
      | None => mkFetched None mosru_history st s
      | Some dzen_title_map =>
          match page with
          | None => mkFetched (Some ([], [])) mosru_history st s
          | Some cards =>
              let cx := mkCtx dzen_title_map dzen_history_urls recent_mosru
                              norm_keywords in
              match run_cards cx (first_pass dzen_history_raw st s)
                      (take max_items cards) with
              | Raised p =>
                  mkFetched None mosru_history (p_caches p) (p_storage p)
              | Done p =>
                  mkFetched
                    (Some (filtered_dzen_news p, filtered_dzen_history p))
                    mosru_history (p_caches p) (store_analyzed p)
              end
          end
      end
  end.

End Dzen.

(** ** The mos.ru source ([sources/playwright_parser.py], [sources/mosru.py]) *)

Module Mosru.
Import PyStr Parser.

(** The loop of [fetch_mosru_news] over the cards of a page; a card is its
    link, its title and its snippet. *)
Fixpoint scrape_cards `{Env} (max_items : nat) (cards : list (str * str * str))
    (url_set : gset str) (news_items : list NewsItem)
    (history_items : list MosruHistoryItem)
  : list NewsItem * list MosruHistoryItem :=
  match cards with
  | [] => (news_items, history_items)
  | (href, title, snippet) :: cards' =>
      let href :=
        if bool_decide (href ≠ []) && negb (startswith (u "http") href)
        then u "https://www.mos.ru" ++ href else href in
      let href := normalize_mosru_url href in
      if bool_decide (href = []) || bool_decide (href ∈ url_set)
      then scrape_cards max_items cards' url_set news_items history_items
      else
        let url_set := {[href]} ∪ url_set in
        let '(news_items, history_items) :=
          if decide (title ≠ [])
          then (news_items ++ [mkNews (strip title) href (u "mos.ru")
                                      (Some (strip snippet))],
                history_items ++ [mkMosru href (strip title) (strip snippet)
                                          now_naive_iso false])
          else (news_items, history_items) in
        if (max_items <=? length news_items)%nat
        then (news_items, history_items)
        else scrape_cards max_items cards' url_set news_items history_items
  end.

(** [fetch_mosru_news]; [None] is a page that cannot be opened or has no
    list of news. *)
Definition fetch_mosru_news `{Env} (page : option (list (str * str * str)))
  : list NewsItem * list MosruHistoryItem :=
  match page with
  | None => ([], [])
  | Some cards => scrape_cards 20 cards ∅ [] []
  end.

(** A dictionary filled with [if key not in d: d[key] = item], then
    [list(d.values())]. *)
Fixpoint unique_by {A} (key : A → str) (seen : gset str) (l : list A)
  : list A :=
  match l with
  | [] => []
  | x :: l' =>
      if bool_decide (key x ∈ seen) then unique_by key seen l'
      else x :: unique_by key ({[key x]} ∪ seen) l'
  end.

Definition norm_url (url : str) : str := rstrip_char 47%N url ++ [47%N].

Definition get_all_mosru_news `{Env} (pages : list (option (list (str * str * str))))
  : list NewsItem * list MosruHistoryItem :=
  let fetched := fetch_mosru_news <$> pages in
  let all_news := concat (fetched.*1) in
  let all_history := concat (fetched.*2) in
  (unique_by (λ item, norm_url (n_url item)) ∅ all_news,
   unique_by (λ item, norm_url (m_url item)) ∅ all_history).

End Mosru.

(** ** The reconciliation of the histories ([scheduler.py]) *)

Module Scheduler.
Import PyStr Similarity Storage Dzen.

Definition jstr (v : option json) : option str :=
  match v with Some (JStr s) => Some s | _ => None end.

(** An optional string field: an absent key and [null] are [None]. *)
Definition jopt_str (v : option json) : option (option str) :=
  match v with
  | None | Some JNull => Some None
  | Some (JStr s) => Some (Some s)
  | _ => None
  end.

(** [MosruHistoryItem] built from the keys of a dictionary.  It raises on a missing or an unknown key; a
    value of another type than the one the program writes is outside the
    model and treated as raising too. *)
Definition mosru_of_dict (item : gmap string json) : option MosruHistoryItem :=
  if bool_decide (dom item ⊆ ({["url"; "title"; "snippet"; "added_at"; "in_dzen"]} : gset string))%string
  then
    url ← jstr (item !! "url"%string);
    title ← jstr (item !! "title"%string);
    snippet ← jstr (item !! "snippet"%string);
    added_at ← jstr (item !! "added_at"%string);
    in_dzen ← match item !! "in_dzen"%string with
              | None => Some false
              | Some (JBool b) => Some b
              | _ => None
              end;
    Some (mkMosru url title snippet added_at in_dzen)
  else None.

(** [item.__dict__] of a [MosruHistoryItem] *)
Definition mosru_to_dict (item : MosruHistoryItem) : gmap string json :=
  <["url"%string := JStr (m_url item)]>
  (<["title"%string := JStr (m_title item)]>
  (<["snippet"%string := JStr (m_snippet item)]>
  (<["added_at"%string := JStr (m_added_at item)]>
  (<["in_dzen"%string := JBool (in_dzen item)]> ∅)))).

Definition dzen_keys : gset string :=
  {["url"; "title"; "added_at"; "mosru_source_url"; "mosru_title";
    "mosru_snippet"; "match_type"; "similarity_score"; "common_words";
    "matched_keywords"]}%string.

(** [DzenHistoryItem] built from the keys of a dictionary, after the scheduler has filled in the missing
    [added_at] (the other missing fields default to [None]); [__post_init__]
    turns an absent list of keywords into the empty list. *)
Definition dzen_of_dict `{Env} (item : gmap string json) : option DzenHistoryItem :=
  if bool_decide (dom item ⊆ dzen_keys)
  then
    url ← jstr (item !! "url"%string);
    title ← jstr (item !! "title"%string);
    added_at ← match item !! "added_at"%string with
               | None => Some now_iso
               | Some (JStr s) => Some s
               | _ => None
               end;
    mosru_source_url ← jopt_str (item !! "mosru_source_url"%string);
    mosru_title ← jopt_str (item !! "mosru_title"%string);
    mosru_snippet ← jopt_str (item !! "mosru_snippet"%string);
    match_type ← jopt_str (item !! "match_type"%string);
    similarity_score ← match item !! "similarity_score"%string with
                       | None | Some JNull => Some None
                       | Some (JFloat r) => Some (Some r)
                       | Some (JInt z) => Some (Some (IZR z))
                       | _ => None
                       end;
    common_words ← match item !! "common_words"%string with
                   | None | Some JNull => Some None
                   | Some (JInt z) =>
                       if (0 <=? z)%Z then Some (Some (Z.to_nat z)) else None
                   | _ => None
                   end;
    matched_keywords ← match item !! "matched_keywords"%string with
                       | None | Some JNull => Some []
                       | Some (JList l) => Some l
                       | _ => None
                       end;
    Some (mkDzen url title added_at mosru_source_url mosru_title mosru_snippet
                 match_type similarity_score common_words matched_keywords)
  else None.

Definition json_of_opt_str (o : option str) : json :=
  match o with Some s => JStr s | None => JNull end.

(** [item.__dict__] of a [DzenHistoryItem] *)
Definition dzen_to_dict (item : DzenHistoryItem) : gmap string json :=
  <["url"%string := JStr (d_url item)]>
  (<["title"%string := JStr (d_title item)]>
  (<["added_at"%string := JStr (d_added_at item)]>
  (<["mosru_source_url"%string := json_of_opt_str (mosru_source_url item)]>
  (<["mosru_title"%string := json_of_opt_str (mosru_title item)]>
  (<["mosru_snippet"%string := json_of_opt_str (mosru_snippet item)]>
  (<["match_type"%string := json_of_opt_str (match_type item)]>
  (<["similarity_score"%string :=
       match similarity_score item with Some r => JFloat r | None => JNull end]>
  (<["common_words"%string :=
       match common_words item with
       | Some n => JInt (Z.of_nat n) | None => JNull
       end]>
  (<["matched_keywords"%string := JList (matched_keywords item)]> ∅))))))))).

(** What a cycle gets from the aggregator source ([dzen_news] and
    [dzen_new_items]), what it hands to the sink ([new_mosru_news] and
    [new_dzen_news]) and what it adds to the histories. *)
Record cycle := mkCycle {
  dzen_news : list NewsItem;
  dzen_new_items : list DzenHistoryItem;
  new_mosru_news : list NewsItem;
  new_mosru_history : list MosruHistoryItem;
  new_dzen_news : list NewsItem;
  new_dzen_history : list DzenHistoryItem
}.

(** The mos.ru sources that the new records of the aggregator name. *)
Definition source_urls (dzen_new_items : list DzenHistoryItem) : gset str :=
  list_to_set
    (omap (λ item, match mosru_source_url item with
                   | Some url => if decide (url = []) then None else Some url
                   | None => None
                   end) dzen_new_items).

Definition set_in_dzen (item : MosruHistoryItem) : MosruHistoryItem :=
  mkMosru (m_url item) (m_title item) (m_snippet item) (m_added_at item) true.

(** The cycle of [fetch_and_send_news], from the loading of the histories to
    their saving, with the call of the aggregator source as a parameter.
    [None] is a cycle that ends in its [except] branch. *)
Definition cycle_with `{Env}
    (dzen_fetch : list MosruHistoryItem → gset str → caches → S3Storage → fetched)
    (mosru_pages : list (option (list (str * str * str))))
    (st : caches) (s : S3Storage) : option cycle * caches * S3Storage :=
  match mapM mosru_of_dict (load_mosru_history s),
        mapM dzen_of_dict (load_dzen_history s) with
  | Some mosru_history, Some dzen_history =>
      let mosru_urls : gset str := list_to_set (m_url <$> mosru_history) in
      let dzen_urls : gset str := list_to_set (d_url <$> dzen_history) in
      let '(mosru_news, mosru_new_items) := Mosru.get_all_mosru_news mosru_pages in
      let new_mosru_news :=
        filter (λ news, n_url news ∉ mosru_urls) mosru_news in
      let new_mosru_history :=
        filter (λ item, m_url item ∉ mosru_urls) mosru_new_items in
      let mosru_history := mosru_history ++ new_mosru_history in
      let dzen_history_urls : gset str := list_to_set (d_url <$> dzen_history) in
      let f := dzen_fetch mosru_history dzen_history_urls st s in
      match f_result f with
      | None => (None, f_caches f, f_storage f)
      | Some (dzen_news, dzen_new_items) =>
          let mosru_history := f_mosru_history f in
          let s := f_storage f in
          let new_dzen_news :=
            filter (λ news, n_url news ∉ dzen_urls) dzen_news in
          let dzen_mosru_urls := source_urls dzen_new_items in
          let mosru_updated :=
            existsb (λ item, bool_decide (m_url item ∈ dzen_mosru_urls)
                             && negb (in_dzen item)) mosru_history in
          let mosru_history :=
            (λ item, if bool_decide (m_url item ∈ dzen_mosru_urls)
                     then set_in_dzen item else item) <$> mosru_history in
          let new_dzen_history :=
            filter (λ item, d_url item ∉ dzen_urls) dzen_new_items in
          let dzen_history := dzen_history ++ new_dzen_history in
          let s :=
            if bool_decide (new_mosru_history ≠ []) || mosru_updated
            then save_mosru_history (mosru_to_dict <$> mosru_history) s
            else s in
          let s :=
            if bool_decide (new_dzen_history ≠ [])
            then save_dzen_history (dzen_to_dict <$> dzen_history) s
            else s in
          (Some (mkCycle dzen_news dzen_new_items new_mosru_news
                         new_mosru_history new_dzen_news new_dzen_history),
           f_caches f, s)
      end
  | _, _ => (None, st, s)
  end.

(** [fetch_and_send_news]: the cycle with [fetch_dzen_news] as the
    aggregator source. *)
Definition fetch_and_send_news `{Env} `{SetOrder}
    (mosru_pages : list (option (list (str * str * str))))
    (dzen_page : option (list (str * str)))
    (st : caches) (s : S3Storage) : option cycle * caches * S3Storage :=
  cycle_with (λ mosru_history dzen_history_urls st s,
                fetch_dzen_news mosru_history dzen_history_urls 20 dzen_page st s)
             mosru_pages st s.

End Scheduler.

(** ** The cleaning of the embedding caches ([cleanup_cache]) *)

Module EmbCache.
Import Similarity.

(** The test of the two loops of [cleanup_cache]: the url is one of those to
    keep, or the entry is younger than the maximal age. *)
Definition kept `{Env} (keep_urls : gset str) (max_age_days : Z)
    (url : str) (ts : R) : bool :=
  bool_decide (url ∈ keep_urls)
  || (if Rlt_dec (timestamp_now - ts) (IZR (max_age_days * 24 * 3600))
      then true else false).

(** One of the two loops: the entries that pass the test are written, in
    the order of the old cache, to a new cache of capacity
    [MAX_CACHE_SIZE]. *)
Definition rebuild `{Env} {V} (ts : V → R) (keep_urls : gset str)
    (max_age_days : Z) (c : LRU.LRUCache str V) : LRU.LRUCache str V :=
  foldl (λ new kv, if kept keep_urls max_age_days kv.1 (ts kv.2)
                   then LRU.setitem kv.1 kv.2 new else new)
        (LRU.empty MAX_CACHE_SIZE) (LRU.items c).

(** The dictionary that [cleanup_cache] returns. *)
Record stats := mkStats {
  dzen_before : Z;
  mosru_before : Z;
  dzen_after : Z;
  mosru_after : Z;
  dzen_cleared : Z;
  mosru_cleared : Z
}.

(** [cleanup_cache(keep_urls, max_age_days)] *)
Definition cleanup_cache `{Env} (keep_urls : option (gset str))
    (max_age_days : Z) (st : caches) : stats * caches :=
  let keep_urls := default ∅ keep_urls in
  let dzen_before := LRU.len (DZEN_EMB_CACHE st) in
  let mosru_before := LRU.len (MOSRU_EMB_CACHE st) in
  let new_dzen_cache :=
    rebuild timestamp keep_urls max_age_days (DZEN_EMB_CACHE st) in
  let new_mosru_cache :=
    rebuild m_timestamp keep_urls max_age_days (MOSRU_EMB_CACHE st) in
  let dzen_cleared := (dzen_before - LRU.len new_dzen_cache)%Z in
  let mosru_cleared := (mosru_before - LRU.len new_mosru_cache)%Z in
  (mkStats dzen_before mosru_before (LRU.len new_dzen_cache)
           (LRU.len new_mosru_cache) dzen_cleared mosru_cleared,
   mkCaches new_dzen_cache new_mosru_cache).

End EmbCache.

(** ** The keyword test ([load_keywords], [contains_keyword]) *)

Module Keywords.
Import PyStr Similarity Storage.

(** The set that the loop of [load_keywords] builds. *)
Definition norm_keyword_set (raw_keywords : list yaml) : gset str :=
  list_to_set
    (omap (λ kw, match kw with
                 | YStr kw => Some (normalize_text_simple kw)
                 | YOther => None
                 end) raw_keywords).

(** [load_keywords]; the state is the module-level [KEYWORDS], and [None]
    as a result is the exception of a file that cannot be read. *)
Definition load_keywords `{Env} (KEYWORDS : option (gset str))
  : option (gset str) * option (gset str) :=
  match KEYWORDS with
  | Some keywords => (Some keywords, KEYWORDS)
  | None =>
      match keywords_topics with
      | Some raw_keywords =>
          let norm_keywords := norm_keyword_set raw_keywords in
          (Some norm_keywords, Some norm_keywords)
      | None => (None, None)
      end
  end.

(** [all(norm_words[i+j].startswith(kw_words[j][:4]) for j in ...)]; the
    bounds of the two loops keep both indices in range. *)
Definition words_match (kw_words norm_words : list str) (i : nat) : bool :=
  forallb (λ j, match norm_words !! (i + j)%nat, kw_words !! j with
                | Some word, Some kw_word => startswith (prefix 4 kw_word) word
                | _, _ => false
                end)
          (seq 0 (length kw_words)).

(** One round of the loop of [contains_keyword]. *)
Definition keyword_matches (norm kw : str) : bool :=
  contains kw norm
  || (let kw_words := split kw in
      let norm_words := split norm in
      (1 <? length kw_words)%nat
      && existsb (words_match kw_words norm_words)
           (seq 0 (Z.to_nat (Z.of_nat (length norm_words)
                             - Z.of_nat (length kw_words) + 1)))).

(** [contains_keyword]; the keywords are visited in the order in which
    their set is iterated. *)
Definition contains_keyword `{Env} `{SetOrder} (text : str)
    (KEYWORDS : option (gset str)) : option bool * option (gset str) :=
  let norm := normalize_text_simple text in
  match load_keywords KEYWORDS with
  | (Some keywords, KEYWORDS) =>
      (Some (existsb (keyword_matches norm) (set_list keywords)), KEYWORDS)
  | (None, KEYWORDS) => (None, KEYWORDS)
  end.

End Keywords.

(** ** The wrappers kept for compatibility ([calculate_similarity],
    [is_similar_title]) *)

(** [str(hash(s))], which is fixed for the life of a process. *)
Class PyHash := { hash_text : str → str }.

Module Compat.
Import PyStr Similarity.

(** The [SimpleItem] of [calculate_similarity]: of a mos.ru item the scorer
    reads the url, the title and the snippet only. *)
Definition SimpleItem `{PyHash} (title snippet : str) : MosruHistoryItem :=
  mkMosru (u "temp_url_" ++ hash_text title) title snippet [] false.

(** [if url in MOSRU_EMB_CACHE: del MOSRU_EMB_CACHE[url]] *)
Definition drop_mosru (url : str) (st : caches) : caches :=
  match LRU.delitem url (MOSRU_EMB_CACHE st) with
  | Some c => mkCaches (DZEN_EMB_CACHE st) c
  | None => st
  end.

Definition calculate_similarity `{Env} `{PyHash} (text1 text2 : str)
    (snippet2 : option str) (st : caches) : R * caches :=
  let temp_url := u "temp_similarity_" ++ hash_text text1 in
  let item := SimpleItem text2 (default [] snippet2) in
  let '(score, st) := calculate_similarity_sbert temp_url text1 item st in
  let st := drop_temp temp_url st in
  let st := drop_mosru (m_url item) st in
  (score, st).

Definition is_similar_title `{Env} `{PyHash} (title1 title2 : str)
    (threshold : option R) (snippet2 : option str) (st : caches)
  : bool * caches :=
  let threshold := default SBERT_SIMILARITY_THRESHOLD threshold in
  let '(score, st) := calculate_similarity title1 title2 snippet2 st in
  (if Rle_dec threshold score then true else false, st).

End Compat.

(** ** Housekeeping ([clear_analyzed_urls_cache] of [storage/s3.py],
    [cleanup_embeddings_cache] of [scheduler.py]) *)

Module Housekeeping.
Import PyStr Similarity Storage EmbCache.

(** [clear_analyzed_urls_cache(max_age_days)]: the age is not looked at,
    the set is cut to half of [MAX_ANALYZED_URLS] once it is above
    [MAX_ANALYZED_URLS]. *)
Definition clear_analyzed_urls_cache `{SetOrder} (max_age_days : Z)
    (s : S3Storage) : S3Storage :=
  if (Z.of_nat (size (analyzed_urls s)) >? MAX_ANALYZED_URLS)%Z
  then
    let urls_list := set_list (analyzed_urls s) in
    _save_analyzed_urls
      (mkStorage
         (list_to_set (last_n (Z.to_nat (MAX_ANALYZED_URLS / 2)) urls_list))
         (analyzed_urls_file s) (mosru_history_file s) (dzen_history_file s))
  else s.

(** What [keep_urls.add(item.get(key, ''))] followed by the removal of the
    empty urls keeps of a value: a string that is not empty.  A list cannot
    be hashed and raises; the other values are never equal to a key of the
    caches, which are strings. *)
Definition keep_value (v : option json) : option (list str) :=
  match v with
  | Some (JList _) => None
  | Some (JStr s) => Some (if decide (s = []) then [] else [s])
  | _ => Some []
  end.

(** The urls of the two histories that stay in the caches. *)
Definition history_urls (mosru_history dzen_history : list (gmap string json))
  : option (gset str) :=
  m ← mapM (λ item : gmap string json, keep_value (item !! "url"%string))
           mosru_history;
  d ← mapM (λ item : gmap string json,
              a ← keep_value (item !! "url"%string);
              b ← keep_value (item !! "mosru_source_url"%string);
              Some (a ++ b)) dzen_history;
  Some (list_to_set (concat m ++ concat d)).

(** [cleanup_embeddings_cache]; the state is the module-level
    [last_cache_cleanup], as seconds on the clock of [timestamp_now], and
    the caches.  An exception is logged and leaves both as they were. *)
Definition cleanup_embeddings_cache `{Env} (last_cache_cleanup : option R)
    (st : caches) (s : S3Storage) : option R * caches :=
  let due :=
    match last_cache_cleanup with
    | None => true
    | Some last =>
        if Rlt_dec (24 * 3600) (timestamp_now - last) then true else false
    end in
  if due
  then
    match history_urls (load_mosru_history s) (load_dzen_history s) with
    | Some keep_urls =>
        (Some timestamp_now, (cleanup_cache (Some keep_urls) 3 st).2)
    | None => (last_cache_cleanup, st)
    end
  else (last_cache_cleanup, st).

End Housekeeping.

(** ** The records that a pass writes *)

Module Records.
Import PyStr Similarity Storage Dzen.

(** The record of a semantic match of a card: its source is one of the
    recent mos.ru items and its score is at or above the threshold. *)
Definition semantic_record `{Env} (cx : ctx) (card : str * str)
    (r : DzenHistoryItem) : Prop :=
  ∃ m s, m ∈ recent_mosru cx
         ∧ (SBERT_SIMILARITY_THRESHOLD <= s)%R ∧ (s <= 1)%R
         ∧ r = sbert_record (card_url card.1) card.2 m s.

(** The record of a keyword match of a card: the keywords are those that
    are a part of the normalized title, and there is one at least. *)
Definition keyword_record `{Env} (cx : ctx) (card : str * str)
    (r : DzenHistoryItem) : Prop :=
  ∃ kws, kws ≠ []
         ∧ kws = filter (λ kw, contains kw (normalize_text card.2) = true)
                        (norm_keywords cx)
         ∧ r = keywords_record (card_url card.1) card.2 kws.

(** What holds of the state of a pass over [cards] all along; [A] is the
    set of the urls analyzed before the pass.  The urls delivered or
    filtered out are distinct, were noted in [url_set], and were neither
    analyzed before nor in the history; every item delivered goes with the
    record written for its card. *)
Definition pass_inv `{Env} (cx : ctx) (A : gset str) (cards : list (str * str))
    (p : pass) : Prop :=
  analyzed_urls (p_storage p) = A
  ∧ NoDup ((n_url <$> filtered_dzen_news p) ++ filtered_out_urls p)
  ∧ Forall (λ url, url ∈ url_set p ∧ url ∉ A ∧ url ∉ dzen_history_urls cx
                   ∧ url ≠ [])
           ((n_url <$> filtered_dzen_news p) ++ filtered_out_urls p)
  ∧ Forall2 (λ n r, ∃ card, card ∈ cards
                            ∧ n = news_of (card_url card.1) card.2
                            ∧ (semantic_record cx card r
                               ∨ keyword_record cx card r))
            (filtered_dzen_news p) (filtered_dzen_history p).

End Records.

(** ** Sample inputs, on which the statements below are exercised *)

Module Sample.
Import PyStr Similarity.

(** An embedding model with four answers; it raises on the text "broken". *)
Definition sample_embed (t : str) : option (list R) :=
  if decide (t = u "broken") then None
  else if decide (t = u "opposite") then Some [(-1)%R; 0%R]
  else if decide (t = u "near") then Some [4%R; 3%R]
  else Some [1%R; 0%R].

Definition sample_env : Env := {|
  embed := sample_embed;
  keywords_topics := Some [YStr (u "clinic"); YOther; YStr (u "first aid")];
  temp_key := λ title, u "temp_" ++ title;
  timestamp_now := 0%R;
  now_iso := u "2025-06-01T12:00:00+03:00";
  now_naive_iso := u "2025-06-01T12:00:00";
  age_days := λ _, Some 0%Z;
  SBERT_SIMILARITY_THRESHOLD := 0.79%R;
  MAX_CACHE_SIZE := 1000%Z;
  MAX_NEWS_AGE_DAYS := 2%Z
|}.

Definition empty_caches : caches :=
  mkCaches (LRU.empty 1000) (LRU.empty 1000).

(** A process in which a set is iterated in the order of [elements]. *)
Definition sample_order : Storage.SetOrder :=
  {| Storage.set_list := elements;
     Storage.set_list_perm := λ s, reflexivity (elements s) |}.

Definition empty_storage : Storage.S3Storage := Storage.mkStorage ∅ [] [] [].

(** Three mos.ru items without snippet. *)
Definition ref_plain : MosruHistoryItem :=
  mkMosru (u "https://www.mos.ru/news/item/1/") (u "plain") []
          (u "2025-06-01T10:00:00") false.

Definition ref_broken : MosruHistoryItem :=
  mkMosru (u "https://www.mos.ru/news/item/2/") (u "broken") []
          (u "2025-06-01T10:00:00") false.

Definition ref_opposite : MosruHistoryItem :=
  mkMosru (u "https://www.mos.ru/news/item/3/") (u "opposite") []
          (u "2025-06-01T10:00:00") false.


(** A history with one semantic claim on [ref_plain], at score 0.95. *)
Definition claim_record : gmap string json :=
  <["url"%string := JStr (u "https://dzen.ru/a/0")]>
  (<["title"%string := JStr (u "Older story")]>
  (<["added_at"%string := JStr (u "2025-05-31T09:00:00+03:00")]>
  (<["match_type"%string := JStr (u "sbert")]>
  (<["mosru_source_url"%string := JStr (u "https://www.mos.ru/news/item/1/")]>
  (<["similarity_score"%string := JFloat 0.95%R]> ∅))))).

Definition claimed_storage : Storage.S3Storage :=
  Storage.mkStorage ∅ [] [] [claim_record].

(** A history in which two records have the same normalized title. *)
Definition record_first : gmap string json :=
  <["url"%string := JStr (u "https://dzen.ru/a/7")]>
  (<["title"%string := JStr (u "Big News")]>
  (<["added_at"%string := JStr (u "2025-05-30T09:00:00+03:00")]>
  (<["match_type"%string := JStr (u "keywords")]>
  (<["mosru_title"%string := JStr (u "first source")]> ∅)))).

Definition record_second : gmap string json :=
  <["url"%string := JStr (u "https://dzen.ru/a/8")]>
  (<["title"%string := JStr (u "big news!")]>
  (<["added_at"%string := JStr (u "2025-05-31T09:00:00+03:00")]>
  (<["match_type"%string := JStr (u "keywords")]>
  (<["mosru_title"%string := JStr (u "second source")]> ∅)))).

Definition duplicated_storage : Storage.S3Storage :=
  Storage.mkStorage ∅ [] [] [record_first; record_second].

Definition single_storage : Storage.S3Storage :=
  Storage.mkStorage ∅ [] [] [record_first].

(** A storage whose set of analyzed urls is full: 5000 urls that differ in
    their last character. *)
Definition many_urls : list str :=
  (λ i, u "https://dzen.ru/a/" ++ [(19968 + N.of_nat i)%N]) <$> seq 0 5000.

Definition full_storage : Storage.S3Storage :=
  Storage.mkStorage (list_to_set many_urls) [] [] [].


(** The pages of the portal: one page with one article, one page that does
    not open. *)
Definition portal_pages : list (option (list (str * str * str))) :=
  [Some [(u "/news/item/7/?utm=feed", u " Clinic opens ", u "A new clinic")];
   None].

(** Caches of capacity 1000 with an entry written 300000 seconds ago and a
    recent one for the aggregator, and an old entry for mos.ru. *)
Definition aged_caches : caches :=
  mkCaches
    (LRU.mkLRU 1000
       [(u "https://dzen.ru/a/1", mkDzenEntry [1%R; 0%R] (-300000)%R);
        (u "https://dzen.ru/a/0", mkDzenEntry [0%R; 1%R] (-300000)%R);
        (u "https://dzen.ru/a/2", mkDzenEntry [0%R; 1%R] (-100)%R)])
    (LRU.mkLRU 1000
       [(u "https://www.mos.ru/news/item/1/",
         mkMosruEntry (mkEmbs [1%R; 0%R] [1%R; 0%R] [0%R; 0%R]) (-300000)%R)]).

(** A process in which the hash of a string prints as the last digits of
    its code points. *)
Definition sample_hash : PyHash :=
  {| hash_text := map (λ c, (48 + c mod 10)%N) |}.

(** Caches in which the aggregator cache has capacity 1 and is full. *)
Definition full_caches : caches :=
  mkCaches
    (LRU.mkLRU 1 [(u "https://dzen.ru/a/1", mkDzenEntry [1%R; 0%R] 0%R)])
    (LRU.empty 1000).

(** A page of the aggregator with one card, which names a keyword. *)
Definition clinic_page : list (str * str) :=
  [(u "/a/5?from=feed", u " New clinic opens ")].

(** A page of the aggregator with two cards: the first has the title of
    [record_first] under another link, the second names a keyword. *)
Definition renamed_page : list (str * str) :=
  [(u "https://dzen.ru/a/9?from=feed", u "Big news");
   (u "/a/5?from=feed", u " New clinic opens ")].

End Sample.

(** * Properties *)

(** Distinctness of the elements of an explicit list. *)
Ltac solve_NoDup :=
  repeat (apply NoDup_cons; split;
          [rewrite ?elem_of_cons, elem_of_nil; intuition congruence|]);
  apply NoDup_nil_2.

(** ** The LRU cache *)

Module LRUFacts.
Import LRU.
Section lru_facts.
Context {K V : Type} `{EqDecision K}.
Implicit Types (c : LRUCache K V) (l : list (K * V)) (k : K) (v : V).

Lemma od_get_None k l : k ∉ l.*1 → od_get k l = None.
Proof.
  induction l as [|[k' v'] l IH]; simpl; [done|].
  intros Hn. apply not_elem_of_cons in Hn as [Hne Hn].
  destruct (decide (k = k')); [done|]. by apply IH.
Qed.

Lemma od_get_is_Some k l : k ∈ l.*1 → is_Some (od_get k l).
Proof.
  induction l as [|[k' v'] l IH]; simpl.
  - by intros ?%elem_of_nil.
  - intros Hin. destruct (decide (k = k')); [by eexists|].
    apply elem_of_cons in Hin as [?|?]; [done|by apply IH].
Qed.

Lemma od_set_fresh k v l : k ∉ l.*1 → od_set k v l = l ++ [(k, v)].
Proof.
  induction l as [|[k' v'] l IH]; simpl; [done|].
  intros Hn. apply not_elem_of_cons in Hn as [Hne Hn].
  destruct (decide (k = k')); [done|]. by rewrite IH.
Qed.

Lemma od_set_keys_present k v l : k ∈ l.*1 → (od_set k v l).*1 = l.*1.
Proof.
  induction l as [|[k' v'] l IH]; simpl.
  - by intros ?%elem_of_nil.
  - intros Hin. destruct (decide (k = k')) as [->|Hne]; [done|].
    simpl. f_equal. apply IH. by apply elem_of_cons in Hin as [?|?].
Qed.

Lemma od_del_head k v l : od_del k ((k, v) :: l) = l.
Proof. simpl. by rewrite decide_True. Qed.

(** A present key splits the key list; deleting it removes that occurrence. *)
Lemma od_del_split k l :
  NoDup l.*1 → k ∈ l.*1 →
  ∃ l1 l2 v, l = l1 ++ ((k, v) :: l2) ∧ od_del k l = l1 ++ l2
             ∧ od_get k l = Some v ∧ (k ∉ l1.*1) ∧ (k ∉ l2.*1).
Proof.
  induction l as [|[k' v'] l IH]; simpl.
  - by intros _ ?%elem_of_nil.
  - intros [Hn Hnd]%NoDup_cons Hin.
    destruct (decide (k = k')) as [->|Hne].
    + exists [], l, v'. repeat split; try done. by intros ?%elem_of_nil.
    + apply elem_of_cons in Hin as [?|Hin]; [done|].
      destruct (IH Hnd Hin) as (l1 & l2 & v & -> & Hd & Hg & H1 & H2).
      exists ((k', v') :: l1), l2, v. rewrite Hd. repeat split; try done.
      simpl. by apply not_elem_of_cons.
Qed.

Lemma move_to_end_split k l :
  NoDup l.*1 → k ∈ l.*1 →
  ∃ l1 l2 v, l = l1 ++ ((k, v) :: l2) ∧ move_to_end k l = l1 ++ l2 ++ [(k, v)]
             ∧ (k ∉ l1.*1) ∧ (k ∉ l2.*1).
Proof.
  intros Hnd Hin.
  destruct (od_del_split k l Hnd Hin) as (l1 & l2 & v & Hl & Hd & Hg & H1 & H2).
  exists l1, l2, v. unfold move_to_end. rewrite Hg, Hd.
  by rewrite <- (assoc_L (++)).
Qed.

Lemma contains_true k c : contains k c = true ↔ k ∈ keys c.
Proof. unfold contains. by rewrite bool_decide_eq_true. Qed.

Lemma contains_false k c : contains k c = false ↔ k ∉ keys c.
Proof. unfold contains. by rewrite bool_decide_eq_false. Qed.

(** Inserting a key that is not in the cache: it becomes the newest item and,
    when the cache overflows, the oldest item goes. *)
Lemma setitem_fresh k v c :
  NoDup (keys c) → k ∉ keys c →
  keys (setitem k v c) =
    if (Z.of_nat (S (length (keys c))) >? capacity c)%Z
    then drop 1 (keys c ++ [k]) else keys c ++ [k].
Proof.
  intros Hnd Hn. unfold setitem.
  rewrite (proj2 (contains_false k c) Hn).
  rewrite (od_set_fresh k v (items c) Hn).
  unfold keys in *. rewrite length_app, length_fmap. simpl.
  replace (length (items c) + 1)%nat with (S (length (items c))) by lia.
  destruct (Z.of_nat (S (length (items c))) >? capacity c)%Z.
  - destruct (items c) as [|[k0 v0] l0]; simpl.
    + by rewrite decide_True.
    + rewrite decide_True by done. simpl. by rewrite fmap_app.
  - simpl. by rewrite fmap_app.
Qed.

(** Writing a key that is in the cache moves it to the newest position and
    evicts nothing when the cache is within capacity. *)
Lemma setitem_present k v c :
  wf c → k ∈ keys c →
  ∃ ks1 ks2 : list K,
    keys c = ks1 ++ (k :: ks2) ∧ keys (setitem k v c) = ks1 ++ (ks2 ++ [k]).
Proof.
  intros [Hnd Hlen] Hin. unfold setitem.
  rewrite (proj2 (contains_true k c) Hin).
  destruct (move_to_end_split k (items c) Hnd Hin)
    as (l1 & l2 & v0 & Hl & Hm & H1 & H2).
  exists l1.*1, l2.*1. unfold keys. rewrite Hl at 1.
  split; [by rewrite fmap_app|].
  assert (Hk : (od_set k v (move_to_end k (items c))).*1 = l1.*1 ++ l2.*1 ++ [k]).
  { rewrite od_set_keys_present; rewrite Hm, !fmap_app; [done|].
    simpl. rewrite !elem_of_app. right; right. by left. }
  assert (Hl2 : length (od_set k v (move_to_end k (items c))) = length (items c)).
  { rewrite <- (length_fmap fst), Hk, Hl. rewrite !length_app, !length_fmap.
    simpl. lia. }
  rewrite Hl2. unfold len in Hlen.
  destruct (Z.of_nat (length (items c)) >? capacity c)%Z eqn:E; [lia|].
  simpl. exact Hk.
Qed.

(** Reading a key that is in the cache moves it to the newest position. *)
Lemma getitem_present k c :
  NoDup (keys c) → k ∈ keys c →
  ∃ ks1 ks2 : list K,
    keys c = ks1 ++ (k :: ks2) ∧ keys (getitem k c).2 = ks1 ++ (ks2 ++ [k])
    ∧ is_Some (getitem k c).1.
Proof.
  intros Hnd Hin. unfold getitem.
  rewrite (proj2 (contains_true k c) Hin). cbn [fst snd items].
  destruct (move_to_end_split k (items c) Hnd Hin)
    as (l1 & l2 & v0 & Hl & Hm & H1 & H2).
  exists (l1.*1), (l2.*1). unfold keys. cbn [items]. rewrite Hm. rewrite Hl at 1.
  split; [by rewrite fmap_app|]. split; [by rewrite !fmap_app|].
  apply od_get_is_Some. rewrite !fmap_app. simpl.
  rewrite !elem_of_app. right; right. by left.
Qed.

Lemma capacity_setitem k v c : capacity (setitem k v c) = capacity c.
Proof.
  unfold setitem.
  destruct (Z.of_nat _ >? capacity c)%Z; [|done].
  by destruct (od_set k v _) as [|[??]?].
Qed.

Lemma capacity_insert_all (kvs : list (K * V)) c :
  capacity (insert_all kvs c) = capacity c.
Proof.
  revert c. induction kvs as [|[k v] kvs IH]; intros c; [done|].
  unfold insert_all in *. simpl. by rewrite IH, capacity_setitem.
Qed.

(** The capacity bound is kept by every write, whatever the key. *)
Lemma len_setitem k v c :
  (len c ≤ capacity c)%Z → (len (setitem k v c) ≤ capacity c)%Z.
Proof.
  intros Hlen. unfold setitem, len in *.
  set (l1 := if contains k c then _ else _).
  assert (Hl1 : length l1 = length (items c)).
  { unfold l1. destruct (contains k c) eqn:E; [|done].
    unfold move_to_end. destruct (od_get k (items c)) as [v0|] eqn:Hg; [|done].
    rewrite length_app. simpl.
    clear -Hg. revert Hg. induction (items c) as [|[k' v'] l IH]; simpl; [done|].
    destruct (decide (k = k')); [intros _; lia|]. intros Hg. simpl.
    specialize (IH Hg). lia. }
  assert (Hl2 : (length (od_set k v l1) ≤ S (length l1))%nat).
  { clear. induction l1 as [|[k' v'] l IH]; simpl; [lia|].
    destruct (decide (k = k')); simpl; lia. }
  destruct (Z.of_nat (length (od_set k v l1)) >? capacity c)%Z eqn:E;
    simpl; [|lia].
  destruct (od_set k v l1) as [|[k0 v0] l0]; simpl in *; [lia|].
  rewrite decide_True by done. lia.
Qed.

Lemma len_getitem k c : len (getitem k c).2 = len c.
Proof.
  unfold getitem, len. cbn [snd].
  destruct (contains k c) eqn:E; [|done]. cbn [items].
  unfold move_to_end. destruct (od_get k (items c)) as [v0|] eqn:Hg; [|done].
  rewrite length_app. simpl.
  clear -Hg. revert Hg. induction (items c) as [|[k' v'] l IH]; simpl; [done|].
  destruct (decide (k = k')); [intros _; lia|]. intros Hg. simpl.
  specialize (IH Hg). lia.
Qed.

Lemma NoDup_setitem_fresh k v c :
  NoDup (keys c) → k ∉ keys c → NoDup (keys (setitem k v c)).
Proof.
  intros Hnd Hn. rewrite setitem_fresh by done.
  assert (Hq : NoDup (keys c ++ [k])).
  { apply NoDup_app. split; [done|]. split; [|apply NoDup_singleton].
    intros x Hx ->%list_elem_of_singleton. done. }
  destruct (_ >? _)%Z; [|done].
  destruct (keys c ++ [k]) as [|x xs]; [done|]. simpl. rewrite drop_0.
  by apply NoDup_cons in Hq as [_ ?].
Qed.

(** Inserting fresh, pairwise distinct keys keeps the newest [capacity] keys,
    in insertion order. *)
Lemma insert_all_keys (kvs : list (K * V)) c :
  (0 ≤ capacity c)%Z → wf c → NoDup (keys c ++ kvs.*1) →
  keys (insert_all kvs c) =
    drop (length (keys c ++ kvs.*1) - Z.to_nat (capacity c)) (keys c ++ kvs.*1).
Proof.
  revert c. induction kvs as [|[k v] kvs IH]; intros c Hcap [Hnd Hlen] Hall.
  - unfold insert_all. simpl. rewrite app_nil_r.
    unfold len, keys in *. rewrite length_fmap.
    replace (length (items c) - Z.to_nat (capacity c))%nat with 0%nat by lia.
    done.
  - assert (Hk : k ∉ keys c).
    { apply NoDup_app in Hall as (_ & Hd & _). intros Hin.
      apply (Hd k Hin). simpl. by left. }
    change (insert_all ((k, v) :: kvs) c) with (insert_all kvs (setitem k v c)).
    assert (Hkeys := setitem_fresh k v c Hnd Hk).
    assert (Hall' : NoDup (keys (setitem k v c) ++ kvs.*1)).
    { rewrite Hkeys. simpl in Hall.
      assert (Hq : NoDup ((keys c ++ [k]) ++ kvs.*1)).
      { by rewrite <- (assoc_L (++)). }
      destruct (_ >? _)%Z; [|done].
      destruct (keys c) as [|x xs]; simpl in *.
      - by apply NoDup_cons in Hq as [_ ?].
      - rewrite drop_0. by apply NoDup_cons in Hq as [_ ?]. }
    rewrite IH; rewrite ?capacity_setitem; try done.
    + rewrite Hkeys. unfold len, keys in *. rewrite fmap_cons. cbn [fst].
      replace ((items c).*1 ++ k :: kvs.*1)
        with (((items c).*1 ++ [k]) ++ kvs.*1) by by rewrite <- (assoc_L (++)).
      destruct (Z.of_nat (S (length (items c).*1)) >? capacity c)%Z eqn:E; [|done].
      rewrite length_fmap in E. apply Z.gtb_lt in E.
      assert (Hne : (1 ≤ length ((items c).*1 ++ [k]))%nat).
      { rewrite length_app. simpl. lia. }
      rewrite <- (drop_app_le _ _ 1) by done.
      rewrite drop_drop. f_equal.
      rewrite length_drop, !length_app, !length_fmap. simpl. lia.
    + split.
      * by apply NoDup_setitem_fresh.
      * rewrite capacity_setitem. by apply len_setitem.
Qed.

Lemma filter_ne_notin k (ks : list K) : k ∉ ks → filter (λ y, y ≠ k) ks = ks.
Proof.
  induction ks as [|x ks IH]; [done|].
  intros [Hne Hn]%not_elem_of_cons.
  rewrite filter_cons_True by done. by rewrite IH.
Qed.

Lemma touched_split k (ks1 ks2 : list K) :
  k ∉ ks1 → k ∉ ks2 → touched k (ks1 ++ (k :: ks2)) = ks1 ++ (ks2 ++ [k]).
Proof.
  intros H1 H2. unfold touched.
  rewrite filter_app, filter_cons_False by naive_solver.
  rewrite !filter_ne_notin by done. by rewrite <- (assoc_L (++)).
Qed.

Lemma setitem_touched k v c :
  wf c → k ∈ keys c → keys (setitem k v c) = touched k (keys c).
Proof.
  intros Hwf Hin. destruct (setitem_present k v c Hwf Hin) as (ks1 & ks2 & Hk & ->).
  destruct Hwf as [Hnd _]. rewrite Hk in *.
  apply NoDup_app in Hnd as (_ & Hd & [Hn2 _]%NoDup_cons).
  rewrite touched_split; [done| |done].
  intros Hin1. apply (Hd k Hin1). by left.
Qed.

Lemma getitem_touched k c :
  NoDup (keys c) → k ∈ keys c → keys (getitem k c).2 = touched k (keys c).
Proof.
  intros Hnd Hin.
  destruct (getitem_present k c Hnd Hin) as (ks1 & ks2 & Hk & -> & _).
  rewrite Hk in *.
  apply NoDup_app in Hnd as (_ & Hd & [Hn2 _]%NoDup_cons).
  rewrite touched_split; [done| |done].
  intros Hin1. apply (Hd k Hin1). by left.
Qed.

(** C4. The cache never exceeds its capacity.  From the empty cache, after
    [capacity + k] distinct keys have been inserted the size is [capacity],
    the keys left are the last [capacity] inserted ones, and the [k] keys
    inserted first are exactly the evicted ones.  Every write and every read
    keeps the size within the capacity, and writing or reading a key that is
    present makes it the newest key of the eviction order. *)
Theorem lru_cache_bound (cap : Z) (k : nat) (kvs : list (K * V)) :
  (0 ≤ cap)%Z → NoDup kvs.*1 → length kvs = (Z.to_nat cap + k)%nat →
  len (insert_all kvs (empty cap)) = cap
  ∧ keys (insert_all kvs (empty cap)) = drop k kvs.*1
  ∧ (∀ x, x ∈ kvs.*1 →
       contains x (insert_all kvs (empty cap)) = false ↔ x ∈ take k kvs.*1)
  ∧ (∀ c x v, (len c ≤ capacity c)%Z →
       (len (setitem x v c) ≤ capacity c)%Z
       ∧ (len (getitem x c).2 ≤ capacity c)%Z)
  ∧ (∀ c x v, wf c → contains x c = true →
       keys (setitem x v c) = touched x (keys c)
       ∧ keys (getitem x c).2 = touched x (keys c)).
Proof.
  intros Hcap Hnd Hlen.
  assert (Hkeys : keys (insert_all kvs (empty cap)) = drop k kvs.*1).
  { rewrite insert_all_keys; simpl; try done.
    - f_equal. rewrite length_fmap. lia.
    - split; [apply NoDup_nil_2|]. unfold len. simpl. lia. }
  split; [|split; [done|split; [|split]]].
  - unfold len. rewrite <- (length_fmap fst). fold (keys (insert_all kvs (empty cap))).
    rewrite Hkeys, length_drop, length_fmap. lia.
  - intros x Hx. rewrite contains_false, Hkeys.
    rewrite <- (take_drop k kvs.*1) in Hx, Hnd.
    apply NoDup_app in Hnd as (_ & Hd & _).
    apply elem_of_app in Hx as [Hx|Hx]; split; try done.
    + intros _. by apply Hd.
    + intros Ht. by destruct (Hd x Ht).
  - intros c x v Hc. split; [by apply len_setitem|].
    by rewrite len_getitem.
  - intros c x v Hwf Hx%contains_true. split.
    + by apply setitem_touched.
    + apply getitem_touched; [by destruct Hwf|done].
Qed.

End lru_facts.

Lemma lru_cache_bound_witness :
  LRU.keys (LRU.insert_all [(1%N, 10%Z); (2%N, 20%Z); (3%N, 30%Z)] (LRU.empty 2))
  = [2%N; 3%N].
Proof.
  assert (Hcap : (0 ≤ 2)%Z) by lia.
  assert (Hnd : NoDup [(1%N, 10%Z); (2%N, 20%Z); (3%N, 30%Z)].*1)
    by (simpl; solve_NoDup).
  assert (Hlen : length [(1%N, 10%Z); (2%N, 20%Z); (3%N, 30%Z)]
                 = (Z.to_nat 2 + 1)%nat) by reflexivity.
  exact (proj1 (proj2 (lru_cache_bound 2 1 _ Hcap Hnd Hlen))).
Defined.

End LRUFacts.

(** ** The similarity scorer and the matcher *)

Module SimilarityFacts.
Import PyStr Similarity.
Open Scope R_scope.

Section scorer.
Context `{Env}.
Implicit Types (st : caches) (item : MosruHistoryItem) (b : best).

Lemma calculate_raises dzen_url dzen_title item st st' :
  sbert_score dzen_url dzen_title item st = (None, st') →
  calculate_similarity_sbert dzen_url dzen_title item st = (0, st').
Proof. unfold calculate_similarity_sbert. by intros ->. Qed.

Lemma calculate_returns dzen_url dzen_title item st st' s :
  sbert_score dzen_url dzen_title item st = (Some s, st') →
  calculate_similarity_sbert dzen_url dzen_title item st = (s, st').
Proof. unfold calculate_similarity_sbert. by intros ->. Qed.

(** What [sbert_score] returns when nothing raises. *)
Lemma sbert_score_value dzen_url dzen_title item st st1 st2 dzen_emb embs s1 s2 :
  get_dzen_embedding dzen_url dzen_title st = (Some dzen_emb, st1) →
  get_mosru_embeddings item st1 = (Some embs, st2) →
  cosine dzen_emb (emb_title embs) = Some s1 →
  cosine dzen_emb (emb_title_snippet embs) = Some s2 →
  sbert_score dzen_url dzen_title item st =
    (Some (Rmin ((s1 + s2) / 2 *
                 (1 + bonus_of (count_common_words dzen_title (m_title item))
                        (has_keyword_phrase_in_both dzen_title (m_title item))
                        ((s1 + s2) / 2))) 1), st2).
Proof.
  intros Hd Hm Hc1 Hc2. unfold sbert_score.
  unfold mbind, M_bind at 1. rewrite Hd.
  unfold M_bind at 1. rewrite Hm.
  unfold M_bind, lift. rewrite Hc1, Hc2. done.
Qed.

(** The scorer never returns more than [1.0]. *)
Lemma calculate_le_1 dzen_url dzen_title item st :
  (calculate_similarity_sbert dzen_url dzen_title item st).1 <= 1.
Proof.
  unfold calculate_similarity_sbert.
  destruct (sbert_score dzen_url dzen_title item st) as [[s|] st'] eqn:E;
    simpl; [|lra].
  unfold sbert_score, mbind, M_bind, lift in E.
  destruct (get_dzen_embedding _ _ _) as [[e|] st1]; [|done].
  destruct (get_mosru_embeddings _ _) as [[m|] st2]; [|done].
  destruct (cosine e (emb_title m)) as [s1|]; [|done].
  destruct (cosine e (emb_title_snippet m)) as [s2|]; [|done].
  injection E as <- _. apply Rmin_r.
Qed.

(** *** The loop of [find_best_match] *)

Lemma foldl_best_step temp_url dzen_title items b :
  let r := foldl (best_step temp_url dzen_title) b items in
  (best_item r, best_score r) =
    pick_best (best_item b) (best_score b)
      (zip items (scores_seen temp_url dzen_title items (best_st b))).
Proof.
  revert b. induction items as [|item items IH]; intros b; [done|].
  cbn [foldl scores_seen].
  assert (Hstep : best_step temp_url dzen_title b item =
    let '(s, st') := calculate_similarity_sbert temp_url dzen_title item (best_st b) in
    if Rlt_dec (best_score b) s then mkBest (Some item) s st'
    else mkBest (best_item b) (best_score b) st') by done.
  rewrite Hstep. clear Hstep.
  destruct (calculate_similarity_sbert _ _ item (best_st b)) as [s st'] eqn:E.
  cbn [zip zip_with pick_best].
  destruct (Rlt_dec (best_score b) s); apply (IH (mkBest _ _ _)).
Qed.

Lemma find_best_match_pick dzen_title items st :
  (find_best_match dzen_title items st).1 =
    pick_best None 0
      (zip items (scores_seen (temp_key dzen_title) dzen_title items st)).
Proof.
  unfold find_best_match. cbn [fst].
  apply (foldl_best_step _ _ items (mkBest None 0 st)).
Qed.

Lemma length_scores_seen temp_url dzen_title items st :
  length (scores_seen temp_url dzen_title items st) = length items.
Proof.
  revert st. induction items as [|item items IH]; intros st; [done|].
  simpl. destruct (calculate_similarity_sbert _ _ _ _) as [s st'].
  simpl. by rewrite IH.
Qed.

Lemma scores_seen_le_1 temp_url dzen_title items st :
  Forall (λ s, s <= 1) (scores_seen temp_url dzen_title items st).
Proof.
  revert st. induction items as [|item items IH]; intros st; [constructor|].
  simpl. pose proof (calculate_le_1 temp_url dzen_title item st) as Hle.
  destruct (calculate_similarity_sbert _ _ _ _) as [s st'].
  constructor; [done|apply IH].
Qed.

End scorer.

(** *** Keeping the strictly greatest score *)

Section pick.
Context {A : Type}.
Implicit Types (xs : list (A * R)) (bi : option A) (bs : R).

(** The result of the selection: either nothing beat the start, or the
    winner is the first element that carries the greatest score. *)
Lemma pick_best_spec xs bi0 bs0 bi bs :
  pick_best bi0 bs0 xs = (bi, bs) →
  bs0 <= bs ∧ Forall (λ x, x.2 <= bs) xs
  ∧ ((bi = bi0 ∧ bs = bs0)
     ∨ (∃ j a, xs !! j = Some (a, bs) ∧ bi = Some a ∧ bs0 < bs
               ∧ ∀ j' x, (j' < j)%nat → xs !! j' = Some x → x.2 < bs)).
Proof.
  revert bi0 bs0. induction xs as [|[a s] xs IH]; intros bi0 bs0; simpl.
  - intros [= <- <-]. split; [lra|]. split; [constructor|]. by left.
  - destruct (Rlt_dec bs0 s) as [Hlt|Hge]; intros Hp;
      destruct (IH _ _ Hp) as (Hle & Hall & Hcase).
    + split; [lra|]. split; [constructor; [done|done]|]. right.
      destruct Hcase as [[-> ->]|(j & a' & Hj & -> & Hlt' & Hfirst)].
      * exists 0%nat, a. repeat split; try done. intros j' x Hj'. lia.
      * exists (S j), a'. repeat split; try done; [lra|].
        intros [|j'] x Hj' Hx; simpl in Hx.
        -- injection Hx as <-. simpl. lra.
        -- apply (Hfirst j'); [lia|done].
    + split; [lra|]. split; [constructor; [simpl; lra|done]|].
      destruct Hcase as [[-> ->]|(j & a' & Hj & -> & Hlt' & Hfirst)];
        [by left|right].
      exists (S j), a'. repeat split; try done.
      intros [|j'] x Hj' Hx; simpl in Hx.
      * injection Hx as <-. simpl. lra.
      * apply (Hfirst j'); [lia|done].
Qed.

Lemma pick_best_none xs bs0 :
  Forall (λ x, x.2 <= bs0) xs → ∀ bi0, pick_best bi0 bs0 xs = (bi0, bs0).
Proof.
  induction 1 as [|[a s] xs Hs Hall IH]; intros bi0; simpl; [done|].
  simpl in Hs. destruct (Rlt_dec bs0 s); [lra|apply IH].
Qed.

End pick.

Section matcher.
Context `{Env}.
Implicit Types (st : caches) (item : MosruHistoryItem).

(** What [find_best_match] returns, in terms of the scores it computed:
    the result is never below [0.0]; without a best item the score is [0.0];
    a best item is the first one carrying the greatest score, which is then
    positive. *)
Lemma find_best_match_spec dzen_title items st bi bs :
  (find_best_match dzen_title items st).1 = (bi, bs) →
  let scores := scores_seen (temp_key dzen_title) dzen_title items st in
  0 <= bs ∧ Forall (λ s, s <= bs) scores
  ∧ ((bi = None ∧ bs = 0)
     ∨ (∃ j item, items !! j = Some item ∧ scores !! j = Some bs
                  ∧ bi = Some item ∧ 0 < bs
                  ∧ ∀ j' s, (j' < j)%nat → scores !! j' = Some s → s < bs)).
Proof.
  rewrite find_best_match_pick. intros Hp scores.
  pose proof (length_scores_seen (temp_key dzen_title) dzen_title items st) as Hlen.
  fold scores in Hp, Hlen.
  destruct (pick_best_spec _ _ _ _ _ Hp) as (Hle & Hall & Hcase).
  split; [done|]. split.
  - apply Forall_lookup. intros j s Hs.
    destruct (lookup_lt_is_Some_2 items j) as [item Hitem].
    { rewrite <- Hlen. by apply lookup_lt_Some in Hs. }
    rewrite Forall_lookup in Hall.
    apply (Hall j (item, s)). apply lookup_zip_with_Some. eauto.
  - destruct Hcase as [[-> ->]|(j & a & Hj & -> & Hlt & Hfirst)]; [by left|right].
    apply lookup_zip_with_Some in Hj as (item & s & Heq & Hitem & Hs).
    injection Heq as -> ->.
    exists j, item. repeat split; try done.
    intros j' s' Hj' Hs'.
    destruct (lookup_lt_is_Some_2 items j') as [item' Hitem'].
    { rewrite <- Hlen. by apply lookup_lt_Some in Hs'. }
    apply (Hfirst j' (item', s') Hj'). apply lookup_zip_with_Some. eauto.
Qed.

(** C3. When nothing raises, the score is [min(base_score * (1 + bonus), 1.0)],
    where [base_score] is the average of the two guarded cosines (candidate
    against reference title, candidate against reference title+snippet) and
    the bonus follows the rules in priority order: with at least 3 common
    tokens it is 0.10 when [base_score >= 0.7] and 0.15 otherwise; else with
    a keyword phrase in both titles it is 0.15; else it is 0. *)
Theorem scorer_bonus_rule dzen_url dzen_title item st st1 st2 dzen_emb embs d1 d2 :
  get_dzen_embedding dzen_url dzen_title st = (Some dzen_emb, st1) →
  get_mosru_embeddings item st1 = (Some embs, st2) →
  dot dzen_emb (emb_title embs) = Some d1 →
  dot dzen_emb (emb_title_snippet embs) = Some d2 →
  ∃ base_score bonus : R,
    base_score =
      (d1 / (norm dzen_emb * norm (emb_title embs) + 1e-9)
       + d2 / (norm dzen_emb * norm (emb_title_snippet embs) + 1e-9)) / 2
    ∧ ((3 ≤ count_common_words dzen_title (m_title item))%nat →
         (0.7 <= base_score → bonus = 0.10)
         ∧ (base_score < 0.7 → bonus = 0.15))
    ∧ ((count_common_words dzen_title (m_title item) < 3)%nat →
         (has_keyword_phrase_in_both dzen_title (m_title item) = true →
            bonus = 0.15)
         ∧ (has_keyword_phrase_in_both dzen_title (m_title item) = false →
            bonus = 0))
    ∧ calculate_similarity_sbert dzen_url dzen_title item st =
        (Rmin (base_score * (1 + bonus)) 1, st2).
Proof.
  intros Hd Hm Hd1 Hd2.
  assert (Hc1 : cosine dzen_emb (emb_title embs) =
                Some (d1 / (norm dzen_emb * norm (emb_title embs) + 1e-9)))
    by (unfold cosine; by rewrite Hd1).
  assert (Hc2 : cosine dzen_emb (emb_title_snippet embs) =
                Some (d2 / (norm dzen_emb * norm (emb_title_snippet embs) + 1e-9)))
    by (unfold cosine; by rewrite Hd2).
  eexists _, _. split; [reflexivity|].
  split; [|split];
    [| |apply calculate_returns; by apply (sbert_score_value _ _ _ _ st1 _ dzen_emb embs)].
  - intros Hn%Nat.leb_le. unfold bonus_of. rewrite Hn.
    destruct (Rle_dec 0.7 _); split; intros; try done; lra.
  - intros Hn%Nat.leb_gt. unfold bonus_of. rewrite Hn.
    by split; intros ->.
Qed.

(** C8. A comparison in which something raises (the embedding model, a
    cache access, the cosine) gives the score [0.0] instead of an exception;
    the loop of [find_best_match] then keeps its running best item and score
    and goes on with the rest of the pool. *)
Theorem scorer_failure_is_zero dzen_title items1 bad items2 st st' :
  let step := best_step (temp_key dzen_title) dzen_title in
  let b1 := foldl step (mkBest None 0 st) items1 in
  sbert_score (temp_key dzen_title) dzen_title bad (best_st b1) = (None, st') →
  calculate_similarity_sbert (temp_key dzen_title) dzen_title bad (best_st b1)
    = (0, st')
  ∧ foldl step (mkBest None 0 st) (items1 ++ bad :: items2)
    = foldl step (mkBest (best_item b1) (best_score b1) st') items2
  ∧ length (scores_seen (temp_key dzen_title) dzen_title
              (items1 ++ bad :: items2) st)
    = length (items1 ++ bad :: items2).
Proof.
  intros step b1 Hraise.
  assert (Hzero := calculate_raises _ _ _ _ _ Hraise).
  split; [done|]. split; [|apply length_scores_seen].
  rewrite foldl_app. fold b1. cbn [foldl]. f_equal.
  unfold step at 1, best_step. rewrite Hzero.
  assert (Hb1 : 0 <= best_score b1).
  { pose proof (foldl_best_step (temp_key dzen_title) dzen_title items1
                  (mkBest None 0 st)) as Hf.
    cbn [best_item best_score best_st] in Hf. fold step b1 in Hf.
    symmetry in Hf. by apply pick_best_spec in Hf as (? & _). }
  destruct (Rlt_dec (best_score b1) 0); [lra|done].
Qed.

(** C10. On an empty pool [find_best_match] returns [(None, 0.0)], and so it
    does whenever every computed score is at most [0.0]: a reference that
    scores exactly [0.0] is never the best match. *)
Theorem find_best_match_nothing dzen_title items st :
  Forall (λ s, s <= 0)
         (scores_seen (temp_key dzen_title) dzen_title items st) →
  (find_best_match dzen_title [] st).1 = (None, 0)
  ∧ (find_best_match dzen_title items st).1 = (None, 0).
Proof.
  intros Hall. split; [done|].
  rewrite find_best_match_pick. apply pick_best_none.
  apply Forall_lookup. intros j [item s] Hj. simpl.
  apply lookup_zip_with_Some in Hj as (item' & s' & Heq & _ & Hs).
  injection Heq as -> ->.
  rewrite Forall_lookup in Hall. by apply (Hall j).
Qed.

End matcher.

Lemma scorer_bonus_rule_witness :
  ∃ s st, calculate_similarity_sbert (H := Sample.sample_env)
            (u "https://dzen.ru/a/1") (u "near") Sample.ref_plain
            Sample.empty_caches = (s, st)
          ∧ s <= 1.
Proof.
  destruct (scorer_bonus_rule (H := Sample.sample_env)
              (u "https://dzen.ru/a/1") (u "near") Sample.ref_plain
              Sample.empty_caches _ _ _ _ _ _ eq_refl eq_refl eq_refl eq_refl)
    as (base & bonus & _ & _ & _ & Hs).
  eexists _, _. split; [exact Hs|]. apply Rmin_r.
Defined.

Lemma scorer_failure_is_zero_witness :
  ∃ st', calculate_similarity_sbert (H := Sample.sample_env)
           (u "temp_near") (u "near") Sample.ref_broken Sample.empty_caches
         = (0, st').
Proof.
  eexists.
  refine (proj1 (scorer_failure_is_zero (H := Sample.sample_env)
            (u "near") [] Sample.ref_broken [Sample.ref_plain]
            Sample.empty_caches _ _)).
  reflexivity.
Defined.

Lemma find_best_match_nothing_witness :
  (find_best_match (H := Sample.sample_env) (u "near") [Sample.ref_broken]
     Sample.empty_caches).1 = (None, 0).
Proof.
  refine (proj2 (find_best_match_nothing (H := Sample.sample_env)
            (u "near") [Sample.ref_broken] Sample.empty_caches _)).
  unfold scores_seen.
  erewrite (calculate_raises (H := Sample.sample_env) (temp_key (u "near"))
              (u "near") Sample.ref_broken Sample.empty_caches)
    by reflexivity.
  apply Forall_cons. split; [lra|apply Forall_nil_2].
Defined.

End SimilarityFacts.

(** ** The aggregator pass *)

Module DzenFacts.
Import PyStr Similarity Storage Dzen SimilarityFacts.
Open Scope R_scope.

Section pass.
Context `{Env}.
Implicit Types (cx : ctx) (p : pass) (card : str * str) (st : caches).





(** The score of two titles without common tokens and without a common
    keyword, for a reference without snippet: the guarded cosine, capped. *)
Lemma calculate_plain url title item st st1 st2 e m d :
  get_dzen_embedding url title st = (Some e, st1) →
  get_mosru_embeddings item st1 = (Some m, st2) →
  emb_title_snippet m = emb_title m →
  dot e (emb_title m) = Some d →
  count_common_words title (m_title item) = 0%nat →
  has_keyword_phrase_in_both title (m_title item) = false →
  calculate_similarity_sbert url title item st
  = (Rmin (d / (norm e * norm (emb_title m) + 1e-9)) 1, st2).
Proof.
  intros Hd Hm Hts Hdot Hn Hk.
  assert (Hc : cosine e (emb_title m)
               = Some (d / (norm e * norm (emb_title m) + 1e-9))).
  { unfold cosine. by rewrite Hdot. }
  assert (Hc' : cosine e (emb_title_snippet m)
                = Some (d / (norm e * norm (emb_title m) + 1e-9))).
  { by rewrite Hts. }
  rewrite (calculate_returns _ _ _ _ _ _
             (sbert_score_value _ _ _ _ _ _ _ _ _ _ Hd Hm Hc Hc')).
  rewrite Hn, Hk. unfold bonus_of. cbn [Nat.leb]. do 2 f_equal. lra.
Qed.









Lemma json_eq_str_false (v : json) (s : str) :
  v ≠ JStr s → json_eq_str (Some v) s = false.
Proof.
  intros Hne. destruct v as [| | | |t|]; try done. cbn.
  apply bool_decide_eq_false_2. by intros ->.
Qed.

(** Rewriting the url and the timestamp of a record leaves the normalized
    titles of the history as they are. *)
Lemma title_of_rewritten (os : list (gmap string json)) old_id old_item a b i :
  os !! old_id = Some old_item →
  title_of (<[old_id := <["added_at"%string := a]>
                          (<["url"%string := b]> old_item)]> os) i
  = title_of os i.
Proof.
  intros Hold. unfold title_of.
  destruct (decide (i = old_id)) as [->|Hne].
  - rewrite list_lookup_insert_eq by by eapply lookup_lt_Some.
    rewrite Hold. cbn. unfold record_title.
    by rewrite !lookup_insert_ne by done.
  - by rewrite list_lookup_insert_ne by done.
Qed.

Lemma mapM_same_title (os : list (gmap string json)) (raw : list nat)
    (norm_title : str) (old_id : nat) :
  (∀ i, i ∈ raw → is_Some (title_of os i)) →
  mapM (λ i, t ← title_of os i;
             Some (if decide (t ≠ norm_title) then i else old_id)) raw
  = Some ((λ i, if bool_decide (title_of os i = Some norm_title)
                then old_id else i) <$> raw).
Proof.
  induction raw as [|i raw IH]; intros Ht; [done|].
  cbn [mapM fmap list_fmap].
  destruct (Ht i) as [t Hi]; [by left|]. rewrite Hi. cbn.
  rewrite IH by (intros j Hj; apply Ht; by right). cbn.
  do 2 f_equal. destruct (decide (t ≠ norm_title)) as [Hne|Heq].
  - rewrite bool_decide_eq_false_2; [done|]. by intros [= ->].
  - apply dec_stable in Heq as ->. by rewrite bool_decide_eq_true_2.
Qed.

Lemma length_resolve (os : list (gmap string json)) (raw : list nat) :
  (∀ i, i ∈ raw → is_Some (os !! i)) → length (resolve os raw) = length raw.
Proof.
  induction raw as [|i raw IH]; intros Hall; [done|].
  unfold resolve in *. cbn [omap list_omap].
  destruct (Hall i) as [o ->]; [by left|]. cbn. f_equal.
  apply IH. intros j Hj. apply Hall. by right.
Qed.

(** The step of the pass on a new candidate whose normalized title is that
    of a history record with another url: the record that the title map holds for
    this title (the last one of the history with it) gets the url of the
    candidate and the current timestamp, its other fields stay as they are;
    every position of the history list whose record has this normalized title
    then holds that rewritten record, the other positions are untouched and
    no position is added; the list is saved, and nothing is delivered,
    recorded or filtered out for the candidate.  When the title occurs once
    in the history, only that record changes. *)
Lemma rename_in_place cx p card old_id old_item old_url :
  card_url card.1 ≠ [] → card.2 ≠ [] →
  card_url card.1 ∉ url_set p →
  is_url_analyzed (card_url card.1) (p_storage p) = false →
  dzen_title_map cx !! normalize_text card.2 = Some old_id →
  objs p !! old_id = Some old_item →
  old_item !! "url"%string = Some old_url →
  old_url ≠ JStr (card_url card.1) →
  titled p →
  ∃ p',
    card_step cx p card = Done p'
    ∧ objs p' = <[old_id := <["added_at"%string := JStr now_iso]>
                              (<["url"%string := JStr (card_url card.1)]>
                                 old_item)]> (objs p)
    ∧ dzen_history_raw p'
      = (λ i, if bool_decide (title_of (objs p) i
                              = Some (normalize_text card.2))
              then old_id else i) <$> dzen_history_raw p
    ∧ dzen_history_file (p_storage p')
      = resolve (objs p') (dzen_history_raw p')
    ∧ length (dzen_history_file (p_storage p')) = length (dzen_history_raw p)
    ∧ (∀ k, k ≠ "url"%string → k ≠ "added_at"%string →
         (<["added_at"%string := JStr now_iso]>
            (<["url"%string := JStr (card_url card.1)]> old_item)) !! k
         = old_item !! k)
    ∧ filtered_dzen_news p' = filtered_dzen_news p
    ∧ filtered_dzen_history p' = filtered_dzen_history p
    ∧ filtered_out_urls p' = filtered_out_urls p
    ∧ ((∀ i, i ∈ dzen_history_raw p →
          title_of (objs p) i = Some (normalize_text card.2) → i = old_id) →
       dzen_history_raw p' = dzen_history_raw p).
Proof.
  intros Hu Ht Hs Ha Hm Hold Hurl Hne Htitled.
  set (new_item := <["added_at"%string := JStr now_iso]>
                     (<["url"%string := JStr (card_url card.1)]> old_item)).
  set (raw' := (λ i, if bool_decide (title_of (objs p) i
                                     = Some (normalize_text card.2))
                     then old_id else i) <$> dzen_history_raw p).
  assert (Hstep : card_step cx p card =
            Done (set_history (<[old_id := new_item]> (objs p)) raw'
                    (save_dzen_history
                       (resolve (<[old_id := new_item]> (objs p)) raw')
                       (p_storage (add_url (card_url card.1) p)))
                    (add_url (card_url card.1) p))).
  { unfold card_step.
    rewrite (bool_decide_eq_false_2 _ Hu), (bool_decide_eq_false_2 _ Ht),
      (bool_decide_eq_false_2 _ Hs), Ha. cbn [orb]. rewrite Hm.
    unfold rename_step. cbn [objs add_url dzen_history_raw]. rewrite Hold, Hurl.
    rewrite (json_eq_str_false _ _ Hne). fold new_item.
    rewrite mapM_same_title.
    - assert (Hraw :
        (λ i, if bool_decide (title_of (<[old_id := new_item]> (objs p)) i
                              = Some (normalize_text card.2))
              then old_id else i) <$> dzen_history_raw p = raw').
      { unfold raw'. apply list_fmap_ext. intros ? i ?. unfold new_item.
        by rewrite (title_of_rewritten _ _ _ _ _ _ Hold). }
      by rewrite Hraw.
    - intros i Hi. unfold new_item.
      rewrite (title_of_rewritten _ _ _ _ _ _ Hold). by apply Htitled. }
  eexists. split; [exact Hstep|].
  cbn [objs dzen_history_raw set_history p_storage save_dzen_history
       dzen_history_file filtered_dzen_news filtered_dzen_history
       filtered_out_urls add_url].
  repeat split; try done.
  - assert (Hall : ∀ i, i ∈ raw' → is_Some (<[old_id := new_item]> (objs p) !! i)).
    { intros i Hi. apply lookup_lt_is_Some. rewrite length_insert.
      unfold raw' in Hi. apply list_elem_of_fmap in Hi as (j & -> & Hj).
      destruct (bool_decide _); [by eapply lookup_lt_Some|].
      destruct (Htitled j Hj) as [t Hjt]. unfold title_of in Hjt.
      destruct (objs p !! j) eqn:E; [by eapply lookup_lt_Some|done]. }
    rewrite (length_resolve _ _ Hall). unfold raw'. by rewrite length_fmap.
  - intros k Hk1 Hk2. unfold new_item. by rewrite !lookup_insert_ne by done.
  - intros Hunique. unfold raw'.
    rewrite <- (list_fmap_id (dzen_history_raw p)) at 2.
    apply list_fmap_ext. intros j i Hi.
    destruct (bool_decide _) eqn:E; [|done].
    apply bool_decide_eq_true_1 in E. symmetry. apply Hunique; [|done].
    by eapply list_elem_of_lookup_2.
Qed.

Lemma find_best_match_range title items st bi bs :
  (find_best_match title items st).1 = (bi, bs) →
  0 <= bs <= 1 ∧ (is_Some bi → 0 < bs).
Proof.
  intros Hf.
  destruct (find_best_match_spec title items st bi bs Hf)
    as (H0 & _ & [[-> ->]|(j & item & _ & Hj & -> & Hpos & _)]).
  - split; [lra|]. by intros [? ?].
  - split; [|done]. split; [lra|].
    pose proof (scores_seen_le_1 (temp_key title) title items st) as Hle.
    rewrite Forall_lookup in Hle. by apply (Hle j).
Qed.

(** A step of the pass records only scores of the interval (0, 1]. *)
Lemma card_step_scores cx p card p' :
  scores_in_range (filtered_dzen_history p) →
  card_step cx p card = Done p' →
  scores_in_range (filtered_dzen_history p').
Proof.
  intros Hp. unfold card_step.
  destruct (_ || _); [by intros [= <-]|].
  destruct (is_url_analyzed _ _); [by intros [= <-]|].
  destruct (dzen_title_map cx !! _) as [old_id|].
  { unfold rename_step. cbn [objs add_url].
    destruct (objs p !! old_id) as [old_item|]; [|done].
    destruct (old_item !! "url"%string) as [old_url|]; [|done].
    destruct (json_eq_str _ _); [by intros [= <-]|].
    destruct (mapM _ _); [|done]. by intros [= <-]. }
  destruct (bool_decide _); [by intros [= <-]|].
  destruct (find_best_match _ _ _) as [[bm bs] st] eqn:Hf.
  assert (Hkw : ∀ p0, filtered_dzen_history p0 = filtered_dzen_history p →
            keyword_step cx (card_url card.1) card.2 p0 = Done p' →
            scores_in_range (filtered_dzen_history p')).
  { intros p0 Hp0. unfold keyword_step.
    destruct (decide _); intros [= <-];
      cbn [filtered_dzen_history accept reject]; rewrite Hp0; [|done].
    apply Forall_app. split; [done|]. by apply Forall_singleton. }
  destruct bm as [m|]; [|by apply Hkw].
  destruct (Rle_dec _ _); [|by apply Hkw].
  unfold semantic_step.
  destruct (mosru_url_already_used _ _ _) as [[|]|]; [by intros [= <-]| |done].
  intros [= <-]. cbn [filtered_dzen_history accept set_caches add_url].
  apply Forall_app. split; [done|]. apply Forall_singleton.
  intros s [= <-].
  destruct (find_best_match_range card.2 (recent_mosru cx)
              (p_caches (add_url (card_url card.1) p)) (Some m) bs)
    as [[_ Hle] Hpos]; [by rewrite Hf|].
  split; [by apply Hpos|done].
Qed.

Lemma run_cards_scores cx cards p p' :
  scores_in_range (filtered_dzen_history p) →
  run_cards cx p cards = Done p' →
  scores_in_range (filtered_dzen_history p').
Proof.
  revert p. induction cards as [|card cards IH]; intros p Hp.
  - by intros [= <-].
  - cbn [run_cards]. destruct (card_step cx p card) as [p1|p1] eqn:Hs; [|done].
    apply IH. by apply (card_step_scores cx p card).
Qed.

(** C2 (amended).  The scorer returns a value that is at most [1.0] (and
    [0.0] when something raises), but nothing keeps it from being negative.
    What [find_best_match] returns lies in [0, 1], a returned best item has a
    positive score, and so every similarity score that a pass records lies in
    the interval (0, 1]. *)
Theorem score_range :
  (∀ url title item st, (calculate_similarity_sbert url title item st).1 <= 1)
  ∧ (∀ title items st bi bs,
       (find_best_match title items st).1 = (bi, bs) →
       0 <= bs <= 1 ∧ (is_Some bi → 0 < bs))
  ∧ (∀ (O : SetOrder) mosru_history urls max_items page st s news history,
       f_result (fetch_dzen_news mosru_history urls max_items page st s)
       = Some (news, history) →
       Forall (λ r, ∀ score, similarity_score r = Some score → 0 < score <= 1)
              history).
Proof.
  split; [apply calculate_le_1|]. split; [apply find_best_match_range|].
  intros O mosru_history urls max_items page st s news history.
  unfold fetch_dzen_news.
  destruct keywords_topics as [raw_keywords|]; [|done].
  destruct (build_title_map _ _ _) as [tmap|]; [|done].
  destruct page as [cards|]; [|by intros [= <- <-]].
  destruct (run_cards _ _ _) as [p|p] eqn:Hr; [|done].
  intros [= <- <-]. apply (run_cards_scores _ _ _ _ (Forall_nil_2 _ : scores_in_range (filtered_dzen_history (first_pass _ _ _))) Hr).
Qed.

End pass.

(** *** The statements on the sample inputs *)

Lemma norm_1_0 : norm [1; 0] = 1.
Proof.
  unfold norm. cbn [foldr].
  replace (1 * 1 + (0 * 0 + 0)) with 1 by lra. apply sqrt_1.
Qed.

Lemma norm_m1_0 : norm [-1; 0] = 1.
Proof.
  unfold norm. cbn [foldr].
  replace (-1 * -1 + (0 * 0 + 0)) with 1 by lra. apply sqrt_1.
Qed.

Lemma norm_4_3 : norm [4; 3] = 5.
Proof.
  unfold norm. cbn [foldr].
  replace (4 * 4 + (3 * 3 + 0)) with (5 * 5) by lra. apply sqrt_square. lra.
Qed.


(** Comparisons of the scores of the sample embeddings. *)
Ltac sample_real :=
  cbn [emb_title emb_title_snippet embeddings embedding fst snd
       SBERT_SIMILARITY_THRESHOLD Sample.sample_env];
  rewrite ?norm_1_0, ?norm_4_3, ?norm_m1_0; cbv beta;
  unfold Rmin; repeat destruct (Rle_dec _ _); lra.






(** C2, the claim as stated fails: against a reference whose embedding points
    the other way the scorer returns a negative score. *)
Lemma scorer_negative :
  (calculate_similarity_sbert (H := Sample.sample_env)
     (u "https://dzen.ru/a/3") (u "opposite") Sample.ref_plain
     Sample.empty_caches).1 < 0.
Proof.
  erewrite (calculate_plain (H := Sample.sample_env));
    [ | reflexivity | reflexivity | reflexivity | reflexivity
      | vm_compute; reflexivity | vm_compute; reflexivity ].
  sample_real.
Qed.

Lemma score_range_witness :
  0 <= (find_best_match (H := Sample.sample_env) (u "near")
          [Sample.ref_plain] Sample.empty_caches).1.2 <= 1.
Proof.
  apply (proj1 (proj2 (score_range (H := Sample.sample_env))) (u "near")
           [Sample.ref_plain] Sample.empty_caches
           (find_best_match (H := Sample.sample_env) (u "near")
              [Sample.ref_plain] Sample.empty_caches).1.1).
  by destruct (find_best_match _ _ _).1.
Defined.



(** Two records of the history have the
    normalized title of the candidate; the first one is an existing record
    with another url, and after the pass it has not only another url and
    timestamp but also the other fields of the second record. *)
Lemma rename_overwrites_duplicates :
  record_title Sample.record_first = Some (normalize_text (u "Big news"))
  ∧ Sample.record_first !! "url"%string ≠ Some (JStr (u "https://dzen.ru/a/9"))
  ∧ Sample.record_first !! "mosru_title"%string
    = Some (JStr (u "first source"))
  ∧ (saved ← dzen_history_file
       (f_storage (fetch_dzen_news (H := Sample.sample_env)
                     (H0 := Sample.sample_order) []
                     {[u "https://dzen.ru/a/7"; u "https://dzen.ru/a/8"]} 20
                     (Some [(u "https://dzen.ru/a/9", u "Big news")])
                     Sample.empty_caches Sample.duplicated_storage)) !! 0%nat;
     saved !! "mosru_title"%string)
    = Some (JStr (u "second source")).
Proof.
  split; [vm_compute; reflexivity|].
  split; [intros Heq; vm_compute in Heq; discriminate|].
  split; vm_compute; reflexivity.
Qed.

Lemma rename_in_place_witness :
  ∃ p', card_step (H := Sample.sample_env)
          (mkCtx {[normalize_text (u "Big news") := 0%nat]}
                 {[u "https://dzen.ru/a/7"]} [] [])
          (first_pass [Sample.record_first] Sample.empty_caches
             Sample.single_storage)
          (u "https://dzen.ru/a/9", u "Big news") = Done p'
        ∧ dzen_history_raw p' = [0%nat]
        ∧ filtered_dzen_news p' = [].
Proof.
  edestruct (rename_in_place (H := Sample.sample_env)
               (mkCtx {[normalize_text (u "Big news") := 0%nat]}
                      {[u "https://dzen.ru/a/7"]} [] [])
               (first_pass [Sample.record_first] Sample.empty_caches
                  Sample.single_storage)
               (u "https://dzen.ru/a/9", u "Big news") 0%nat
               Sample.record_first (JStr (u "https://dzen.ru/a/7")))
    as (p' & Hstep & _ & Hraw & _ & _ & _ & Hnews & _).
  - intros Heq; vm_compute in Heq; discriminate.
  - intros Heq; vm_compute in Heq; discriminate.
  - apply (bool_decide_unpack _). vm_compute. exact I.
  - vm_compute. reflexivity.
  - vm_compute. reflexivity.
  - reflexivity.
  - vm_compute. reflexivity.
  - intros Heq. vm_compute in Heq. discriminate.
  - intros i Hi. apply list_elem_of_singleton in Hi as ->.
    eexists. vm_compute. reflexivity.
  - exists p'. split; [exact Hstep|]. split; [|exact Hnews].
    rewrite Hraw. vm_compute. reflexivity.
Defined.

End DzenFacts.

(** ** The analyzed urls *)

Module StorageFacts.
Import PyStr Storage.

Lemma NoDup_set_list (O : SetOrder) (s : gset str) : NoDup (set_list s).
Proof. rewrite set_list_perm. apply NoDup_elements. Qed.

Lemma length_set_list (O : SetOrder) (s : gset str) :
  length (set_list s) = size s.
Proof. by rewrite set_list_perm. Qed.

Lemma analyzed_urls_save (O : SetOrder) s :
  analyzed_urls (_save_analyzed_urls s) = analyzed_urls s.
Proof. done. Qed.

(** After the trimming the set has at most [MAX_ANALYZED_URLS] urls, in
    whatever order the set is iterated. *)
Lemma trim_capped (O : SetOrder) s :
  (Z.of_nat (size (analyzed_urls (_trim_analyzed_urls_if_needed s)))
   ≤ MAX_ANALYZED_URLS)%Z.
Proof.
  unfold _trim_analyzed_urls_if_needed.
  destruct (_ >? _)%Z eqn:E; [|lia]. cbn [analyzed_urls].
  rewrite size_list_to_set.
  - unfold last_n. rewrite length_drop. unfold MAX_ANALYZED_URLS. lia.
  - apply (sublist_NoDup _ (set_list (analyzed_urls s)));
      [apply NoDup_set_list|apply sublist_drop].
Qed.

Lemma add_analyzed_urls_capped (O : SetOrder) urls s :
  urls ≠ [] →
  (Z.of_nat (size (analyzed_urls (add_analyzed_urls urls s)))
   ≤ MAX_ANALYZED_URLS)%Z.
Proof.
  intros Hne. destruct urls as [|url urls]; [done|].
  unfold add_analyzed_urls. rewrite analyzed_urls_save. apply trim_capped.
Qed.

(** C9.  The set of analyzed urls is capped: after adding urls it holds at
    most [MAX_ANALYZED_URLS] of them, in any iteration order.  But the
    trimming keeps the last urls of the iteration order of a Python set,
    which is not the order of insertion: in a process that iterates the new
    url first, adding one url to a full set removes that newest url and keeps
    every older one. *)
Theorem analyzed_urls_trim_not_by_age (s : S3Storage) (new : str) :
  size (analyzed_urls s) = Z.to_nat MAX_ANALYZED_URLS →
  new ∉ analyzed_urls s →
  (∀ (O : SetOrder) urls, urls ≠ [] →
     (Z.of_nat (size (analyzed_urls (add_analyzed_urls urls s)))
      ≤ MAX_ANALYZED_URLS)%Z)
  ∧ new ∉ analyzed_urls (add_analyzed_urls (H := front_order new) [new] s)
  ∧ analyzed_urls (add_analyzed_urls (H := front_order new) [new] s)
    = analyzed_urls s.
Proof.
  intros Hsize Hnew. split; [intros O urls; apply add_analyzed_urls_capped|].
  assert (Heq : analyzed_urls
                  (add_analyzed_urls (H := front_order new) [new] s)
                = analyzed_urls s); [|by rewrite Heq].
  unfold add_analyzed_urls. rewrite analyzed_urls_save.
  unfold _trim_analyzed_urls_if_needed. cbn [foldl analyzed_urls].
  rewrite size_union, size_singleton by set_solver. rewrite Hsize.
  assert (Hgt : (Z.of_nat (1 + Z.to_nat MAX_ANALYZED_URLS)
                 >? MAX_ANALYZED_URLS)%Z = true).
  { apply Z.gtb_lt. unfold MAX_ANALYZED_URLS. lia. }
  rewrite Hgt. cbn [analyzed_urls set_list front_order].
  rewrite decide_True by set_solver.
  assert (Hdiff : ({[new]} ∪ analyzed_urls s) ∖ {[new]} = analyzed_urls s)
    by set_solver.
  rewrite Hdiff. unfold last_n. cbn [length].
  change (length (elements (analyzed_urls s)))
    with (size (analyzed_urls s)).
  rewrite Hsize.
  replace (S (Z.to_nat MAX_ANALYZED_URLS) - Z.to_nat MAX_ANALYZED_URLS)%nat
    with 1%nat by lia.
  cbn [drop]. rewrite drop_0. apply list_to_set_elements_L.
Qed.

Lemma full_storage_size :
  size (analyzed_urls Sample.full_storage) = Z.to_nat MAX_ANALYZED_URLS.
Proof.
  cbn [analyzed_urls Sample.full_storage]. rewrite size_list_to_set.
  - unfold Sample.many_urls. by rewrite length_fmap, length_seq.
  - unfold Sample.many_urls. apply NoDup_fmap_2; [|apply NoDup_seq].
    intros i j Heq. apply app_inv_head in Heq. injection Heq as Heq. lia.
Qed.

Lemma full_storage_new :
  u "https://dzen.ru/a/new" ∉ analyzed_urls Sample.full_storage.
Proof.
  cbn [analyzed_urls Sample.full_storage]. rewrite elem_of_list_to_set.
  unfold Sample.many_urls. intros (i & Heq & _)%list_elem_of_fmap.
  change (u "https://dzen.ru/a/new") with (u "https://dzen.ru/a/" ++ u "new")
    in Heq.
  apply app_inv_head in Heq. vm_compute in Heq. discriminate.
Qed.

Lemma analyzed_urls_trim_not_by_age_witness :
  u "https://dzen.ru/a/new"
  ∉ analyzed_urls
      (add_analyzed_urls (H := front_order (u "https://dzen.ru/a/new"))
         [u "https://dzen.ru/a/new"] Sample.full_storage).
Proof.
  exact (proj1 (proj2 (analyzed_urls_trim_not_by_age Sample.full_storage
                         (u "https://dzen.ru/a/new")
                         full_storage_size full_storage_new))).
Defined.

End StorageFacts.

(** ** The mos.ru source *)

Module MosruFacts.
Import PyStr Parser Mosru.

Lemma before_no_sep (sep : N) (s : str) : sep ∉ before sep s.
Proof.
  induction s as [|c s IH]; cbn [before]; [apply not_elem_of_nil|].
  destruct (decide (c = sep)); [apply not_elem_of_nil|].
  apply not_elem_of_cons. split; [done|exact IH].
Qed.

Lemma before_id (sep : N) (s : str) : sep ∉ s → before sep s = s.
Proof.
  induction s as [|c s IH]; [done|]. intros [Hne Hn]%not_elem_of_cons.
  cbn [before]. rewrite decide_False by done. by rewrite IH.
Qed.

Lemma endswith_snoc (c : N) (s : str) : endswith [c] (s ++ [c]) = true.
Proof.
  unfold endswith. rewrite reverse_app. cbn.
  by rewrite bool_decide_eq_true_2.
Qed.

Lemma normalize_mosru_url_nonempty (url : str) :
  url ≠ [] →
  normalize_mosru_url url =
    if endswith [47%N] (before 63%N url) then before 63%N url
    else before 63%N url ++ [47%N].
Proof. intros Hne. unfold normalize_mosru_url. by rewrite decide_False. Qed.

(** [normalize_mosru_url] changes nothing in a url that it has produced. *)
Lemma normalize_mosru_url_idemp (url : str) :
  normalize_mosru_url (normalize_mosru_url url) = normalize_mosru_url url.
Proof.
  destruct (decide (url = [])) as [->|Hne]; [done|].
  rewrite (normalize_mosru_url_nonempty url Hne).
  set (y := before 63%N url).
  assert (Hy : 63%N ∉ y) by apply before_no_sep.
  set (z := if endswith [47%N] y then y else y ++ [47%N]).
  assert (Hend : endswith [47%N] z = true).
  { unfold z. destruct (endswith [47%N] y) eqn:E; [done|apply endswith_snoc]. }
  assert (Hz : 63%N ∉ z).
  { unfold z. destruct (endswith [47%N] y); [done|].
    rewrite elem_of_app, list_elem_of_singleton. by intros [?|?]. }
  assert (Hnil : z ≠ []).
  { intros Hz0. by rewrite Hz0 in Hend. }
  rewrite (normalize_mosru_url_nonempty z Hnil).
  by rewrite (before_id _ _ Hz), Hend.
Qed.

Section source.
Context `{Env}.

(** The loop over the cards builds the two lists side by side, and every
    url in them comes out of [normalize_mosru_url]. *)
Lemma scrape_cards_spec max_items cards url_set news_items history_items :
  n_url <$> news_items = m_url <$> history_items →
  Forall (λ item, normalize_mosru_url (m_url item) = m_url item) history_items →
  let r := scrape_cards max_items cards url_set news_items history_items in
  n_url <$> r.1 = m_url <$> r.2
  ∧ Forall (λ item, normalize_mosru_url (m_url item) = m_url item) r.2.
Proof.
  revert url_set news_items history_items.
  induction cards as [|[[href title] snippet] cards IH];
    intros url_set news_items history_items Hpar Hnorm; [done|].
  cbn [scrape_cards].
  set (href' := normalize_mosru_url _).
  destruct (_ || _); [by apply IH|].
  destruct (decide (title ≠ [])).
  - assert (Hpar' : n_url <$> news_items ++ [mkNews (strip title) href' (u "mos.ru") (Some (strip snippet))]
                    = m_url <$> history_items ++ [mkMosru href' (strip title) (strip snippet) now_naive_iso false]).
    { rewrite !fmap_app. by rewrite Hpar. }
    assert (Hnorm' : Forall (λ item, normalize_mosru_url (m_url item) = m_url item)
                       (history_items ++ [mkMosru href' (strip title) (strip snippet) now_naive_iso false])).
    { apply Forall_app. split; [done|]. apply Forall_singleton.
      cbn [m_url]. apply normalize_mosru_url_idemp. }
    destruct (_ <=? _)%nat; [done|by apply IH].
  - destruct (_ <=? _)%nat; [done|by apply IH].
Qed.

Lemma fetch_mosru_news_spec page :
  n_url <$> (fetch_mosru_news page).1 = m_url <$> (fetch_mosru_news page).2
  ∧ Forall (λ item, normalize_mosru_url (m_url item) = m_url item)
           (fetch_mosru_news page).2.
Proof.
  destruct page as [cards|]; [|done].
  by apply (scrape_cards_spec 20 cards ∅ [] []).
Qed.

End source.

Lemma unique_by_parallel {A B} (f : A → str) (g : B → str)
    (seen : gset str) (l1 : list A) (l2 : list B) :
  f <$> l1 = g <$> l2 →
  f <$> unique_by (λ x, norm_url (f x)) seen l1
  = g <$> unique_by (λ x, norm_url (g x)) seen l2.
Proof.
  revert seen l2. induction l1 as [|x l1 IH]; intros seen [|y l2] Heq;
    try done.
  injection Heq as Hxy Heq. cbn [unique_by]. rewrite Hxy.
  destruct (bool_decide _); [by apply IH|].
  cbn [fmap list_fmap]. rewrite Hxy. f_equal. by apply IH.
Qed.

Lemma unique_by_elem_of {A} (key : A → str) (seen : gset str) (l : list A) x :
  x ∈ unique_by key seen l → x ∈ l.
Proof.
  revert seen. induction l as [|y l IH]; intros seen; [done|].
  cbn [unique_by]. destruct (bool_decide _).
  - intros Hx. right. by eapply IH.
  - intros [->|Hx]%elem_of_cons; [by left|right; by eapply IH].
Qed.

Section all.
Context `{Env}.

(** What [get_all_mosru_news] returns: the urls of the two lists agree
    position by position, and they are normalized mos.ru urls. *)
Lemma get_all_mosru_news_spec pages :
  n_url <$> (get_all_mosru_news pages).1 = m_url <$> (get_all_mosru_news pages).2
  ∧ Forall (λ item, normalize_mosru_url (m_url item) = m_url item)
           (get_all_mosru_news pages).2.
Proof.
  unfold get_all_mosru_news. cbn [fst snd].
  assert (Hpar : n_url <$> concat ((fetch_mosru_news <$> pages).*1)
                 = m_url <$> concat ((fetch_mosru_news <$> pages).*2)
                 ∧ Forall (λ item, normalize_mosru_url (m_url item) = m_url item)
                          (concat ((fetch_mosru_news <$> pages).*2))).
  { induction pages as [|page pages [IH1 IH2]]; [done|].
    cbn [fmap list_fmap concat].
    destruct (fetch_mosru_news_spec page) as [H1 H2].
    split; [by rewrite !fmap_app, H1, IH1|by apply Forall_app]. }
  destruct Hpar as [Hpar Hnorm]. split.
  - by apply unique_by_parallel.
  - apply Forall_forall. intros item Hin%unique_by_elem_of.
    rewrite Forall_forall in Hnorm. by apply Hnorm.
Qed.

End all.

End MosruFacts.

(** ** The reconciliation *)

Module SchedulerFacts.
Import PyStr Similarity Storage Dzen Scheduler.

Section records.
Context `{Env}.

(** A record written by the program is read back as it was. *)
Lemma mosru_roundtrip (item : MosruHistoryItem) :
  mosru_of_dict (mosru_to_dict item) = Some item.
Proof.
  destruct item as [url title snippet added_at flag].
  unfold mosru_of_dict, mosru_to_dict. cbn [m_url m_title m_snippet m_added_at in_dzen].
  rewrite bool_decide_eq_true_2.
  - by simplify_map_eq.
  - rewrite !dom_insert_L, dom_empty_L. set_solver.
Qed.

Lemma dzen_roundtrip (item : DzenHistoryItem) :
  dzen_of_dict (dzen_to_dict item) = Some item.
Proof.
  destruct item as [url title added_at src stitle ssnip mt score cw kws].
  unfold dzen_of_dict, dzen_to_dict.
  cbn [d_url d_title d_added_at mosru_source_url mosru_title mosru_snippet
       match_type similarity_score common_words matched_keywords].
  rewrite bool_decide_eq_true_2.
  - simplify_map_eq. 
    destruct src, stitle, ssnip, mt, score, cw; cbn;
      rewrite ?Nat2Z.id; try done;
      (destruct (0 <=? Z.of_nat _)%Z eqn:E;
         [by rewrite ?Nat2Z.id|apply Z.leb_gt in E; lia]).
  - unfold dzen_keys. rewrite !dom_insert_L, dom_empty_L. set_solver.
Qed.

Lemma mapM_mosru_roundtrip (l : list MosruHistoryItem) :
  mapM mosru_of_dict (mosru_to_dict <$> l) = Some l.
Proof.
  apply mapM_Some. induction l as [|item l IH]; [constructor|].
  constructor; [apply mosru_roundtrip|exact IH].
Qed.

Lemma mapM_dzen_roundtrip (l : list DzenHistoryItem) :
  mapM dzen_of_dict (dzen_to_dict <$> l) = Some l.
Proof.
  apply mapM_Some. induction l as [|item l IH]; [constructor|].
  constructor; [apply dzen_roundtrip|exact IH].
Qed.

(** Rewriting the url and the timestamp of a record that can be read gives
    a record that can be read. *)
Lemma dzen_of_dict_rewritten (item : gmap string json) (url added_at : str) :
  is_Some (dzen_of_dict item) →
  is_Some (dzen_of_dict (<["added_at"%string := JStr added_at]>
                           (<["url"%string := JStr url]> item))).
Proof.
  unfold dzen_of_dict. intros [r Hr].
  destruct (bool_decide (dom item ⊆ dzen_keys)) eqn:Hdom; [|done].
  apply bool_decide_eq_true_1 in Hdom.
  rewrite bool_decide_eq_true_2.
  2:{ rewrite !dom_insert_L. unfold dzen_keys in *. set_solver. }
  simplify_map_eq.
  destruct (jstr (item !! "url"%string)); [|done].
  cbn in Hr |- *.
  destruct (jstr (item !! "title"%string)); [|done].
  cbn in Hr |- *.
  destruct (match item !! "added_at"%string with
            | Some (JStr s) => Some s | Some _ => None | None => Some now_iso
            end); [|done].
  cbn in Hr |- *.
  destruct (jopt_str (item !! "mosru_source_url"%string)); [|done].
  cbn in Hr |- *.
  destruct (jopt_str (item !! "mosru_title"%string)); [|done].
  cbn in Hr |- *.
  destruct (jopt_str (item !! "mosru_snippet"%string)); [|done].
  cbn in Hr |- *.
  destruct (jopt_str (item !! "match_type"%string)); [|done].
  cbn in Hr |- *.
  destruct (match item !! "similarity_score"%string with
            | Some JNull => _ | _ => _ end); [|done].
  cbn in Hr |- *.
  destruct (match item !! "common_words"%string with
            | Some JNull => _ | _ => _ end); [|done].
  cbn in Hr |- *.
  destruct (match item !! "matched_keywords"%string with
            | Some JNull => _ | _ => _ end); [|done].
  by eexists.
Qed.

End records.

Section source.
Context `{Env}.
Implicit Types (cx : ctx) (p : pass) (card : str * str).

Lemma Forall_resolve (P : gmap string json → Prop)
    (os : list (gmap string json)) (raw : list nat) :
  Forall P os → Forall P (resolve os raw).
Proof.
  intros Hos. unfold resolve. induction raw as [|i raw IH]; [constructor|].
  cbn [omap list_omap]. destruct (os !! i) as [o|] eqn:E; [|exact IH].
  constructor; [|exact IH]. rewrite Forall_lookup in Hos. by apply (Hos i).
Qed.

(** What a step of the pass keeps: the two result lists go side by side,
    no recorded url is a url of the history, and the records of the history
    stay readable. *)
Lemma card_step_keeps cx p card p' :
  card_step cx p card = Done p' →
  (n_url <$> filtered_dzen_news p = d_url <$> filtered_dzen_history p
   ∧ Forall (λ r, d_url r ∉ dzen_history_urls cx) (filtered_dzen_history p)
   ∧ Forall (λ o, is_Some (dzen_of_dict o)) (objs p)
   ∧ Forall (λ o, is_Some (dzen_of_dict o)) (dzen_history_file (p_storage p))) →
  (n_url <$> filtered_dzen_news p' = d_url <$> filtered_dzen_history p'
   ∧ Forall (λ r, d_url r ∉ dzen_history_urls cx) (filtered_dzen_history p')
   ∧ Forall (λ o, is_Some (dzen_of_dict o)) (objs p')
   ∧ Forall (λ o, is_Some (dzen_of_dict o)) (dzen_history_file (p_storage p')))
  ∧ mosru_history_file (p_storage p') = mosru_history_file (p_storage p).
Proof.
  intros Hstep (Hpar & Hnot & Hobjs & Hfile). revert Hstep. unfold card_step.
  destruct (_ || _); [by intros [= <-]|].
  destruct (is_url_analyzed _ _); [by intros [= <-]|].
  destruct (dzen_title_map cx !! _) as [old_id|].
  { unfold rename_step. cbn [objs add_url dzen_history_raw p_storage].
    destruct (objs p !! old_id) as [old_item|] eqn:Hold; [|done].
    destruct (old_item !! "url"%string) as [old_url|]; [|done].
    destruct (json_eq_str _ _); [by intros [= <-]|].
    destruct (mapM _ _) as [raw|]; [|done]. intros [= <-].
    cbn [filtered_dzen_news filtered_dzen_history objs p_storage set_history
         add_url save_dzen_history dzen_history_file mosru_history_file].
    assert (Hos : Forall (λ o, is_Some (dzen_of_dict o))
              (<[old_id := <["added_at"%string := JStr now_iso]>
                   (<["url"%string := JStr (card_url card.1)]> old_item)]>
                 (objs p))).
    { apply Forall_insert; [done|]. apply dzen_of_dict_rewritten.
      rewrite Forall_lookup in Hobjs. by apply (Hobjs old_id). }
    repeat split; try done. by apply Forall_resolve. }
  destruct (bool_decide (_ ∈ dzen_history_urls cx)) eqn:Hin;
    [by intros [= <-]|].
  apply bool_decide_eq_false_1 in Hin.
  destruct (find_best_match _ _ _) as [[bm bs] st].
  assert (Hacc : ∀ r p0,
            d_url r = card_url card.1 →
            filtered_dzen_news p0 = filtered_dzen_news p →
            filtered_dzen_history p0 = filtered_dzen_history p →
            n_url <$> filtered_dzen_news
                        (accept (news_of (card_url card.1) card.2) r p0)
            = d_url <$> filtered_dzen_history
                          (accept (news_of (card_url card.1) card.2) r p0)
            ∧ Forall (λ r, d_url r ∉ dzen_history_urls cx)
                (filtered_dzen_history
                   (accept (news_of (card_url card.1) card.2) r p0))).
  { intros r p0 Hr Hn Hh. cbn [filtered_dzen_news filtered_dzen_history accept].
    rewrite Hn, Hh, !fmap_app, Hpar. cbn. rewrite Hr. split; [done|].
    apply Forall_app. split; [done|]. apply Forall_singleton. by rewrite Hr. }
  assert (Hkw : keyword_step cx (card_url card.1) card.2
                  (set_caches st (add_url (card_url card.1) p)) = Done p' →
    (n_url <$> filtered_dzen_news p' = d_url <$> filtered_dzen_history p'
     ∧ Forall (λ r, d_url r ∉ dzen_history_urls cx) (filtered_dzen_history p')
     ∧ Forall (λ o, is_Some (dzen_of_dict o)) (objs p')
     ∧ Forall (λ o, is_Some (dzen_of_dict o))
              (dzen_history_file (p_storage p')))
    ∧ mosru_history_file (p_storage p') = mosru_history_file (p_storage p)).
  { unfold keyword_step. destruct (decide _); intros [= <-]; [|done].
    destruct (Hacc (keywords_record (card_url card.1) card.2
                      (filter (λ kw, contains kw (normalize_text card.2) = true)
                              (norm_keywords cx)))
                   (set_caches st (add_url (card_url card.1) p)))
      as [H1 H2]; done. }
  destruct bm as [m|]; [|exact Hkw].
  destruct (Rle_dec _ _); [|exact Hkw].
  unfold semantic_step.
  destruct (mosru_url_already_used _ _ _) as [[|]|]; [by intros [= <-]| |done].
  intros [= <-].
  destruct (Hacc (sbert_record (card_url card.1) card.2 m bs)
                 (set_caches st (add_url (card_url card.1) p)))
    as [H1 H2]; done.
Qed.

Lemma run_cards_keeps cx cards p p' :
  run_cards cx p cards = Done p' →
  (n_url <$> filtered_dzen_news p = d_url <$> filtered_dzen_history p
   ∧ Forall (λ r, d_url r ∉ dzen_history_urls cx) (filtered_dzen_history p)
   ∧ Forall (λ o, is_Some (dzen_of_dict o)) (objs p)
   ∧ Forall (λ o, is_Some (dzen_of_dict o)) (dzen_history_file (p_storage p))) →
  (n_url <$> filtered_dzen_news p' = d_url <$> filtered_dzen_history p'
   ∧ Forall (λ r, d_url r ∉ dzen_history_urls cx) (filtered_dzen_history p')
   ∧ Forall (λ o, is_Some (dzen_of_dict o)) (objs p')
   ∧ Forall (λ o, is_Some (dzen_of_dict o)) (dzen_history_file (p_storage p')))
  ∧ mosru_history_file (p_storage p') = mosru_history_file (p_storage p).
Proof.
  revert p. induction cards as [|card cards IH]; intros p.
  - by intros [= <-].
  - cbn [run_cards]. destruct (card_step cx p card) as [p1|p1] eqn:Hs; [|done].
    intros Hrun Hp. destruct (card_step_keeps cx p card p1 Hs Hp) as [Hp1 Hm1].
    destruct (IH p1 Hrun Hp1) as [Hp' Hm']. split; [done|]. by rewrite Hm', Hm1.
Qed.

Lemma add_analyzed_urls_files (O : SetOrder) urls s :
  mosru_history_file (add_analyzed_urls urls s) = mosru_history_file s
  ∧ dzen_history_file (add_analyzed_urls urls s) = dzen_history_file s.
Proof.
  destruct urls as [|url urls]; [done|]. unfold add_analyzed_urls.
  unfold _save_analyzed_urls, _trim_analyzed_urls_if_needed.
  by destruct (_ >? _)%Z.
Qed.

Lemma store_analyzed_files (O : SetOrder) p :
  mosru_history_file (store_analyzed p) = mosru_history_file (p_storage p)
  ∧ dzen_history_file (store_analyzed p) = dzen_history_file (p_storage p).
Proof.
  unfold store_analyzed.
  destruct (decide (filtered_out_urls p ≠ [])), (decide (filtered_dzen_news p ≠ []));
    rewrite ?(proj1 (add_analyzed_urls_files O _ _)),
            ?(proj2 (add_analyzed_urls_files O _ _)); done.
Qed.

(** What [fetch_dzen_news] returns and leaves behind when it does not
    raise, on a history file that can be read. *)
Lemma fetch_dzen_news_spec (O : SetOrder) mosru_history urls max_items page
    st s news items :
  Forall (λ o, is_Some (dzen_of_dict o)) (dzen_history_file s) →
  f_result (fetch_dzen_news mosru_history urls max_items page st s)
  = Some (news, items) →
  n_url <$> news = d_url <$> items
  ∧ Forall (λ r, d_url r ∉ urls) items
  ∧ f_mosru_history (fetch_dzen_news mosru_history urls max_items page st s)
    = normalized_history mosru_history
  ∧ mosru_history_file
      (f_storage (fetch_dzen_news mosru_history urls max_items page st s))
    = mosru_history_file s
  ∧ Forall (λ o, is_Some (dzen_of_dict o))
      (dzen_history_file
         (f_storage (fetch_dzen_news mosru_history urls max_items page st s))).
Proof.
  intros Hs. unfold fetch_dzen_news.
  destruct keywords_topics as [raw_keywords|]; [|done].
  destruct (build_title_map _ _ _) as [tmap|]; [|done].
  destruct page as [cards|]; [|by intros [= <- <-]].
  destruct (run_cards _ _ _) as [p|p] eqn:Hr; [|done].
  cbn [f_result f_mosru_history f_storage]. intros [= <- <-].
  destruct (store_analyzed_files O p) as [Hm Hd]. rewrite Hm, Hd.
  destruct (run_cards_keeps _ _ _ _ Hr) as [(H1 & H2 & _ & H4) H5]; [|done].
  by cbn.
Qed.

End source.

Section reconciliation.
Context `{Env}.

Lemma filter_none {A} (P : A → Prop) `{∀ x, Decision (P x)} (l : list A) :
  Forall (λ x, ¬ P x) l → filter P l = [].
Proof.
  induction 1 as [|x l Hx _ IH]; [done|].
  by rewrite filter_cons_False.
Qed.

Lemma filter_none_inv {A} (P : A → Prop) `{∀ x, Decision (P x)} (l : list A) :
  filter P l = [] → Forall (λ x, ¬ P x) l.
Proof.
  intros Hf. apply Forall_forall. intros x Hx HP.
  by apply (filter_nil_not_elem_of P l x Hf HP).
Qed.

(** The age filter keeps the urls that are normalized already. *)
Lemma normalized_history_url (mosru_history : list MosruHistoryItem) item :
  item ∈ mosru_history →
  Parser.normalize_mosru_url (m_url item) = m_url item →
  m_url item ∈ m_url <$> normalized_history mosru_history.
Proof.
  intros Hin Hnorm. unfold normalized_history.
  apply list_elem_of_fmap. exists (mark_recent item).1. split.
  - unfold mark_recent. destruct (age_days _) as [days|]; [|done].
    destruct (_ <=? _)%Z; [|done]. by cbn.
  - apply list_elem_of_fmap. exists (mark_recent item). split; [done|].
    apply list_elem_of_fmap. by exists item.
Qed.

Lemma set_in_dzen_urls (urls : gset str) (l : list MosruHistoryItem) :
  m_url <$> ((λ item, if bool_decide (m_url item ∈ urls)
                      then set_in_dzen item else item) <$> l)
  = m_url <$> l.
Proof.
  rewrite <- list_fmap_compose. apply list_fmap_ext. intros _ item _. cbn.
  by destruct (bool_decide _).
Qed.

(** C7.  Reconciliation is idempotent: after a cycle that went through and
    persisted what it found, a second cycle on the storage it left, with the
    same pages of mos.ru and with an aggregator source that returns the same
    lists again, goes through and has nothing new: nothing to deliver and
    nothing to add to the histories. *)
Theorem reconciliation_idempotent (O : SetOrder) mosru_pages dzen_page
    st s c st1 s1 dzen_fetch' st' :
  fetch_and_send_news mosru_pages dzen_page st s = (Some c, st1, s1) →
  (∀ mosru_history urls st0 s0,
     f_result (dzen_fetch' mosru_history urls st0 s0)
     = Some (dzen_news c, dzen_new_items c)) →
  ∃ c' st2 s2,
    cycle_with dzen_fetch' mosru_pages st' s1 = (Some c', st2, s2)
    ∧ new_mosru_news c' = [] ∧ new_mosru_history c' = []
    ∧ new_dzen_news c' = [] ∧ new_dzen_history c' = [].
Proof.
  unfold fetch_and_send_news. unfold cycle_with at 1.
  destruct (mapM mosru_of_dict (load_mosru_history s)) as [MH|] eqn:HM; [|done].
  destruct (mapM dzen_of_dict (load_dzen_history s)) as [DH|] eqn:HD; [|done].
  destruct (Mosru.get_all_mosru_news mosru_pages) as [N I] eqn:HG.
  destruct (MosruFacts.get_all_mosru_news_spec mosru_pages) as [Hpar Hnorm].
  rewrite HG in Hpar, Hnorm. cbn [fst snd] in Hpar, Hnorm.
  set (Um := list_to_set (m_url <$> MH) : gset str).
  set (Ud := list_to_set (d_url <$> DH) : gset str).
  set (newI := filter (λ item, m_url item ∉ Um) I).
  set (f := fetch_dzen_news (MH ++ newI) Ud 20 dzen_page st s).
  destruct (f_result f) as [[DN DI]|] eqn:HF; [|done].
  assert (Hload : Forall (λ o, is_Some (dzen_of_dict o)) (dzen_history_file s)).
  { apply (mapM_is_Some_1 dzen_of_dict). unfold load_dzen_history in HD. by rewrite HD. }
  destruct (fetch_dzen_news_spec O _ _ _ _ _ _ _ _ Hload HF)
    as (HparD & HnotD & HfM & HfileM & HfileD).
  fold f in HfM, HfileM, HfileD.
  set (MH3 := (λ item, if bool_decide (m_url item ∈ source_urls DI)
                       then set_in_dzen item else item) <$> f_mosru_history f).
  set (newDI := filter (λ item, d_url item ∉ Ud) DI).
  set (saveM := bool_decide (newI ≠ []) || existsb _ (f_mosru_history f)).
  set (saveD := bool_decide (newDI ≠ [])).
  intros [= <- <- <-] Hsame. cbn [dzen_news dzen_new_items] in Hsame.
  (* the histories that the second cycle loads *)
  match goal with |- context [cycle_with _ _ _ ?x] => set (s1 := x) end.
  assert (HM' : ∃ MH' : list MosruHistoryItem, mapM mosru_of_dict (load_mosru_history s1) = Some MH'
      ∧ Forall (λ item, m_url item ∈ m_url <$> MH') I).
  { unfold s1. destruct saveM eqn:EM.
    - exists MH3. split.
      + destruct saveD; cbn; apply mapM_mosru_roundtrip.
      + unfold MH3. rewrite set_in_dzen_urls, HfM.
        rewrite Forall_forall in Hnorm. apply Forall_forall. intros item Hitem.
        destruct (decide (m_url item ∈ Um)) as [Hin|Hnin].
        * unfold Um in Hin. rewrite elem_of_list_to_set in Hin.
          apply list_elem_of_fmap in Hin as (item0 & Hurl & Hin0).
          rewrite Hurl.
          apply normalized_history_url; [apply elem_of_app; by left|].
          rewrite <- Hurl. by apply Hnorm.
        * apply normalized_history_url; [|by apply Hnorm].
          apply elem_of_app. right. unfold newI.
          by apply list_elem_of_filter.
    - exists MH. split.
      + unfold load_mosru_history in *.
        destruct saveD; unfold save_dzen_history;
          cbn [mosru_history_file]; by rewrite HfileM.
      + apply orb_false_iff in EM as [EI _].
        apply bool_decide_eq_false_1 in EI. apply dec_stable in EI.
        apply filter_none_inv in EI. eapply Forall_impl; [exact EI|].
        intros item Hitem. cbn in Hitem. apply dec_stable in Hitem.
        unfold Um in Hitem. by rewrite elem_of_list_to_set in Hitem. }
  assert (HD' : ∃ DH' : list DzenHistoryItem, mapM dzen_of_dict (load_dzen_history s1) = Some DH'
      ∧ Forall (λ item, d_url item ∈ d_url <$> DH') DI).
  { unfold s1. destruct saveD eqn:ED.
    - exists (DH ++ newDI). split; [cbn; apply mapM_dzen_roundtrip|].
      apply Forall_forall. intros item Hitem. rewrite fmap_app, elem_of_app.
      right. apply list_elem_of_fmap. exists item. split; [done|].
      unfold newDI. apply list_elem_of_filter. split; [|done].
      rewrite Forall_forall in HnotD. by apply HnotD.
    - destruct (mapM_is_Some_2 dzen_of_dict _ HfileD) as [DH' HDH'].
      exists DH'. split; [by destruct saveM|].
      apply bool_decide_eq_false_1 in ED. apply dec_stable in ED.
      apply filter_none_inv in ED.
      destruct DI as [|item DI]; [constructor|].
      apply Forall_cons in ED as [ED _]. apply Forall_cons in HnotD as [Hn _].
      by destruct ED. }
  destruct HM' as (MH' & HM' & HIn), HD' as (DH' & HD' & HDn).
  unfold cycle_with. rewrite HM', HD', HG, Hsame.
  eexists _, _, _. split; [reflexivity|].
  cbn [new_mosru_news new_mosru_history new_dzen_news new_dzen_history].
  repeat split; apply filter_none.
  - apply Forall_forall. intros news Hnews Hn. apply Hn.
    rewrite elem_of_list_to_set.
    assert (Hu : n_url news ∈ m_url <$> I).
    { rewrite <- Hpar. apply list_elem_of_fmap. by exists news. }
    apply list_elem_of_fmap in Hu as (item & -> & Hitem).
    rewrite Forall_forall in HIn. by apply HIn.
  - eapply Forall_impl; [exact HIn|]. intros item Hitem Hn. apply Hn.
    by rewrite elem_of_list_to_set.
  - apply Forall_forall. intros news Hnews Hn. apply Hn.
    rewrite elem_of_list_to_set.
    assert (Hu : n_url news ∈ d_url <$> DI).
    { rewrite <- HparD. apply list_elem_of_fmap. by exists news. }
    apply list_elem_of_fmap in Hu as (item & -> & Hitem).
    rewrite Forall_forall in HDn. by apply HDn.
  - eapply Forall_impl; [exact HDn|]. intros item Hitem Hn. apply Hn.
    by rewrite elem_of_list_to_set.
Qed.

End reconciliation.

(** The first cycle finds one article on the portal and nothing on the
    aggregator, and writes the article to the history of the portal; the
    second cycle on the storage it left has nothing new. *)
Lemma reconciliation_idempotent_witness :
  ∃ c' st2 s2,
    cycle_with (H := Sample.sample_env)
      (λ _ _ st0 s0, mkFetched (Some ([], [])) [] st0 s0)
      Sample.portal_pages Sample.empty_caches
      (fetch_and_send_news (H := Sample.sample_env)
         (H0 := Sample.sample_order) Sample.portal_pages (Some [])
         Sample.empty_caches Sample.empty_storage).2
    = (Some c', st2, s2)
    ∧ new_mosru_news c' = [] ∧ new_mosru_history c' = []
    ∧ new_dzen_news c' = [] ∧ new_dzen_history c' = [].
Proof.
  eapply (reconciliation_idempotent (H := Sample.sample_env)
            Sample.sample_order Sample.portal_pages (Some [])
            Sample.empty_caches Sample.empty_storage).
  - vm_compute. reflexivity.
  - intros. reflexivity.
Defined.

End SchedulerFacts.

(** ** The cleaning of the embedding caches *)

Module EmbCacheFacts.
Import LRU Similarity EmbCache.

Section items.
Context {K V : Type} `{EqDecision K}.
Implicit Types (c : LRUCache K V) (l : list (K * V)) (k : K) (v : V).

(** Writing a key that is not in a cache with room left appends the item
    and evicts nothing. *)
Lemma setitem_fresh_items k v c :
  k ∉ keys c → (len c < capacity c)%Z →
  setitem k v c = mkLRU (capacity c) (items c ++ [(k, v)]).
Proof.
  intros Hn Hlen. unfold setitem.
  rewrite (proj2 (LRUFacts.contains_false k c) Hn).
  rewrite (LRUFacts.od_set_fresh k v (items c) Hn).
  rewrite length_app. cbn [length]. unfold len in Hlen.
  destruct (Z.of_nat _ >? capacity c)%Z eqn:E; [|done].
  apply Z.gtb_lt in E. lia.
Qed.

Lemma od_get_filter (P : K * V → Prop) `{∀ x, Decision (P x)} k v l :
  od_get k l = Some v → P (k, v) → od_get k (filter P l) = Some v.
Proof.
  intros Hget HP. induction l as [|[k' v'] l IH]; [done|].
  cbn [od_get] in Hget. destruct (decide (k = k')) as [<-|Hne].
  - injection Hget as ->. rewrite filter_cons_True by done.
    cbn [od_get]. by rewrite decide_True.
  - destruct (decide (P (k', v'))).
    + rewrite filter_cons_True by done. cbn [od_get].
      rewrite decide_False by done. by apply IH.
    + rewrite filter_cons_False by done. by apply IH.
Qed.

Lemma od_get_elem_of k v l : od_get k l = Some v → (k, v) ∈ l.
Proof.
  induction l as [|[k' v'] l IH]; [done|]. cbn [od_get].
  destruct (decide (k = k')) as [<-|Hne].
  - intros [= ->]. by left.
  - intros Hget. right. by apply IH.
Qed.

Lemma od_get_NoDup k v l : NoDup l.*1 → (k, v) ∈ l → od_get k l = Some v.
Proof.
  induction l as [|[k' v'] l IH]; [by intros _ ?%elem_of_nil|].
  rewrite fmap_cons, NoDup_cons. cbn [fst]. intros [Hk Hnd] Hin.
  cbn [od_get]. apply elem_of_cons in Hin as [[= <- <-]|Hin].
  - by rewrite decide_True.
  - rewrite decide_False; [by apply IH|].
    intros <-. apply Hk. apply list_elem_of_fmap. by exists (k, v).
Qed.

(** A loop that copies the items passing a test into a cache with room for
    all of them copies them in order, and evicts nothing. *)
Lemma foldl_setitem_filter (P : K * V → bool) l new :
  NoDup (keys new ++ l.*1) →
  (len new + Z.of_nat (length l) ≤ capacity new)%Z →
  foldl (λ new kv, if P kv then setitem kv.1 kv.2 new else new) new l
  = mkLRU (capacity new) (items new ++ filter (λ kv, P kv = true) l).
Proof.
  revert new. induction l as [|[k v] l IH]; intros new Hnd Hlen.
  - cbn [foldl]. rewrite filter_nil, app_nil_r. by destruct new.
  - cbn [foldl fst snd]. rewrite fmap_cons in Hnd. cbn [fst] in Hnd.
    cbn [length] in Hlen.
    assert (Hk : k ∉ keys new).
    { apply NoDup_app in Hnd as (_ & Hdis & _). intros Hin.
      apply (Hdis k Hin). by left. }
    destruct (P (k, v)) eqn:HP.
    + rewrite setitem_fresh_items by (done || lia).
      rewrite IH.
      * cbn [capacity items]. rewrite filter_cons_True by done.
        by rewrite <- app_assoc.
      * unfold keys. cbn [items]. rewrite fmap_app. cbn [fmap list_fmap fst].
        rewrite <- app_assoc. exact Hnd.
      * unfold len. cbn [items capacity]. rewrite length_app. cbn [length].
        unfold len in Hlen. lia.
    + rewrite IH.
      * by rewrite filter_cons_False by (rewrite HP; done).
      * apply NoDup_app in Hnd as (H1 & H2 & H3). apply NoDup_app.
        split; [done|]. split.
        -- intros x Hx Hx'. apply (H2 x Hx). by right.
        -- by apply NoDup_cons in H3 as [_ H3].
      * lia.
Qed.

End items.

Section cleanup.
Context `{Env}.

(** The new cache holds the entries of the old one that pass the test, in
    their order. *)
Lemma rebuild_filter {V} (ts : V → R) keep_urls max_age_days
    (c : LRUCache str V) :
  NoDup (keys c) → (len c ≤ MAX_CACHE_SIZE)%Z →
  rebuild ts keep_urls max_age_days c
  = mkLRU MAX_CACHE_SIZE
      (filter (λ kv, kept keep_urls max_age_days kv.1 (ts kv.2) = true)
              (items c)).
Proof.
  intros Hnd Hlen. unfold rebuild.
  rewrite (foldl_setitem_filter
             (λ kv, kept keep_urls max_age_days kv.1 (ts kv.2))); [done|done|].
  unfold len in *. cbn [items capacity empty length]. lia.
Qed.

(** The items of the two caches after [cleanup_cache]. *)
Lemma cleanup_cache_items keep_urls max_age_days st :
  wf (DZEN_EMB_CACHE st) → wf (MOSRU_EMB_CACHE st) →
  capacity (DZEN_EMB_CACHE st) = MAX_CACHE_SIZE →
  capacity (MOSRU_EMB_CACHE st) = MAX_CACHE_SIZE →
  items (DZEN_EMB_CACHE (cleanup_cache (Some keep_urls) max_age_days st).2)
  = filter (λ kv, kept keep_urls max_age_days kv.1 (timestamp kv.2) = true)
           (items (DZEN_EMB_CACHE st))
  ∧ items (MOSRU_EMB_CACHE (cleanup_cache (Some keep_urls) max_age_days st).2)
    = filter (λ kv, kept keep_urls max_age_days kv.1 (m_timestamp kv.2) = true)
             (items (MOSRU_EMB_CACHE st)).
Proof.
  intros [Hd1 Hd2] [Hm1 Hm2] Hcd Hcm. rewrite Hcd in Hd2. rewrite Hcm in Hm2.
  unfold cleanup_cache. cbn [snd DZEN_EMB_CACHE MOSRU_EMB_CACHE default].
  by rewrite !rebuild_filter.
Qed.

Lemma length_filter_bool {A} (f : A → bool) (l : list A) :
  (length (filter (λ x, f x = true) l) + length (filter (λ x, f x = false) l)
   = length l)%nat.
Proof.
  induction l as [|x l IH]; [done|]. destruct (f x) eqn:E.
  - rewrite filter_cons_True, filter_cons_False by (by rewrite ?E).
    cbn [length]. lia.
  - rewrite filter_cons_False, filter_cons_True by (by rewrite ?E).
    cbn [length]. lia.
Qed.

(** X1.  [cleanup_cache] on caches of the configured capacity removes the
    entries that are neither among the urls to keep nor younger than the
    maximal age, and nothing else: the entries that stay keep their values
    and their order, and the statistics count what was removed: the sizes
    before are those of the old caches, the sizes after are those of the
    new caches, and the numbers cleared are the numbers of the entries that
    fail the test. *)
Theorem cleanup_cache_filters keep_urls max_age_days st :
  wf (DZEN_EMB_CACHE st) → wf (MOSRU_EMB_CACHE st) →
  capacity (DZEN_EMB_CACHE st) = MAX_CACHE_SIZE →
  capacity (MOSRU_EMB_CACHE st) = MAX_CACHE_SIZE →
  let r := cleanup_cache (Some keep_urls) max_age_days st in
  items (DZEN_EMB_CACHE r.2)
  = filter (λ kv, kept keep_urls max_age_days kv.1 (timestamp kv.2) = true)
           (items (DZEN_EMB_CACHE st))
  ∧ items (MOSRU_EMB_CACHE r.2)
    = filter (λ kv, kept keep_urls max_age_days kv.1 (m_timestamp kv.2) = true)
             (items (MOSRU_EMB_CACHE st))
  ∧ wf (DZEN_EMB_CACHE r.2) ∧ wf (MOSRU_EMB_CACHE r.2)
  ∧ capacity (DZEN_EMB_CACHE r.2) = MAX_CACHE_SIZE
  ∧ capacity (MOSRU_EMB_CACHE r.2) = MAX_CACHE_SIZE
  ∧ (0 ≤ dzen_cleared r.1)%Z ∧ (0 ≤ mosru_cleared r.1)%Z
  ∧ (dzen_after r.1 + dzen_cleared r.1 = len (DZEN_EMB_CACHE st))%Z
  ∧ (mosru_after r.1 + mosru_cleared r.1 = len (MOSRU_EMB_CACHE st))%Z
  ∧ dzen_before r.1 = len (DZEN_EMB_CACHE st)
  ∧ mosru_before r.1 = len (MOSRU_EMB_CACHE st)
  ∧ dzen_after r.1 = len (DZEN_EMB_CACHE r.2)
  ∧ mosru_after r.1 = len (MOSRU_EMB_CACHE r.2)
  ∧ dzen_cleared r.1
    = Z.of_nat (length (filter (λ kv, kept keep_urls max_age_days kv.1
                                        (timestamp kv.2) = false)
                               (items (DZEN_EMB_CACHE st))))
  ∧ mosru_cleared r.1
    = Z.of_nat (length (filter (λ kv, kept keep_urls max_age_days kv.1
                                        (m_timestamp kv.2) = false)
                               (items (MOSRU_EMB_CACHE st)))).
Proof.
  intros [Hd1 Hd2] [Hm1 Hm2] Hcd Hcm r. rewrite Hcd in Hd2. rewrite Hcm in Hm2.
  unfold r, cleanup_cache.
  cbn [fst snd DZEN_EMB_CACHE MOSRU_EMB_CACHE default dzen_cleared
       mosru_cleared dzen_after mosru_after dzen_before mosru_before].
  rewrite !rebuild_filter by done. cbn [items capacity].
  unfold Datatypes.id.
  pose proof (length_filter_bool
                (λ kv, kept keep_urls max_age_days kv.1 (timestamp kv.2))
                (items (DZEN_EMB_CACHE st))) as Hcd'.
  pose proof (length_filter_bool
                (λ kv, kept keep_urls max_age_days kv.1 (m_timestamp kv.2))
                (items (MOSRU_EMB_CACHE st))) as Hcm'.
  cbv beta in Hcd', Hcm'.
  assert (Hwf : ∀ {V} (P : str * V → Prop) `{∀ x, Decision (P x)}
                  (c : LRUCache str V),
             NoDup (keys c) → (len c ≤ MAX_CACHE_SIZE)%Z →
             wf (mkLRU MAX_CACHE_SIZE (filter P (items c)))).
  { intros V P ? c Hnd Hle. split.
    - unfold keys. cbn [items].
      apply (sublist_NoDup _ (items c).*1); [done|].
      apply fmap_sublist, sublist_filter.
    - cbn [capacity]. unfold len in *. cbn [items].
      pose proof (length_filter P (items c)). lia. }
  unfold len in *. cbn [items].
  split; [done|]. split; [done|].
  split; [by apply Hwf|]. split; [by apply Hwf|].
  split; [done|]. split; [done|].
  split; [lia|]. split; [lia|]. split; [lia|]. split; [lia|].
  split; [done|]. split; [done|]. split; [done|]. split; [done|].
  split; lia.
Qed.

End cleanup.

Lemma aged_caches_wf :
  wf (DZEN_EMB_CACHE Sample.aged_caches)
  ∧ wf (MOSRU_EMB_CACHE Sample.aged_caches).
Proof.
  split; (split; [unfold keys; apply (bool_decide_unpack _); vm_compute; exact I
                 |vm_compute; discriminate]).
Qed.

Lemma cleanup_cache_filters_witness :
  items (DZEN_EMB_CACHE
           (cleanup_cache (H := Sample.sample_env) (Some ∅) 3
                          Sample.aged_caches).2)
  = filter (λ kv, kept (H := Sample.sample_env) ∅ 3 kv.1 (timestamp kv.2)
                  = true)
           (items (DZEN_EMB_CACHE Sample.aged_caches)).
Proof.
  apply (cleanup_cache_filters (H := Sample.sample_env) ∅ 3 Sample.aged_caches).
  - apply aged_caches_wf.
  - apply aged_caches_wf.
  - reflexivity.
  - reflexivity.
Defined.

End EmbCacheFacts.

(** ** Housekeeping *)

Module HousekeepingFacts.
Import LRU Similarity Storage EmbCache Housekeeping.

Lemma keep_value_str (v : option json) (url : str) (l : list str) :
  v = Some (JStr url) → url ≠ [] → keep_value v = Some l → url ∈ l.
Proof.
  intros -> Hne. cbn [keep_value]. rewrite decide_False by done.
  intros [= <-]. by left.
Qed.

Lemma mapM_elem_of {A B} (f : A → option (list B)) (l : list A)
    (k : list (list B)) x y ys :
  mapM f l = Some k → x ∈ l → f x = Some ys → y ∈ ys → y ∈ concat k.
Proof.
  intros Hm Hx Hf Hy. apply mapM_Some in Hm.
  apply list_elem_of_lookup in Hx as [i Hi].
  destruct (Forall2_lookup_l _ _ _ _ _ Hm Hi) as (ys' & Hk & Hys).
  rewrite Hf in Hys. injection Hys as <-.
  apply list_elem_of_In, in_concat. exists ys.
  split; apply list_elem_of_In; [|done].
  by apply list_elem_of_lookup_2 in Hk.
Qed.

(** The urls that the histories name are among the urls to keep. *)
Lemma history_urls_elem_of mosru_history dzen_history keep_urls
    (item : gmap string json) (key : string) (url : str) :
  history_urls mosru_history dzen_history = Some keep_urls →
  (item ∈ mosru_history ∧ key = "url"%string)
  ∨ (item ∈ dzen_history
     ∧ (key = "url"%string ∨ key = "mosru_source_url"%string)) →
  item !! key = Some (JStr url) → url ≠ [] →
  url ∈ keep_urls.
Proof.
  unfold history_urls. intros Hh Hin Hkey Hne.
  destruct (mapM _ mosru_history) as [m|] eqn:Hm; [|done].
  destruct (mapM _ dzen_history) as [d|] eqn:Hd; [|done].
  cbn in Hh. injection Hh as <-.
  rewrite elem_of_list_to_set, elem_of_app.
  destruct Hin as [[Hin ->]|[Hin Hk]].
  - left.
    apply (mapM_elem_of _ _ _ item url
             (if decide (url = []) then [] else [url]) Hm Hin).
    + by rewrite Hkey.
    + rewrite decide_False by done. by left.
  - right.
    destruct (keep_value (item !! "url"%string)) as [a|] eqn:Ha.
    2:{ apply mapM_Some in Hd.
        apply list_elem_of_lookup in Hin as [i Hi].
        destruct (Forall2_lookup_l _ _ _ _ _ Hd Hi) as (ys & _ & Hys).
        by rewrite Ha in Hys. }
    destruct (keep_value (item !! "mosru_source_url"%string)) as [b|] eqn:Hb.
    2:{ apply mapM_Some in Hd.
        apply list_elem_of_lookup in Hin as [i Hi].
        destruct (Forall2_lookup_l _ _ _ _ _ Hd Hi) as (ys & _ & Hys).
        by rewrite Ha, Hb in Hys. }
    apply (mapM_elem_of _ _ _ item url (a ++ b) Hd Hin).
    + by rewrite Ha, Hb.
    + apply elem_of_app. destruct Hk as [->| ->].
      * left. by apply (keep_value_str _ url a Hkey Hne).
      * right. by apply (keep_value_str _ url b Hkey Hne).
Qed.

Section caches.
Context `{Env}.

(** X2.  [cleanup_embeddings_cache] never drops the embedding of a url that
    the histories name: an entry of either cache whose key is the url, or
    the mos.ru source url, of a record of the stored histories is still
    there afterwards, with the same value, however old it is. *)
Theorem cleanup_embeddings_cache_keeps_history last_cache_cleanup st s
    (item : gmap string json) (key : string) (url : str) :
  wf (DZEN_EMB_CACHE st) → wf (MOSRU_EMB_CACHE st) →
  capacity (DZEN_EMB_CACHE st) = MAX_CACHE_SIZE →
  capacity (MOSRU_EMB_CACHE st) = MAX_CACHE_SIZE →
  (item ∈ load_mosru_history s ∧ key = "url"%string)
  ∨ (item ∈ load_dzen_history s
     ∧ (key = "url"%string ∨ key = "mosru_source_url"%string)) →
  item !! key = Some (JStr url) → url ≠ [] →
  let st' := (cleanup_embeddings_cache last_cache_cleanup st s).2 in
  (∀ e, od_get url (items (DZEN_EMB_CACHE st)) = Some e →
        od_get url (items (DZEN_EMB_CACHE st')) = Some e)
  ∧ (∀ e, od_get url (items (MOSRU_EMB_CACHE st)) = Some e →
          od_get url (items (MOSRU_EMB_CACHE st')) = Some e).
Proof.
  intros Hd Hm Hcd Hcm Hin Hkey Hne st'. unfold st', cleanup_embeddings_cache.
  destruct (match last_cache_cleanup with Some _ => _ | None => _ end);
    [|done].
  destruct (history_urls _ _) as [keep_urls|] eqn:Hh; [|done].
  pose proof (history_urls_elem_of _ _ _ _ _ _ Hh Hin Hkey Hne) as Hurl.
  cbn [snd].
  destruct (EmbCacheFacts.cleanup_cache_items keep_urls 3 st Hd Hm Hcd Hcm)
    as [-> ->].
  split; intros e He; apply EmbCacheFacts.od_get_filter; try done;
    unfold kept; cbn [fst]; by rewrite bool_decide_true.
Qed.

Lemma od_get_filter_None {V} (P : str * V → Prop) `{∀ x, Decision (P x)}
    (k : str) (v : V) (l : list (str * V)) :
  od_get k l = Some v → od_get k (filter P l) = None → ¬ P (k, v).
Proof.
  intros Hget Hnone HP.
  by rewrite (EmbCacheFacts.od_get_filter P k v l Hget HP) in Hnone.
Qed.

(** X3.  What [cleanup_embeddings_cache] removes: when an entry of the
    aggregator cache is gone afterwards, the cleaning was due (no cleaning
    before, or the last one more than 24 hours ago), the time of the last
    cleaning is now, and the entry was at least three days old. *)
Theorem cleanup_embeddings_cache_removes_old last_cache_cleanup st s url e :
  wf (DZEN_EMB_CACHE st) → wf (MOSRU_EMB_CACHE st) →
  capacity (DZEN_EMB_CACHE st) = MAX_CACHE_SIZE →
  capacity (MOSRU_EMB_CACHE st) = MAX_CACHE_SIZE →
  od_get url (items (DZEN_EMB_CACHE st)) = Some e →
  od_get url
    (items (DZEN_EMB_CACHE (cleanup_embeddings_cache last_cache_cleanup st s).2))
  = None →
  (∀ last, last_cache_cleanup = Some last →
     (24 * 3600 < timestamp_now - last)%R)
  ∧ (cleanup_embeddings_cache last_cache_cleanup st s).1 = Some timestamp_now
  ∧ (3 * 24 * 3600 <= timestamp_now - timestamp e)%R.
Proof.
  intros Hd Hm Hcd Hcm Hget. unfold cleanup_embeddings_cache.
  destruct last_cache_cleanup as [last|].
  - destruct (Rlt_dec _ _) as [Hlt|Hge].
    + destruct (history_urls _ _) as [keep_urls|] eqn:Hh;
        [|cbn [snd]; congruence].
      cbn [fst snd].
      destruct (EmbCacheFacts.cleanup_cache_items keep_urls 3 st Hd Hm Hcd Hcm)
        as [-> _].
      intros Hnone. apply (od_get_filter_None _ _ _ _ Hget) in Hnone.
      split; [by intros ? [= <-]|]. split; [done|].
      unfold kept in Hnone. cbn [fst snd] in Hnone.
      destruct (bool_decide _); [done|]. cbn [orb] in Hnone.
      destruct (Rlt_dec _ _) as [Hl|Hl]; [done|].
      apply Rnot_lt_le in Hl. rewrite !mult_IZR in Hl. lra.
    + cbn [snd]. congruence.
  - destruct (history_urls _ _) as [keep_urls|] eqn:Hh;
      [|cbn [snd]; congruence].
    cbn [fst snd].
    destruct (EmbCacheFacts.cleanup_cache_items keep_urls 3 st Hd Hm Hcd Hcm)
      as [-> _].
    intros Hnone. apply (od_get_filter_None _ _ _ _ Hget) in Hnone.
    split; [done|]. split; [done|].
    unfold kept in Hnone. cbn [fst snd] in Hnone.
    destruct (bool_decide _); [done|]. cbn [orb] in Hnone.
    destruct (Rlt_dec _ _) as [Hl|Hl]; [done|].
    apply Rnot_lt_le in Hl. rewrite !mult_IZR in Hl. lra.
Qed.

End caches.

(** X4.  [clear_analyzed_urls_cache] does nothing to a set of at most
    [MAX_ANALYZED_URLS] urls; a larger set is cut to exactly half of
    [MAX_ANALYZED_URLS] of its urls, and the file is written with the urls
    that are left.  The age given as argument plays no part, and the
    histories are not touched. *)
Theorem clear_analyzed_urls_cache_halves (O : SetOrder) max_age_days s :
  let s' := clear_analyzed_urls_cache max_age_days s in
  analyzed_urls s' ⊆ analyzed_urls s
  ∧ ((Z.of_nat (size (analyzed_urls s)) ≤ MAX_ANALYZED_URLS)%Z → s' = s)
  ∧ ((MAX_ANALYZED_URLS < Z.of_nat (size (analyzed_urls s)))%Z →
     Z.of_nat (size (analyzed_urls s')) = (MAX_ANALYZED_URLS / 2)%Z
     ∧ analyzed_urls_file s' = set_list (analyzed_urls s'))
  ∧ mosru_history_file s' = mosru_history_file s
  ∧ dzen_history_file s' = dzen_history_file s
  ∧ s' = clear_analyzed_urls_cache 0 s.
Proof.
  intros s'. unfold s', clear_analyzed_urls_cache.
  destruct (_ >? _)%Z eqn:E.
  - apply Z.gtb_lt in E. cbn [_save_analyzed_urls analyzed_urls
      analyzed_urls_file mosru_history_file dzen_history_file].
    split.
    { intros x. rewrite elem_of_list_to_set. unfold last_n. intros Hx.
      pose proof (elem_of_sublist _ _ _ Hx (sublist_drop _ _)) as Hx'.
      rewrite <- elem_of_elements.
      by rewrite <- (set_list_perm (analyzed_urls s)). }
    split; [lia|]. split; [|done]. intros _. split; [|done].
    rewrite size_list_to_set.
    + unfold last_n. rewrite length_drop, StorageFacts.length_set_list.
      unfold MAX_ANALYZED_URLS in *.
      change (5000 / 2)%Z with 2500%Z. lia.
    + apply (sublist_NoDup _ (set_list (analyzed_urls s)));
        [apply StorageFacts.NoDup_set_list|apply sublist_drop].
  - rewrite Z.gtb_ltb in E. apply Z.ltb_ge in E.
    split; [done|]. split; [done|]. split; [lia|done].
Qed.

Lemma cleanup_embeddings_cache_keeps_history_witness :
  od_get (PyStr.u "https://www.mos.ru/news/item/1/")
    (items (MOSRU_EMB_CACHE
              (cleanup_embeddings_cache (H := Sample.sample_env) None
                 Sample.aged_caches Sample.claimed_storage).2))
  = Some (mkMosruEntry (mkEmbs [1%R; 0%R] [1%R; 0%R] [0%R; 0%R])
                       (-300000)%R).
Proof.
  apply (proj2 (cleanup_embeddings_cache_keeps_history
                  (H := Sample.sample_env) None Sample.aged_caches
                  Sample.claimed_storage Sample.claim_record
                  "mosru_source_url"%string
                  (PyStr.u "https://www.mos.ru/news/item/1/")
                  (proj1 EmbCacheFacts.aged_caches_wf)
                  (proj2 EmbCacheFacts.aged_caches_wf) eq_refl eq_refl
                  (or_intror (conj (list_elem_of_here _ _)
                                   (or_intror eq_refl)))
                  ltac:(vm_compute; reflexivity)
                  ltac:(intros Heq; vm_compute in Heq; discriminate))).
  apply EmbCacheFacts.od_get_NoDup; [apply EmbCacheFacts.aged_caches_wf|].
  by left.
Defined.

Lemma cleanup_embeddings_cache_removes_old_witness :
  (cleanup_embeddings_cache (H := Sample.sample_env) None Sample.aged_caches
     Sample.empty_storage).1 = Some 0%R.
Proof.
  refine (proj1 (proj2 (cleanup_embeddings_cache_removes_old
                          (H := Sample.sample_env) None Sample.aged_caches
                          Sample.empty_storage (PyStr.u "https://dzen.ru/a/1")
                          (mkDzenEntry [1%R; 0%R] (-300000)%R)
                          (proj1 EmbCacheFacts.aged_caches_wf)
                          (proj2 EmbCacheFacts.aged_caches_wf) eq_refl eq_refl
                          _ _))).
  - apply EmbCacheFacts.od_get_NoDup; [apply EmbCacheFacts.aged_caches_wf|].
    by left.
  - unfold cleanup_embeddings_cache.
    change (history_urls _ _) with (Some (∅ : gset str)). cbn [snd].
    unfold cleanup_cache. cbn [snd DZEN_EMB_CACHE default].
    rewrite EmbCacheFacts.rebuild_filter;
      [|apply EmbCacheFacts.aged_caches_wf|vm_compute; discriminate].
    cbn [items Sample.aged_caches DZEN_EMB_CACHE].
    assert (Hold : ∀ url, kept (H := Sample.sample_env) ∅ 3 url (-300000) = false).
    { intros url. unfold kept. rewrite bool_decide_false by set_solver.
      cbn [orb timestamp_now Sample.sample_env].
      destruct (Rlt_dec _ _) as [Hlt|]; [|done].
      rewrite !mult_IZR in Hlt. lra. }
    rewrite !filter_cons_False
      by (cbn [fst snd timestamp]; rewrite Hold; discriminate).
    rewrite filter_cons_True, filter_nil.
    + cbn [od_get]. rewrite decide_False; [done|].
      intros Heq. vm_compute in Heq. discriminate.
    + cbn [fst snd timestamp]. unfold kept.
      rewrite bool_decide_false by set_solver.
      cbn [orb timestamp_now Sample.sample_env].
      destruct (Rlt_dec _ _) as [|Hn]; [done|].
      exfalso. apply Hn. rewrite !mult_IZR. lra.
Defined.

End HousekeepingFacts.

(** ** The use of the embedding caches *)

Module EmbeddingFacts.
Import LRU PyStr Similarity Compat.

Section items.
Context {K V : Type} `{EqDecision K}.
Implicit Types (c : LRUCache K V) (l : list (K * V)) (k : K) (v : V).

Lemma eta c : mkLRU (capacity c) (items c) = c.
Proof. by destruct c. Qed.

(** Writing a key that is not in the cache, at the level of the items: the
    item is appended, and the oldest item goes when the cache overflows. *)
Lemma items_setitem_fresh k v c :
  k ∉ keys c →
  items (setitem k v c)
  = if (len c + 1 >? capacity c)%Z
    then tail (items c ++ [(k, v)]) else items c ++ [(k, v)].
Proof.
  intros Hn. unfold setitem.
  rewrite (proj2 (LRUFacts.contains_false k c) Hn).
  rewrite (LRUFacts.od_set_fresh k v (items c) Hn).
  rewrite length_app. cbn [length]. unfold len.
  replace (Z.of_nat (length (items c) + 1)) with (Z.of_nat (length (items c)) + 1)%Z
    by lia.
  destruct (_ >? _)%Z; [|done].
  destruct (items c) as [|[k0 v0] l0]; cbn [app tail].
  - cbn [od_del items]. by rewrite decide_True.
  - cbn [items]. by rewrite LRUFacts.od_del_head.
Qed.

Lemma od_get_app_fresh k v l : k ∉ l.*1 → od_get k (l ++ [(k, v)]) = Some v.
Proof.
  induction l as [|[k' v'] l IH]; intros Hn.
  - cbn. by rewrite decide_True.
  - rewrite fmap_cons, not_elem_of_cons in Hn. cbn [fst] in Hn.
    destruct Hn as [Hne Hn]. cbn [app od_get].
    rewrite decide_False by done. by apply IH.
Qed.

Lemma od_del_app_fresh k v l : k ∉ l.*1 → od_del k (l ++ [(k, v)]) = l.
Proof.
  induction l as [|[k' v'] l IH]; intros Hn.
  - cbn. by rewrite decide_True.
  - rewrite fmap_cons, not_elem_of_cons in Hn. cbn [fst] in Hn.
    destruct Hn as [Hne Hn]. cbn [app od_del].
    rewrite decide_False by done. f_equal. by apply IH.
Qed.

(** After a key has been written to a cache of capacity 1 or more, it is
    in the cache with the value written. *)
Lemma od_get_setitem_fresh k v c :
  k ∉ keys c → (1 ≤ capacity c)%Z →
  od_get k (items (setitem k v c)) = Some v.
Proof.
  intros Hn Hcap. rewrite items_setitem_fresh by done.
  destruct (_ >? _)%Z eqn:E; [|by apply od_get_app_fresh].
  apply Z.gtb_lt in E.
  destruct (items c) as [|[k0 v0] l0] eqn:Hl.
  - unfold len in E. rewrite Hl in E. cbn [length] in E. lia.
  - cbn [app tail]. apply od_get_app_fresh.
    unfold keys in Hn. rewrite Hl, fmap_cons, not_elem_of_cons in Hn.
    by destruct Hn.
Qed.

Lemma wf_setitem k v c : wf c → wf (setitem k v c).
Proof.
  intros Hwf. split.
  - destruct (decide (k ∈ keys c)) as [Hin|Hn].
    + destruct (LRUFacts.setitem_present k v c Hwf Hin)
        as (ks1 & ks2 & Hk & ->).
      destruct Hwf as [Hnd _]. rewrite Hk in Hnd.
      apply NoDup_app in Hnd as (H1 & H2 & H3).
      apply NoDup_cons in H3 as [H3 H4].
      apply NoDup_app. split; [done|]. split.
      * intros x Hx [Hx'| ->%list_elem_of_singleton]%elem_of_app.
        -- apply (H2 x Hx). by right.
        -- apply (H2 k Hx). by left.
      * apply NoDup_app. split; [done|]. split.
        -- by intros x Hx ->%list_elem_of_singleton.
        -- apply NoDup_singleton.
    + apply LRUFacts.NoDup_setitem_fresh; [by destruct Hwf|done].
  - rewrite LRUFacts.capacity_setitem. apply LRUFacts.len_setitem.
    by destruct Hwf.
Qed.

Lemma NoDup_touched k (ks : list K) : NoDup ks → NoDup (touched k ks).
Proof.
  intros Hnd. unfold touched. apply NoDup_app. split.
  - by apply NoDup_filter.
  - split; [|apply NoDup_singleton].
    intros x [Hx _]%list_elem_of_filter ->%list_elem_of_singleton. done.
Qed.

Lemma capacity_getitem k c : capacity (getitem k c).2 = capacity c.
Proof. unfold getitem. cbn [snd]. by destruct (LRU.contains k c). Qed.

Lemma wf_getitem k c : wf c → wf (getitem k c).2.
Proof.
  intros [Hnd Hlen]. split.
  - destruct (decide (k ∈ keys c)) as [Hin|Hn].
    + rewrite LRUFacts.getitem_touched by done. by apply NoDup_touched.
    + unfold getitem. by rewrite (proj2 (LRUFacts.contains_false k c) Hn).
  - by rewrite LRUFacts.len_getitem, capacity_getitem.
Qed.

(** Reading a key that is in the cache gives its value and moves the item,
    as it is, to the newest position. *)
Lemma getitem_hit k v c :
  NoDup (keys c) → od_get k (items c) = Some v →
  getitem k c = (Some v, mkLRU (capacity c) (od_del k (items c) ++ [(k, v)]))
  ∧ od_get k (od_del k (items c) ++ [(k, v)]) = Some v.
Proof.
  intros Hnd Hget.
  assert (Hin : k ∈ keys c).
  { apply EmbCacheFacts.od_get_elem_of in Hget. unfold keys.
    apply list_elem_of_fmap. by exists (k, v). }
  destruct (LRUFacts.od_del_split k (items c) Hnd Hin)
    as (l1 & l2 & v0 & Hl & Hdel & Hget0 & H1 & H2).
  assert (v0 = v) as -> by congruence.
  assert (Hfresh : k ∉ (od_del k (items c)).*1).
  { rewrite Hdel, fmap_app, elem_of_app. tauto. }
  split; [|by apply od_get_app_fresh].
  unfold getitem. rewrite (proj2 (LRUFacts.contains_true k c) Hin).
  cbn [items capacity]. unfold move_to_end. rewrite Hget.
  by rewrite od_get_app_fresh.
Qed.

(** Deleting the key that was written last to a cache with room left gives
    the cache back. *)
Lemma delitem_setitem_fresh k v c :
  k ∉ keys c → (len c < capacity c)%Z →
  delitem k (setitem k v c) = Some c.
Proof.
  intros Hn Hlen. rewrite EmbCacheFacts.setitem_fresh_items by done.
  unfold delitem. rewrite (proj2 (LRUFacts.contains_true k _)).
  - cbn [capacity items]. rewrite od_del_app_fresh by done. by rewrite eta.
  - unfold keys. cbn [items]. rewrite fmap_app, elem_of_app. right. by left.
Qed.

Lemma delitem_absent k c : k ∉ keys c → delitem k c = None.
Proof.
  intros Hn. unfold delitem. by rewrite (proj2 (LRUFacts.contains_false k c) Hn).
Qed.

End items.

Section embeddings.
Context `{Env}.

(** X5.  The embedding of an aggregator title is cached under the url
    alone: once [get_dzen_embedding] has answered for a url (in a cache of
    capacity 1 or more), the next call for this url gives the same
    embedding whatever title it is given, without a call of the model, and
    the entry, with the time at which it was written, is the same after
    the hit; the cache stays a dictionary within its capacity and the
    mos.ru cache is not touched. *)
Theorem get_dzen_embedding_cached url title title' st e st1 :
  wf (DZEN_EMB_CACHE st) → (1 ≤ capacity (DZEN_EMB_CACHE st))%Z →
  get_dzen_embedding url title st = (Some e, st1) →
  (get_dzen_embedding url title' st1).1 = Some e
  ∧ wf (DZEN_EMB_CACHE st1)
  ∧ MOSRU_EMB_CACHE st1 = MOSRU_EMB_CACHE st
  ∧ ∃ entry,
      od_get url (items (DZEN_EMB_CACHE st1)) = Some entry
      ∧ embedding entry = e
      ∧ od_get url
          (items (DZEN_EMB_CACHE (get_dzen_embedding url title' st1).2))
        = Some entry.
Proof.
  intros Hwf Hcap Hcall.
  assert (Hst1 : wf (DZEN_EMB_CACHE st1)
                 ∧ MOSRU_EMB_CACHE st1 = MOSRU_EMB_CACHE st
                 ∧ ∃ entry, od_get url (items (DZEN_EMB_CACHE st1)) = Some entry
                            ∧ embedding entry = e).
  { unfold get_dzen_embedding in Hcall.
    destruct (LRU.contains url (DZEN_EMB_CACHE st)) eqn:Hc.
    - apply LRUFacts.contains_true in Hc.
      destruct (LRUFacts.od_get_is_Some url _ Hc) as [entry Hentry].
      destruct (getitem_hit url entry _ (proj1 Hwf) Hentry) as [Hg Hget].
      pose proof (wf_getitem url _ Hwf) as Hwf'.
      rewrite Hg in Hcall, Hwf'. cbn [fmap option_fmap option_map] in Hcall.
      injection Hcall as <- <-. cbn [DZEN_EMB_CACHE MOSRU_EMB_CACHE items].
      split; [done|]. split; [done|]. by exists entry.
    - apply LRUFacts.contains_false in Hc.
      destruct (embed title) as [emb|]; [|done].
      injection Hcall as <- <-. cbn [DZEN_EMB_CACHE MOSRU_EMB_CACHE].
      split; [by apply wf_setitem|]. split; [done|].
      exists (mkDzenEntry emb timestamp_now). split; [|done].
      by apply od_get_setitem_fresh. }
  destruct Hst1 as (Hwf1 & Hm & entry & Hentry & He).
  destruct (getitem_hit url entry _ (proj1 Hwf1) Hentry) as [Hg Hget].
  assert (Hc : LRU.contains url (DZEN_EMB_CACHE st1) = true).
  { apply LRUFacts.contains_true. unfold keys. apply list_elem_of_fmap.
    exists (url, entry). split; [done|].
    by apply EmbCacheFacts.od_get_elem_of. }
  unfold get_dzen_embedding. rewrite Hc, Hg.
  cbn [fst snd fmap option_fmap option_map DZEN_EMB_CACHE items].
  split; [by rewrite He|]. split; [done|]. split; [done|]. by exists entry.
Qed.

Lemma bind_eq {A B} (m : M A) (f : A → M B) (st : caches) :
  (m ≫= f) st
  = match m st with
    | (Some a, st') => f a st'
    | (None, st') => (None, st')
    end.
Proof. done. Qed.

Lemma get_dzen_embedding_miss url title st :
  url ∉ keys (DZEN_EMB_CACHE st) →
  get_dzen_embedding url title st
  = match embed title with
    | Some emb =>
        (Some emb,
         mkCaches (setitem url (mkDzenEntry emb timestamp_now)
                           (DZEN_EMB_CACHE st))
                  (MOSRU_EMB_CACHE st))
    | None => (None, st)
    end.
Proof.
  intros Hn. unfold get_dzen_embedding.
  by rewrite (proj2 (LRUFacts.contains_false _ _) Hn).
Qed.

Lemma get_mosru_embeddings_miss item st :
  m_url item ∉ keys (MOSRU_EMB_CACHE st) →
  get_mosru_embeddings item st
  = match compute_mosru_embeddings item with
    | Some embs =>
        (Some embs,
         mkCaches (DZEN_EMB_CACHE st)
                  (setitem (m_url item) (mkMosruEntry embs timestamp_now)
                           (MOSRU_EMB_CACHE st)))
    | None => (None, st)
    end.
Proof.
  intros Hn. unfold get_mosru_embeddings.
  by rewrite (proj2 (LRUFacts.contains_false _ _) Hn).
Qed.

(** The caches after a comparison: the embeddings that were not there have
    been written, in this order, until a step raised. *)
Lemma sbert_state dzen_url dzen_title item st :
  dzen_url ∉ keys (DZEN_EMB_CACHE st) →
  m_url item ∉ keys (MOSRU_EMB_CACHE st) →
  (embed dzen_title = None
   ∧ (calculate_similarity_sbert dzen_url dzen_title item st).2 = st)
  ∨ ∃ emb,
      embed dzen_title = Some emb
      ∧ ((calculate_similarity_sbert dzen_url dzen_title item st).2
         = mkCaches (setitem dzen_url (mkDzenEntry emb timestamp_now)
                             (DZEN_EMB_CACHE st))
                    (MOSRU_EMB_CACHE st)
         ∨ ∃ e2,
             (calculate_similarity_sbert dzen_url dzen_title item st).2
             = mkCaches (setitem dzen_url (mkDzenEntry emb timestamp_now)
                                 (DZEN_EMB_CACHE st))
                        (setitem (m_url item) e2 (MOSRU_EMB_CACHE st))).
Proof.
  intros Hd Hm. unfold calculate_similarity_sbert, sbert_score.
  rewrite bind_eq, (get_dzen_embedding_miss _ _ _ Hd).
  destruct (embed dzen_title) as [emb|] eqn:Hemb; [|by left].
  right. exists emb. split; [done|].
  rewrite bind_eq, get_mosru_embeddings_miss by done.
  cbn [MOSRU_EMB_CACHE DZEN_EMB_CACHE].
  destruct (compute_mosru_embeddings item) as [embs|]; [|by left].
  right. exists (mkMosruEntry embs timestamp_now).
  rewrite bind_eq. unfold lift at 1.
  destruct (cosine emb (emb_title embs)); [|done].
  rewrite bind_eq. unfold lift at 1.
  by destruct (cosine emb (emb_title_snippet embs)).
Qed.

(** X6.  [calculate_similarity] leaves the caches as it found them when
    they have room for one more entry: the two embeddings that it writes
    under its temporary keys are deleted again, whether the comparison went
    through or raised. *)
Theorem calculate_similarity_restores `{PyHash} text1 text2 snippet2 st :
  (len (DZEN_EMB_CACHE st) < capacity (DZEN_EMB_CACHE st))%Z →
  (len (MOSRU_EMB_CACHE st) < capacity (MOSRU_EMB_CACHE st))%Z →
  Forall (λ k, k ≠ u "temp_similarity_" ++ hash_text text1)
         (keys (DZEN_EMB_CACHE st)) →
  Forall (λ k, k ≠ u "temp_url_" ++ hash_text text2)
         (keys (MOSRU_EMB_CACHE st)) →
  (calculate_similarity text1 text2 snippet2 st).2 = st
  ∧ (is_similar_title text1 text2 None snippet2 st).2 = st.
Proof.
  intros Hd Hm Hkd Hkm.
  assert (Hnd : u "temp_similarity_" ++ hash_text text1
                ∉ keys (DZEN_EMB_CACHE st)).
  { intros Hin. rewrite Forall_forall in Hkd. by apply (Hkd _ Hin). }
  assert (Hnm : u "temp_url_" ++ hash_text text2
                ∉ keys (MOSRU_EMB_CACHE st)).
  { intros Hin. rewrite Forall_forall in Hkm. by apply (Hkm _ Hin). }
  assert (Hc : (calculate_similarity text1 text2 snippet2 st).2 = st).
  { unfold calculate_similarity.
    pose proof (sbert_state (u "temp_similarity_" ++ hash_text text1) text1
                  (SimpleItem text2 (default [] snippet2)) st Hnd Hnm) as Hs.
    destruct (calculate_similarity_sbert _ _ _ _) as [score st1].
    cbn [snd] in *. unfold drop_temp, drop_mosru.
    change (m_url (SimpleItem text2 (default [] snippet2)))
      with (u "temp_url_" ++ hash_text text2) in *.
    destruct Hs as [[_ ->]|(e1 & _ & [->|(e2 & ->)])].
    - rewrite (delitem_absent _ _ Hnd), (delitem_absent _ _ Hnm). done.
    - cbn [DZEN_EMB_CACHE MOSRU_EMB_CACHE].
      rewrite (delitem_setitem_fresh _ _ _ Hnd Hd).
      cbn [DZEN_EMB_CACHE MOSRU_EMB_CACHE].
      rewrite (delitem_absent _ _ Hnm). by destruct st.
    - cbn [DZEN_EMB_CACHE MOSRU_EMB_CACHE].
      rewrite (delitem_setitem_fresh _ _ _ Hnd Hd).
      cbn [DZEN_EMB_CACHE MOSRU_EMB_CACHE].
      rewrite (delitem_setitem_fresh _ _ _ Hnm Hm). by destruct st. }
  split; [done|]. unfold is_similar_title.
  destruct (calculate_similarity _ _ _ _) as [score st1]. exact Hc.
Qed.

(** X7.  On a full cache [calculate_similarity] is not neutral: when the
    aggregator cache holds as many entries as its capacity and the model
    answers for the first text, the oldest entry of the cache is gone
    after the call, although the temporary entry that pushed it out has
    been deleted again. *)
Theorem calculate_similarity_evicts `{PyHash} text1 text2 snippet2 st emb :
  NoDup (keys (DZEN_EMB_CACHE st)) →
  len (DZEN_EMB_CACHE st) = capacity (DZEN_EMB_CACHE st) →
  (1 ≤ capacity (DZEN_EMB_CACHE st))%Z →
  Forall (λ k, k ≠ u "temp_similarity_" ++ hash_text text1)
         (keys (DZEN_EMB_CACHE st)) →
  Forall (λ k, k ≠ u "temp_url_" ++ hash_text text2)
         (keys (MOSRU_EMB_CACHE st)) →
  embed text1 = Some emb →
  DZEN_EMB_CACHE (calculate_similarity text1 text2 snippet2 st).2
  = mkLRU (capacity (DZEN_EMB_CACHE st)) (tail (items (DZEN_EMB_CACHE st))).
Proof.
  intros Hnodup Hfull Hcap Hkd Hkm Hemb.
  assert (Hnd : u "temp_similarity_" ++ hash_text text1
                ∉ keys (DZEN_EMB_CACHE st)).
  { intros Hin. rewrite Forall_forall in Hkd. by apply (Hkd _ Hin). }
  assert (Hnm : u "temp_url_" ++ hash_text text2
                ∉ keys (MOSRU_EMB_CACHE st)).
  { intros Hin. rewrite Forall_forall in Hkm. by apply (Hkm _ Hin). }
  assert (Hset : ∀ e1,
            delitem (u "temp_similarity_" ++ hash_text text1)
              (setitem (u "temp_similarity_" ++ hash_text text1) e1
                       (DZEN_EMB_CACHE st))
            = Some (mkLRU (capacity (DZEN_EMB_CACHE st))
                          (tail (items (DZEN_EMB_CACHE st))))).
  { intros e1.
    pose proof (items_setitem_fresh _ e1 _ Hnd) as Hitems.
    destruct (_ >? _)%Z eqn:E; [|rewrite Z.gtb_ltb in E; apply Z.ltb_ge in E; lia].
    pose proof (LRUFacts.capacity_setitem
                  (u "temp_similarity_" ++ hash_text text1) e1
                  (DZEN_EMB_CACHE st)) as Hc.
    destruct (setitem _ e1 (DZEN_EMB_CACHE st)) as [cap its].
    cbn [items capacity] in Hitems, Hc. subst cap its.
    destruct (items (DZEN_EMB_CACHE st)) as [|[k0 v0] l0] eqn:Hl.
    { unfold len in Hfull. rewrite Hl in Hfull. cbn [length] in Hfull. lia. }
    cbn [app tail]. unfold delitem.
    assert (Hfresh : u "temp_similarity_" ++ hash_text text1 ∉ l0.*1).
    { unfold keys in Hnd. rewrite Hl, fmap_cons, not_elem_of_cons in Hnd.
      by destruct Hnd. }
    rewrite (proj2 (LRUFacts.contains_true _ _)).
    - cbn [capacity items]. by rewrite od_del_app_fresh.
    - unfold keys. cbn [items]. rewrite fmap_app, elem_of_app. right. by left. }
  unfold calculate_similarity.
  pose proof (sbert_state (u "temp_similarity_" ++ hash_text text1) text1
                (SimpleItem text2 (default [] snippet2)) st Hnd Hnm) as Hs.
  destruct (calculate_similarity_sbert _ _ _ _) as [score st1].
  cbn [snd] in *. unfold drop_temp, drop_mosru.
  destruct Hs as [[Hnone _]|(e1 & _ & [->|(e2 & ->)])]; [congruence| |].
  - cbn [DZEN_EMB_CACHE MOSRU_EMB_CACHE]. rewrite Hset.
    cbn [DZEN_EMB_CACHE MOSRU_EMB_CACHE].
    by destruct (delitem _ _).
  - cbn [DZEN_EMB_CACHE MOSRU_EMB_CACHE]. rewrite Hset.
    cbn [DZEN_EMB_CACHE MOSRU_EMB_CACHE].
    by destruct (delitem _ _).
Qed.

End embeddings.

Lemma get_dzen_embedding_cached_witness :
  (get_dzen_embedding (H := Sample.sample_env) (u "https://dzen.ru/a/1")
     (u "broken")
     (get_dzen_embedding (H := Sample.sample_env) (u "https://dzen.ru/a/1")
        (u "near") Sample.empty_caches).2).1
  = Some [4%R; 3%R].
Proof.
  refine (proj1 (get_dzen_embedding_cached (H := Sample.sample_env)
                   (u "https://dzen.ru/a/1") (u "near") (u "broken")
                   Sample.empty_caches [4%R; 3%R] _ _ _ _)).
  - split; [apply NoDup_nil_2|vm_compute; discriminate].
  - vm_compute. discriminate.
  - reflexivity.
Defined.

Lemma calculate_similarity_restores_witness :
  (calculate_similarity (H := Sample.sample_env) (H0 := Sample.sample_hash)
     (u "near") (u "plain") None Sample.empty_caches).2
  = Sample.empty_caches.
Proof.
  refine (proj1 (calculate_similarity_restores (H := Sample.sample_env)
                   (H0 := Sample.sample_hash) (u "near") (u "plain") None
                   Sample.empty_caches _ _ _ _)).
  - vm_compute. reflexivity.
  - vm_compute. reflexivity.
  - apply Forall_nil_2.
  - apply Forall_nil_2.
Defined.

Lemma calculate_similarity_evicts_witness :
  DZEN_EMB_CACHE
    (calculate_similarity (H := Sample.sample_env) (H0 := Sample.sample_hash)
       (u "near") (u "plain") None Sample.full_caches).2
  = mkLRU 1 [].
Proof.
  refine (calculate_similarity_evicts (H := Sample.sample_env)
            (H0 := Sample.sample_hash) (u "near") (u "plain") None
            Sample.full_caches [4%R; 3%R] _ _ _ _ _ _).
  - apply NoDup_singleton.
  - reflexivity.
  - vm_compute. discriminate.
  - apply Forall_singleton. intros Heq. vm_compute in Heq. discriminate.
  - apply Forall_nil_2.
  - reflexivity.
Defined.

End EmbeddingFacts.

(** ** The normalization of text *)

Module TextFacts.
Import PyStr Similarity.

Lemma isspace_32 : isspace 32 = true.
Proof. done. Qed.

(** A letter or digit of the alphabet of normalized text is left alone by
    [lower]. *)
Lemma lower_char_kept (c : N) :
  c = 32%N ∨ (kept_char c = true ∧ isspace c = false) → lower_char c = [c].
Proof.
  intros [->|[Hk Hs]]; [done|].
  unfold kept_char in Hk. rewrite Hs, orb_false_r in Hk.
  unfold lower_char.
  repeat match goal with
         | |- context [(?a <=? ?b)%N] => destruct (N.leb_spec a b)
         | |- context [(?a =? ?b)%N] => destruct (N.eqb_spec a b)
         end; cbn [andb orb] in *; try done;
    repeat match type of Hk with
           | context [(?a <=? ?b)%N] => destruct (N.leb_spec a b)
           | context [(?a =? ?b)%N] => destruct (N.eqb_spec a b)
           end; cbn [andb orb] in Hk; try done; lia.
Qed.

Lemma kept_char_ok (c : N) :
  c = 32%N ∨ (kept_char c = true ∧ isspace c = false) → kept_char c = true.
Proof. by intros [->|[? _]]. Qed.

Lemma lower_ok (s : str) :
  Forall (λ c, c = 32%N ∨ (kept_char c = true ∧ isspace c = false)) s →
  lower s = s.
Proof.
  induction 1 as [|c s Hc _ IH]; [done|].
  unfold lower in *. cbn [flat_map]. rewrite IH, (lower_char_kept c Hc). done.
Qed.

Lemma map_kept_ok (s : str) :
  Forall (λ c, c = 32%N ∨ (kept_char c = true ∧ isspace c = false)) s →
  map (λ c, if kept_char c then c else 32%N) s = s.
Proof.
  induction 1 as [|c s Hc _ IH]; [done|].
  cbn [map]. by rewrite IH, (kept_char_ok c Hc).
Qed.

(** What [collapse_ws] gives: only the space among the whitespace, never
    two spaces in a row, and no space first when a run is going on. *)
Lemma collapse_ws_shape (b : bool) (s : str) :
  Forall (λ c, kept_char c = true) s →
  Forall (λ c, c = 32%N ∨ (kept_char c = true ∧ isspace c = false))
         (collapse_ws b s)
  ∧ (∀ i, collapse_ws b s !! i = Some 32%N →
          collapse_ws b s !! S i = Some 32%N → False)
  ∧ (b = true → head (collapse_ws b s) = Some 32%N → False).
Proof.
  intros Hs. revert b. induction Hs as [|c s Hc _ IH]; intros b.
  { cbn. split; [constructor|]. split; [by intros i ?|done]. }
  cbn [collapse_ws]. destruct (isspace c) eqn:Hsp.
  - destruct b.
    + apply IH.
    + destruct (IH true) as (H1 & H2 & H3). split; [|split; [|done]].
      * constructor; [by left|done].
      * intros [|i]; cbn.
        -- intros _ Hh. apply H3; [done|].
           by destruct (collapse_ws true s).
        -- apply H2.
  - destruct (IH false) as (H1 & H2 & H3). split; [|split].
    + constructor; [by right|done].
    + intros [|i]; cbn.
      * intros [= ->]. by rewrite isspace_32 in Hsp.
      * apply H2.
    + intros _ [= ->]. by rewrite isspace_32 in Hsp.
Qed.

(** [collapse_ws] changes nothing in a text without whitespace other than
    single spaces. *)
Lemma collapse_ws_ok (b : bool) (s : str) :
  Forall (λ c, c = 32%N ∨ (kept_char c = true ∧ isspace c = false)) s →
  (∀ i, s !! i = Some 32%N → s !! S i = Some 32%N → False) →
  (b = true → head s = Some 32%N → False) →
  collapse_ws b s = s.
Proof.
  intros Hs. revert b. induction Hs as [|c s Hc _ IH]; intros b Hadj Hb; [done|].
  cbn [collapse_ws].
  assert (Hadj' : ∀ i, s !! i = Some 32%N → s !! S i = Some 32%N → False).
  { intros i. apply (Hadj (S i)). }
  destruct Hc as [->|[_ Hsp]].
  - rewrite isspace_32. destruct b; [by destruct Hb|].
    f_equal. apply IH; [done|]. intros _ Hh. apply (Hadj 0%nat); [done|].
    cbn. by destruct s.
  - rewrite Hsp. f_equal. by apply IH.
Qed.

Lemma lstrip_suffix (s : str) : ∃ pre, s = pre ++ lstrip s.
Proof.
  induction s as [|c s [pre IH]]; [by exists []|].
  cbn [lstrip]. destruct (isspace c); [|by exists []].
  exists (c :: pre). cbn. by f_equal.
Qed.

Lemma lstrip_head (s : str) c : head (lstrip s) = Some c → isspace c = false.
Proof.
  induction s as [|c' s IH]; [done|]. cbn [lstrip].
  destruct (isspace c') eqn:E; [done|]. by intros [= <-].
Qed.

Lemma lstrip_id (s : str) :
  (∀ c, head s = Some c → isspace c = false) → lstrip s = s.
Proof.
  destruct s as [|c s]; [done|]. intros Hh. cbn [lstrip].
  by rewrite (Hh c eq_refl).
Qed.

Lemma rstrip_prefix (s : str) : ∃ post, s = rstrip s ++ post.
Proof.
  unfold rstrip. destruct (lstrip_suffix (reverse s)) as [pre Hpre].
  exists (reverse pre). apply (inj reverse).
  by rewrite reverse_app, !reverse_involutive.
Qed.

Lemma rstrip_last (s : str) c : last (rstrip s) = Some c → isspace c = false.
Proof.
  unfold rstrip. rewrite last_reverse. apply lstrip_head.
Qed.

Lemma rstrip_id (s : str) :
  (∀ c, last s = Some c → isspace c = false) → rstrip s = s.
Proof.
  intros Hl. unfold rstrip. rewrite lstrip_id; [apply reverse_involutive|].
  intros c. rewrite head_reverse. apply Hl.
Qed.

(** [rstrip] keeps a first character that is not whitespace. *)
Lemma rstrip_head (s : str) c :
  head s = Some c → isspace c = false → head (rstrip s) = Some c.
Proof.
  destruct s as [|c' s]; [done|]. intros [= ->] Hsp.
  unfold rstrip. rewrite reverse_cons.
  assert (Hgo : ∀ l : str, ∃ l', lstrip (l ++ [c]) = l' ++ [c]).
  { induction l as [|d l [l' IH]].
    - exists []. cbn. by rewrite Hsp.
    - cbn [app lstrip]. destruct (isspace d); [by exists l'|by exists (d :: l)]. }
  destruct (Hgo (reverse s)) as [l' ->].
  by rewrite reverse_app.
Qed.

Lemma strip_shape (s : str) :
  (∃ pre post, s = pre ++ strip s ++ post)
  ∧ (∀ c, head (strip s) = Some c → isspace c = false)
  ∧ (∀ c, last (strip s) = Some c → isspace c = false).
Proof.
  unfold strip. split; [|split].
  - destruct (lstrip_suffix s) as [pre Hpre].
    destruct (rstrip_prefix (lstrip s)) as [post Hpost].
    exists pre, post. by rewrite <- Hpost.
  - intros c Hc.
    destruct (lstrip s) as [|d l] eqn:Hl; [done|].
    assert (Hd : isspace d = false) by (apply (lstrip_head s); by rewrite Hl).
    rewrite (rstrip_head (d :: l) d eq_refl Hd) in Hc. by injection Hc as <-.
  - apply rstrip_last.
Qed.

Lemma strip_id (s : str) :
  (∀ c, head s = Some c → isspace c = false) →
  (∀ c, last s = Some c → isspace c = false) → strip s = s.
Proof.
  intros Hh Hl. unfold strip. rewrite lstrip_id by done. by apply rstrip_id.
Qed.

(** What the steps of the normalization leave: no whitespace but single
    spaces, and none at either end. *)
Lemma normalized_shape (text : str) :
  Forall (λ c, c = 32%N ∨ (kept_char c = true ∧ isspace c = false))
         (normalize_text_simple text)
  ∧ (∀ c, head (normalize_text_simple text) = Some c → isspace c = false)
  ∧ (∀ c, last (normalize_text_simple text) = Some c → isspace c = false)
  ∧ (∀ i, normalize_text_simple text !! i = Some 32%N →
          normalize_text_simple text !! S i = Some 32%N → False).
Proof.
  unfold normalize_text_simple. destruct (decide (text = [])) as [->|_].
  { split; [constructor|]. split; [done|]. split; [done|]. by intros i ?. }
  set (s := map _ (lower text)).
  assert (Hs : Forall (λ c, kept_char c = true) s).
  { unfold s. apply Forall_forall. intros c Hc.
    apply list_elem_of_In, in_map_iff in Hc as (d & <- & _).
    by destruct (kept_char d) eqn:E. }
  destruct (collapse_ws_shape false s Hs) as (H1 & H2 & _).
  destruct (strip_shape (collapse_ws false s)) as ((pre & post & Hps) & Hh & Hl).
  rewrite Hps in H1, H2.
  split; [|split; [|split]]; [|done|done|].
  - apply Forall_app in H1 as [_ H1]. by apply Forall_app in H1 as [H1 _].
  - intros i Hi Hi'. apply (H2 (length pre + i)%nat).
    + rewrite lookup_app_r by lia.
      replace (length pre + i - length pre)%nat with i by lia.
      by apply lookup_app_l_Some.
    + rewrite lookup_app_r by lia.
      replace (S (length pre + i) - length pre)%nat with (S i) by lia.
      by apply lookup_app_l_Some.
Qed.

(** X8.  The text that [normalize_text_simple] returns is made of lowercase
    Cyrillic and Latin letters, digits and spaces only; it neither begins
    nor ends with a space and has no two spaces in a row. *)
Theorem normalize_text_simple_shape (text : str) :
  Forall (λ c, c = 32%N ∨ (kept_char c = true ∧ isspace c = false))
         (normalize_text_simple text)
  ∧ head (normalize_text_simple text) ≠ Some 32%N
  ∧ last (normalize_text_simple text) ≠ Some 32%N
  ∧ (∀ i, normalize_text_simple text !! i = Some 32%N →
          normalize_text_simple text !! S i ≠ Some 32%N).
Proof.
  destruct (normalized_shape text) as (H1 & H2 & H3 & H4).
  split; [done|]. split; [|split].
  - intros Hc. by pose proof (H2 _ Hc).
  - intros Hc. by pose proof (H3 _ Hc).
  - intros i Hi Hi'. by apply (H4 i).
Qed.

(** X9.  [normalize_text_simple] is idempotent: normalizing a normalized
    text changes nothing. *)
Theorem normalize_text_simple_idempotent (text : str) :
  normalize_text_simple (normalize_text_simple text)
  = normalize_text_simple text
  ∧ normalize_text (normalize_text text) = normalize_text text.
Proof.
  assert (Hgoal : normalize_text_simple (normalize_text_simple text)
                  = normalize_text_simple text); [|done].
  destruct (normalized_shape text) as (H1 & H2 & H3 & H4).
  set (s := normalize_text_simple text) in *.
  unfold normalize_text_simple at 1. destruct (decide (s = [])) as [->|_]; [done|].
  rewrite (lower_ok s H1), (map_kept_ok s H1).
  rewrite (collapse_ws_ok false s H1); [|done|done].
  by apply strip_id.
Qed.

End TextFacts.

(** ** The lexical signals of the scorer and the keyword test *)

Module LexicalFacts.
Import PyStr Similarity Storage Keywords.

(** The tokens of a title: the first four characters of each of its words
    of three characters or more that is not in the stoplist. *)
Lemma elem_of_normalize_for_match (text token : str) :
  token ∈ normalize_for_match text ↔
  ∃ word, word ∈ split (normalize_text_simple text)
          ∧ (2 < length word)%nat ∧ lower word ∉ COMMON_WORD_STOPLIST
          ∧ token = take 4 word.
Proof.
  unfold normalize_for_match. rewrite elem_of_list_to_set.
  rewrite list_elem_of_In, in_map_iff. split.
  - intros (word & <- & Hin). apply list_elem_of_In in Hin.
    apply list_elem_of_filter in Hin as [[H1 H2] H3]. by exists word.
  - intros (word & H1 & H2 & H3 & ->). exists word. split; [done|].
    apply list_elem_of_In, list_elem_of_filter. done.
Qed.

(** X10.  The two lexical signals of the scorer do not depend on the order
    of the two titles, and the number of common words is at most the number
    of tokens of either title. *)
Theorem lexical_signals_symmetric `{Env} (title1 title2 : str) :
  count_common_words title1 title2 = count_common_words title2 title1
  ∧ has_keyword_phrase_in_both title1 title2
    = has_keyword_phrase_in_both title2 title1
  ∧ (count_common_words title1 title2 ≤ size (normalize_for_match title1))%nat
  ∧ (count_common_words title1 title2 ≤ size (normalize_for_match title2))%nat.
Proof.
  unfold count_common_words. split; [|split; [|split]].
  - f_equal. apply (comm_L (∩)).
  - unfold has_keyword_phrase_in_both. destruct keywords_topics as [topics|]; [|done].
    induction topics as [|kw topics IH]; [done|]. cbn [existsb]. rewrite IH.
    f_equal. destruct kw as [kw|]; [|done]. cbn [keyword_in_both].
    destruct (contains [32%N] _); apply andb_comm.
  - apply subseteq_size. set_solver.
  - apply subseteq_size. set_solver.
Qed.

(** X11.  Two titles have a common word exactly when each has a word of
    three characters or more, outside the stoplist, and the two words agree
    on their first four characters: words are compared by these prefixes,
    not as a whole. *)
Theorem count_common_words_prefix (title1 title2 : str) :
  (0 < count_common_words title1 title2)%nat ↔
  ∃ word1 word2,
    word1 ∈ split (normalize_text_simple title1)
    ∧ word2 ∈ split (normalize_text_simple title2)
    ∧ (2 < length word1)%nat ∧ (2 < length word2)%nat
    ∧ lower word1 ∉ COMMON_WORD_STOPLIST
    ∧ lower word2 ∉ COMMON_WORD_STOPLIST
    ∧ take 4 word1 = take 4 word2.
Proof.
  unfold count_common_words. split.
  - intros Hpos.
    destruct (set_choose_L (normalize_for_match title1
                            ∩ normalize_for_match title2)) as [token Htoken].
    { intros Hempty. rewrite Hempty, size_empty in Hpos. lia. }
    apply elem_of_intersection in Htoken as [H1 H2].
    apply elem_of_normalize_for_match in H1 as (w1 & ? & ? & ? & ->).
    apply elem_of_normalize_for_match in H2 as (w2 & ? & ? & ? & Heq).
    by exists w1, w2.
  - intros (w1 & w2 & H1 & H2 & H3 & H4 & H5 & H6 & Heq).
    assert (Hin : take 4 w1 ∈ normalize_for_match title1
                              ∩ normalize_for_match title2).
    { apply elem_of_intersection. split; apply elem_of_normalize_for_match.
      - by exists w1.
      - by exists w2. }
    destruct (size (_ ∩ _)) eqn:Hsize; [|lia].
    apply size_empty_inv in Hsize. apply leibniz_equiv in Hsize.
    rewrite Hsize in Hin. by apply not_elem_of_empty in Hin.
Qed.

Section keywords.
Context `{Env}.

(** X12.  [contains_keyword] answers whether some keyword of the loaded set
    matches the normalized text, whatever the order in which the set is
    iterated, and leaves the loaded set in [KEYWORDS]; a keyword that is a
    part of the normalized text matches, so that a keyword whose
    normalization is empty makes every text match. *)
Theorem contains_keyword_any (O : SetOrder) (text : str)
    (KEYWORDS : option (gset str)) (keywords : gset str)
    (KEYWORDS' : option (gset str)) :
  load_keywords KEYWORDS = (Some keywords, KEYWORDS') →
  ∃ found : bool,
    contains_keyword text KEYWORDS = (Some found, Some keywords)
    ∧ KEYWORDS' = Some keywords
    ∧ (found = true ↔
       ∃ kw, kw ∈ keywords
             ∧ keyword_matches (normalize_text_simple text) kw = true)
    ∧ (∀ kw, kw ∈ keywords →
             contains kw (normalize_text_simple text) = true → found = true)
    ∧ ([] ∈ keywords → found = true).
Proof.
  intros Hload.
  assert (HK : KEYWORDS' = Some keywords).
  { unfold load_keywords in Hload. destruct KEYWORDS as [ks|].
    - by injection Hload as <- <-.
    - destruct keywords_topics; [|done]. by injection Hload as <- <-. }
  subst KEYWORDS'. unfold contains_keyword. rewrite Hload.
  eexists. split; [reflexivity|]. split; [done|].
  assert (Hiff : existsb (keyword_matches (normalize_text_simple text))
                         (set_list keywords) = true
                 ↔ ∃ kw, kw ∈ keywords
                         ∧ keyword_matches (normalize_text_simple text) kw = true).
  { rewrite existsb_exists. split; intros (kw & H1 & H2); exists kw;
      (split; [|done]).
    - apply list_elem_of_In in H1. rewrite set_list_perm in H1.
      by apply elem_of_elements in H1.
    - apply list_elem_of_In. rewrite set_list_perm.
      by apply elem_of_elements. }
  split; [done|].
  assert (Hsub : ∀ kw, kw ∈ keywords →
            contains kw (normalize_text_simple text) = true →
            existsb (keyword_matches (normalize_text_simple text))
                    (set_list keywords) = true).
  { intros kw Hin Hc. apply Hiff. exists kw. split; [done|].
    unfold keyword_matches. by rewrite Hc. }
  split; [done|]. intros Hin. apply (Hsub [] Hin).
  by destruct (normalize_text_simple text).
Qed.

End keywords.

Lemma contains_keyword_any_witness :
  ∃ found : bool,
    contains_keyword (H := Sample.sample_env) (H0 := Sample.sample_order)
      (u "A new CLINIC opens") None
    = (Some found, Some (norm_keyword_set
                           [YStr (u "clinic"); YOther; YStr (u "first aid")]))
    ∧ found = true.
Proof.
  destruct (contains_keyword_any (H := Sample.sample_env) Sample.sample_order
              (u "A new CLINIC opens") None
              (norm_keyword_set [YStr (u "clinic"); YOther; YStr (u "first aid")])
              (Some (norm_keyword_set
                       [YStr (u "clinic"); YOther; YStr (u "first aid")]))
              eq_refl) as (found & Hc & _ & _ & Hsub & _).
  exists found. split; [done|].
  apply (Hsub (u "clinic")).
  - apply (bool_decide_unpack _). vm_compute. exact I.
  - vm_compute. reflexivity.
Defined.

End LexicalFacts.

(** ** The store of analyzed urls, below its cap and across restarts *)

Module AnalyzedFacts.
Import PyStr Storage.

Lemma foldl_add (urls : list str) (acc : gset str) :
  foldl (λ acc url, {[url]} ∪ acc) acc urls = acc ∪ list_to_set urls.
Proof.
  revert acc. induction urls as [|url urls IH]; intros acc; cbn [foldl].
  - set_solver.
  - rewrite IH. set_solver.
Qed.

Lemma list_to_set_set_list (O : SetOrder) (s : gset str) :
  list_to_set (set_list s) = s.
Proof.
  apply set_eq. intros x. rewrite elem_of_list_to_set, set_list_perm.
  apply elem_of_elements.
Qed.

(** X13.  The analyzed urls survive a restart: what [add_analyzed_urls]
    writes to the file is read back by [_load_analyzed_urls] as the set
    that was in memory, in whatever order the writing process iterated
    it; the files of the histories are not touched by either. *)
Theorem analyzed_urls_survive_restart (O : SetOrder) (urls : list str)
    (s : S3Storage) :
  urls ≠ [] →
  analyzed_urls (_load_analyzed_urls (add_analyzed_urls urls s))
  = analyzed_urls (add_analyzed_urls urls s)
  ∧ NoDup (analyzed_urls_file (add_analyzed_urls urls s))
  ∧ mosru_history_file (_load_analyzed_urls (add_analyzed_urls urls s))
    = mosru_history_file s
  ∧ dzen_history_file (_load_analyzed_urls (add_analyzed_urls urls s))
    = dzen_history_file s.
Proof.
  intros Hne. destruct urls as [|url urls]; [done|].
  unfold add_analyzed_urls, _load_analyzed_urls, _save_analyzed_urls.
  cbn [analyzed_urls analyzed_urls_file mosru_history_file dzen_history_file].
  split; [apply list_to_set_set_list|]. split; [apply StorageFacts.NoDup_set_list|].
  unfold _trim_analyzed_urls_if_needed. by destruct (_ >? _)%Z.
Qed.

(** Below the cap [add_analyzed_urls] adds the urls and removes none. *)
Lemma add_analyzed_urls_union (O : SetOrder) (urls : list str) (s : S3Storage) :
  (Z.of_nat (size (analyzed_urls s ∪ list_to_set urls)) ≤ MAX_ANALYZED_URLS)%Z →
  analyzed_urls (add_analyzed_urls urls s)
  = analyzed_urls s ∪ list_to_set urls.
Proof.
  intros Hsize. destruct urls as [|url urls].
  - cbn [add_analyzed_urls]. set_solver.
  - unfold add_analyzed_urls, _save_analyzed_urls,
      _trim_analyzed_urls_if_needed.
    cbn [analyzed_urls]. rewrite foldl_add.
    destruct (_ >? _)%Z eqn:E; [|done].
    apply Z.gtb_lt in E. lia.
Qed.

(** X14.  Below the cap nothing is lost: when the urls already analyzed
    together with the urls added are at most [MAX_ANALYZED_URLS], the set
    after [add_analyzed_urls] holds exactly both, so that every url added
    and every url analyzed before tests as analyzed. *)
Theorem add_analyzed_urls_below_cap (O : SetOrder) (urls : list str)
    (s : S3Storage) :
  (Z.of_nat (size (analyzed_urls s ∪ list_to_set urls)) ≤ MAX_ANALYZED_URLS)%Z →
  analyzed_urls (add_analyzed_urls urls s)
  = analyzed_urls s ∪ list_to_set urls
  ∧ (∀ url, url ∈ urls →
            is_url_analyzed url (add_analyzed_urls urls s) = true)
  ∧ (∀ url, is_url_analyzed url s = true →
            is_url_analyzed url (add_analyzed_urls urls s) = true).
Proof.
  intros Hsize.
  pose proof (add_analyzed_urls_union O urls s Hsize) as Heq.
  split; [done|]. unfold is_url_analyzed. rewrite Heq.
  split; intros url Hin; apply bool_decide_eq_true.
  - apply elem_of_union. right. by apply elem_of_list_to_set.
  - apply bool_decide_eq_true in Hin. by apply elem_of_union; left.
Qed.

Lemma analyzed_urls_survive_restart_witness :
  analyzed_urls
    (_load_analyzed_urls
       (add_analyzed_urls (H := Sample.sample_order) [u "https://dzen.ru/a/1"]
          Sample.empty_storage))
  = analyzed_urls
      (add_analyzed_urls (H := Sample.sample_order) [u "https://dzen.ru/a/1"]
         Sample.empty_storage).
Proof.
  refine (proj1 (analyzed_urls_survive_restart Sample.sample_order
                   [u "https://dzen.ru/a/1"] Sample.empty_storage _)).
  discriminate.
Defined.

Lemma add_analyzed_urls_below_cap_witness :
  is_url_analyzed (u "https://dzen.ru/a/1")
    (add_analyzed_urls (H := Sample.sample_order)
       [u "https://dzen.ru/a/1"; u "https://dzen.ru/a/2"] Sample.empty_storage)
  = true.
Proof.
  refine (proj1 (proj2 (add_analyzed_urls_below_cap Sample.sample_order
                          [u "https://dzen.ru/a/1"; u "https://dzen.ru/a/2"]
                          Sample.empty_storage _)) _ _).
  - vm_compute. discriminate.
  - by left.
Defined.

End AnalyzedFacts.

(** ** The urls and the items of the two sources *)

Module SourceFacts.
Import PyStr Parser Mosru Dzen.

Lemma endswith_last (c : N) (s : str) :
  endswith [c] s = true → last s = Some c.
Proof.
  unfold endswith. rewrite <- head_reverse. change (reverse [c]) with [c].
  destruct (reverse s) as [|d l]; [done|]. cbn [startswith head].
  intros [Hd _]%andb_true_iff. by apply bool_decide_eq_true in Hd as ->.
Qed.

Lemma Forall_before (sep : N) (s : str) :
  Forall (λ c, c ≠ sep) (before sep s).
Proof.
  apply Forall_forall. intros c Hc ->. by apply (MosruFacts.before_no_sep sep s).
Qed.

(** X15.  [normalize_mosru_url] gives a url without query string that ends
    with a slash, leaves the empty url empty and only it, and changes
    nothing in a url that it has produced. *)
Theorem normalize_mosru_url_shape (url : str) :
  normalize_mosru_url (normalize_mosru_url url) = normalize_mosru_url url
  ∧ (normalize_mosru_url url = [] ↔ url = [])
  ∧ (∀ c, last (normalize_mosru_url url) = Some c → c = 47%N)
  ∧ (url = [] ∨ Forall (λ c, c ≠ 63%N) (normalize_mosru_url url)).
Proof.
  split; [apply MosruFacts.normalize_mosru_url_idemp|].
  destruct (decide (url = [])) as [->|Hne].
  { split; [done|]. split; [done|by left]. }
  rewrite (MosruFacts.normalize_mosru_url_nonempty url Hne).
  destruct (endswith [47%N] (before 63%N url)) eqn:E.
  - split; [|split].
    + split; [|done]. intros Heq. rewrite Heq in E. done.
    + intros c Hc. apply endswith_last in E. congruence.
    + right. apply Forall_before.
  - split; [|split].
    + split; [|done]. intros Heq. apply app_eq_nil in Heq as [_ Heq]. done.
    + intros c. rewrite last_snoc. congruence.
    + right. apply Forall_app. split; [apply Forall_before|].
      by apply Forall_singleton.
Qed.

Lemma startswith_app (p s : str) : startswith p (p ++ s) = true.
Proof.
  induction p as [|a p IH]; [done|]. cbn [app startswith].
  by rewrite bool_decide_true, IH.
Qed.

Lemma startswith_before (p s : str) (sep : N) :
  Forall (λ c, c ≠ sep) p → startswith p s = true →
  startswith p (before sep s) = true.
Proof.
  intros Hp. revert s. induction Hp as [|a p Ha _ IH]; intros s; [done|].
  destruct s as [|b s]; [done|]. cbn [startswith].
  intros [Hab Hs]%andb_true_iff. apply bool_decide_eq_true in Hab as <-.
  cbn [before]. rewrite decide_False by done. cbn [startswith].
  by rewrite bool_decide_true, IH.
Qed.

(** X16.  The url of an aggregator card has no query string; for a link
    that is not empty it begins with [http], the site being put in front
    of a relative link; an empty link stays empty, and computing the url
    of a url changes nothing. *)
Theorem card_url_shape (href : str) :
  card_url (card_url href) = card_url href
  ∧ (card_url href = [] ↔ href = [])
  ∧ (href = [] ∨ startswith (u "http") (card_url href) = true)
  ∧ (href = [] ∨ Forall (λ c, c ≠ 63%N) (card_url href))
  ∧ (startswith (u "http") href = false → href ≠ [] →
     card_url href = u "https://dzen.ru" ++ before 63%N href).
Proof.
  assert (Hhttp : Forall (λ c, c ≠ 63%N) (u "http")).
  { apply Forall_forall. intros c Hc. vm_compute in Hc.
    repeat (apply elem_of_cons in Hc as [->|Hc]; [done|]).
    by apply elem_of_nil in Hc. }
  assert (Hsite : Forall (λ c, c ≠ 63%N) (u "https://dzen.ru")).
  { apply (bool_decide_unpack _). vm_compute. exact I. }
  assert (Hsite' : startswith (u "http") (u "https://dzen.ru") = true)
    by (vm_compute; reflexivity).
  assert (Hshape : (card_url href = [] ↔ href = [])
                   ∧ (href = [] ∨ startswith (u "http") (card_url href) = true)
                   ∧ (href = [] ∨ Forall (λ c, c ≠ 63%N) (card_url href))
                   ∧ (startswith (u "http") href = false → href ≠ [] →
                      card_url href = u "https://dzen.ru" ++ before 63%N href)).
  { unfold card_url. destruct (decide (href = [])) as [->|Hne].
    { split; [done|]. split; [by left|]. split; [by left|done]. }
    rewrite bool_decide_true by done. cbn [andb].
    destruct (startswith (u "http") href) eqn:E; cbn [negb].
    - rewrite decide_False by done.
      pose proof (startswith_before _ _ 63%N Hhttp E) as Hs.
      split; [|split; [|split]].
      + split; [|done]. intros Heq. by rewrite Heq in Hs.
      + by right.
      + right. apply Forall_before.
      + done.
    - rewrite decide_False.
      2:{ intros Heq. apply (f_equal length) in Heq.
          rewrite length_app in Heq. destruct href; [done|].
          cbn [length] in Heq. lia. }
      assert (Hb : before 63%N (u "https://dzen.ru" ++ href)
                   = u "https://dzen.ru" ++ before 63%N href).
      { clear -Hsite. induction Hsite as [|a p Ha _ IH]; [done|].
        cbn [app before]. rewrite decide_False by done. by rewrite IH. }
      rewrite Hb. split; [|split; [|split]].
      + split; [|done]. intros Heq. apply (f_equal length) in Heq.
        rewrite length_app in Heq. vm_compute in Heq. lia.
      + right. change (u "https://dzen.ru") with (u "http" ++ u "s://dzen.ru").
        rewrite <- app_assoc. apply startswith_app.
      + right. apply Forall_app. split; [done|apply Forall_before].
      + done. }
  split; [|exact Hshape].
  destruct (decide (href = [])) as [->|Hhref]; [done|].
  destruct Hshape as (Hnil & [?|Hs] & [?|Hq] & _); [done|done|done|].
  set (x := card_url href) in *. unfold card_url. rewrite Hs.
  destruct (decide (x = [])) as [Heq|Hne].
  - rewrite Heq. done.
  - rewrite bool_decide_true by done. cbn [andb negb].
    rewrite decide_False by done. apply MosruFacts.before_id.
    intros Hin. rewrite Forall_forall in Hq. by apply (Hq _ Hin).
Qed.

End SourceFacts.

(** ** The items scraped from mos.ru *)

Module MosruItemsFacts.
Import PyStr Parser Mosru.

Section scrape.
Context `{Env}.

(** What the loop over the cards keeps. *)
Lemma scrape_cards_inv max_items cards url_set news_items history_items :
  (length news_items < max_items)%nat →
  n_url <$> news_items = m_url <$> history_items →
  n_title <$> news_items = m_title <$> history_items →
  Forall (λ n, n_url n ∈ url_set) news_items →
  NoDup (n_url <$> news_items) →
  Forall (λ n, n_source n = u "mos.ru" ∧ n_url n ≠ []
               ∧ normalize_mosru_url (n_url n) = n_url n) news_items →
  Forall (λ item, in_dzen item = false ∧ m_added_at item = now_naive_iso)
         history_items →
  let r := scrape_cards max_items cards url_set news_items history_items in
  (length r.1 ≤ max_items)%nat
  ∧ n_url <$> r.1 = m_url <$> r.2
  ∧ n_title <$> r.1 = m_title <$> r.2
  ∧ NoDup (n_url <$> r.1)
  ∧ Forall (λ n, n_source n = u "mos.ru" ∧ n_url n ≠ []
                 ∧ normalize_mosru_url (n_url n) = n_url n) r.1
  ∧ Forall (λ item, in_dzen item = false ∧ m_added_at item = now_naive_iso) r.2.
Proof.
  revert url_set news_items history_items.
  induction cards as [|[[href title] snippet] cards IH];
    intros url_set news_items history_items Hlen Hurl Htitle Hset Hnd Hn Hh.
  { cbn. repeat split; try done. lia. }
  cbn [scrape_cards]. set (href' := normalize_mosru_url _).
  destruct (bool_decide (href' = []) || bool_decide (href' ∈ url_set)) eqn:Hskip.
  { by apply IH. }
  apply orb_false_iff in Hskip as [Hne Hin].
  apply bool_decide_eq_false in Hne, Hin.
  assert (Hset' : Forall (λ n, n_url n ∈ {[href']} ∪ url_set) news_items).
  { eapply Forall_impl; [exact Hset|]. intros n Hn'. set_solver. }
  destruct (decide (title ≠ [])) as [Ht|Ht].
  - set (news' := news_items ++ [_]). set (hist' := history_items ++ [_]).
    assert (H1 : n_url <$> news' = m_url <$> hist').
    { unfold news', hist'. rewrite !fmap_app. by rewrite Hurl. }
    assert (H2 : n_title <$> news' = m_title <$> hist').
    { unfold news', hist'. rewrite !fmap_app. by rewrite Htitle. }
    assert (H3 : Forall (λ n, n_url n ∈ {[href']} ∪ url_set) news').
    { apply Forall_app. split; [done|]. apply Forall_singleton. cbn. set_solver. }
    assert (H4 : NoDup (n_url <$> news')).
    { unfold news'. rewrite fmap_app. apply NoDup_app. split; [done|]. split.
      - intros x Hx Hx'. cbn in Hx'. apply list_elem_of_singleton in Hx' as ->.
        apply list_elem_of_fmap in Hx as (n & Hn1 & Hn2).
        rewrite Forall_forall in Hset. apply Hin. rewrite Hn1. by apply Hset.
      - apply NoDup_singleton. }
    assert (H5 : Forall (λ n, n_source n = u "mos.ru" ∧ n_url n ≠ []
                              ∧ normalize_mosru_url (n_url n) = n_url n) news').
    { apply Forall_app. split; [done|]. apply Forall_singleton. cbn.
      split; [done|]. split; [done|].
      apply MosruFacts.normalize_mosru_url_idemp. }
    assert (H6 : Forall (λ item, in_dzen item = false
                                 ∧ m_added_at item = now_naive_iso) hist').
    { apply Forall_app. split; [done|]. by apply Forall_singleton. }
    assert (Hl : length news' = S (length news_items)).
    { unfold news'. rewrite length_app. cbn. lia. }
    destruct (max_items <=? length news')%nat eqn:E.
    + cbn [fst snd]. repeat split; try done. lia.
    + apply Nat.leb_gt in E. by apply IH.
  - destruct (max_items <=? length news_items)%nat eqn:E.
    + apply Nat.leb_le in E. lia.
    + by apply IH.
Qed.

Lemma fetch_mosru_news_length (page : option (list (str * str * str))) :
  (length (fetch_mosru_news page).1 ≤ 20)%nat.
Proof.
  destruct page as [cards|]; [|cbn; lia].
  apply (scrape_cards_inv 20 cards ∅ [] []);
    [cbn; lia|done|done|constructor|constructor|constructor|constructor].
Qed.

(** X17.  A page of mos.ru gives at most 20 items, no url twice; the items
    to deliver and the items for the history go side by side with the same
    urls and titles; every url is a normalized mos.ru url that is not
    empty, and every history item is new: not yet seen in the aggregator
    and dated now. *)
Theorem fetch_mosru_news_items (page : option (list (str * str * str))) :
  (length (fetch_mosru_news page).1 ≤ 20)%nat
  ∧ n_url <$> (fetch_mosru_news page).1 = m_url <$> (fetch_mosru_news page).2
  ∧ n_title <$> (fetch_mosru_news page).1
    = m_title <$> (fetch_mosru_news page).2
  ∧ NoDup (n_url <$> (fetch_mosru_news page).1)
  ∧ Forall (λ n, n_source n = u "mos.ru" ∧ n_url n ≠ []
                 ∧ normalize_mosru_url (n_url n) = n_url n)
           (fetch_mosru_news page).1
  ∧ Forall (λ item, in_dzen item = false ∧ m_added_at item = now_naive_iso)
           (fetch_mosru_news page).2.
Proof.
  destruct page as [cards|].
  - apply (scrape_cards_inv 20 cards ∅ [] []);
      [cbn; lia|done|done|constructor|constructor|constructor|constructor].
  - cbn [fetch_mosru_news fst snd length fmap list_fmap].
    split; [lia|]. split; [done|]. split; [done|].
    split; [constructor|]. split; constructor.
Qed.

End scrape.

Lemma unique_by_keys {A} (key : A → str) (seen : gset str) (l : list A) :
  NoDup (key <$> unique_by key seen l)
  ∧ Forall (λ x, key x ∉ seen) (unique_by key seen l)
  ∧ (length (unique_by key seen l) ≤ length l)%nat
  ∧ (∀ x, x ∈ l → key x ∈ seen ∨ key x ∈ key <$> unique_by key seen l).
Proof.
  revert seen. induction l as [|x l IH]; intros seen.
  { cbn. split; [constructor|]. split; [constructor|]. split; [lia|].
    by intros x ?%elem_of_nil. }
  cbn [unique_by]. destruct (bool_decide (key x ∈ seen)) eqn:E.
  - apply bool_decide_eq_true in E. destruct (IH seen) as (H1 & H2 & H3 & H4).
    split; [done|]. split; [done|]. split; [cbn; lia|].
    intros y [->|Hy]%elem_of_cons; [by left|by apply H4].
  - apply bool_decide_eq_false in E.
    destruct (IH ({[key x]} ∪ seen)) as (H1 & H2 & H3 & H4).
    split; [|split; [|split]].
    + rewrite fmap_cons. apply NoDup_cons. split; [|done].
      intros (y & Hy1 & Hy2)%list_elem_of_fmap.
      rewrite Forall_forall in H2. apply (H2 y Hy2). set_solver.
    + constructor; [done|]. eapply Forall_impl; [exact H2|].
      intros y Hy. set_solver.
    + cbn. lia.
    + intros y [->|Hy]%elem_of_cons.
      * right. rewrite fmap_cons. by left.
      * destruct (H4 y Hy) as [[Hk|Hk]%elem_of_union|Hk].
        -- right. apply elem_of_singleton in Hk. rewrite Hk, fmap_cons. by left.
        -- by left.
        -- right. rewrite fmap_cons. by right.
Qed.

Section all.
Context `{Env}.

(** X18.  [get_all_mosru_news] delivers no url twice: of the items of all
    pages, those whose url differs only in trailing slashes from the url
    of an earlier item are dropped, and every item of a page is there up
    to these slashes; the items to deliver and the items for the history
    have the same urls, side by side, and there are at most 20 for each
    page. *)
Theorem get_all_mosru_news_unique
    (pages : list (option (list (str * str * str)))) :
  NoDup (n_url <$> (get_all_mosru_news pages).1)
  ∧ NoDup (norm_url <$> (n_url <$> (get_all_mosru_news pages).1))
  ∧ n_url <$> (get_all_mosru_news pages).1
    = m_url <$> (get_all_mosru_news pages).2
  ∧ (∀ n, n ∈ (get_all_mosru_news pages).1 →
          ∃ page, page ∈ pages ∧ n ∈ (fetch_mosru_news page).1)
  ∧ (∀ page n, page ∈ pages → n ∈ (fetch_mosru_news page).1 →
               norm_url (n_url n)
               ∈ norm_url <$> (n_url <$> (get_all_mosru_news pages).1))
  ∧ (length (get_all_mosru_news pages).1 ≤ 20 * length pages)%nat.
Proof.
  unfold get_all_mosru_news. cbn [fst snd].
  set (all_news := concat (fetch_mosru_news <$> pages).*1).
  destruct (unique_by_keys (λ item, norm_url (n_url item)) ∅ all_news)
    as (H1 & _ & H3 & H4).
  assert (Hk : (λ item, norm_url (n_url item))
               <$> unique_by (λ item, norm_url (n_url item)) ∅ all_news
               = norm_url <$> (n_url <$> unique_by (λ item, norm_url (n_url item))
                                                   ∅ all_news)).
  { by rewrite <- list_fmap_compose. }
  rewrite Hk in H1, H4.
  assert (Hin : ∀ n, n ∈ all_news ↔
                     ∃ page, page ∈ pages ∧ n ∈ (fetch_mosru_news page).1).
  { intros n. unfold all_news. rewrite list_elem_of_In, in_concat. split.
    - intros (l & Hl & Hn). apply list_elem_of_In in Hl, Hn.
      apply list_elem_of_fmap in Hl as (r & -> & Hr).
      apply list_elem_of_fmap in Hr as (page & -> & Hp). by exists page.
    - intros (page & Hp & Hn). exists (fetch_mosru_news page).1.
      split; apply list_elem_of_In; [|done].
      apply list_elem_of_fmap. exists (fetch_mosru_news page). split; [done|].
      apply list_elem_of_fmap. by exists page. }
  split; [by apply NoDup_fmap_1 in H1|]. split; [done|]. split.
  { apply MosruFacts.get_all_mosru_news_spec. }
  split; [|split].
  - intros n Hn. apply Hin. by apply MosruFacts.unique_by_elem_of in Hn.
  - intros page n Hp Hn.
    destruct (H4 n) as [Hs|Hs]; [apply Hin; by exists page|set_solver|done].
  - etrans; [exact H3|]. unfold all_news. clear.
    induction pages as [|page pages IH]; [cbn; lia|].
    cbn [fmap list_fmap fst concat]. rewrite length_app.
    pose proof (fetch_mosru_news_length page). cbn [length].
    change (list_fmap _ _ fst (list_fmap _ _ fetch_mosru_news pages))
      with ((fetch_mosru_news <$> pages).*1). lia.
Qed.

End all.

End MosruItemsFacts.

(** ** What a pass over the aggregator page delivers *)

Module PassFacts.
Import PyStr Similarity Storage Dzen Records.

Section pass.
Context `{Env}.
Implicit Types (cx : ctx) (p : pass) (card : str * str).

(** The ways in which a step of the pass can go through: the card is
    skipped, or counted as analyzed before, or its url is noted and the card
    is known by its title or by its url, or it gets as far as the matching
    and is accepted with a record or filtered out. *)
Lemma card_step_cases cx p card p' :
  card_step cx p card = Done p' →
  p' = p
  ∨ p' = count_analyzed p
  ∨ p' = add_url (card_url card.1) p
  ∨ (∃ os raw history,
       p' = set_history os raw
              (save_dzen_history history (p_storage p))
              (add_url (card_url card.1) p))
  ∨ (reaches_matching cx p card
     ∧ ∃ st,
         (∃ r, (semantic_record cx card r ∨ keyword_record cx card r)
               ∧ p' = accept (news_of (card_url card.1) card.2) r
                        (set_caches st (add_url (card_url card.1) p)))
         ∨ p' = reject (card_url card.1)
                  (set_caches st (add_url (card_url card.1) p))).
Proof.
  unfold card_step.
  destruct (bool_decide (card_url card.1 = [])) eqn:E1;
    [intros [= <-]; by left|].
  destruct (bool_decide (card.2 = [])) eqn:E2; [intros [= <-]; by left|].
  destruct (bool_decide (card_url card.1 ∈ url_set p)) eqn:E3;
    [intros [= <-]; by left|].
  cbn [orb].
  destruct (is_url_analyzed _ _) eqn:E4; [intros [= <-]; right; by left|].
  destruct (dzen_title_map cx !! _) as [old_id|] eqn:E5.
  { unfold rename_step. cbn [objs add_url dzen_history_raw p_storage].
    destruct (objs p !! old_id) as [old_item|]; [|done].
    destruct (old_item !! "url"%string) as [old_url|]; [|done].
    destruct (json_eq_str _ _); [intros [= <-]; right; right; by left|].
    destruct (mapM _ _) as [raw|]; [|done]. intros [= <-].
    right; right; right; left. by eexists _, _, _. }
  destruct (bool_decide (_ ∈ dzen_history_urls cx)) eqn:E6;
    [intros [= <-]; right; right; by left|].
  intros Hstep. right; right; right; right.
  apply bool_decide_eq_false in E1, E2, E3, E6.
  assert (Hreach : reaches_matching cx p card) by done.
  split; [done|].
  destruct (find_best_match _ _ _) as [[bm bs] st] eqn:Hf.
  exists st.
  assert (Hkw : keyword_step cx (card_url card.1) card.2
                  (set_caches st (add_url (card_url card.1) p)) = Done p' →
          (∃ r, (semantic_record cx card r ∨ keyword_record cx card r)
                ∧ p' = accept (news_of (card_url card.1) card.2) r
                         (set_caches st (add_url (card_url card.1) p)))
          ∨ p' = reject (card_url card.1)
                   (set_caches st (add_url (card_url card.1) p))).
  { unfold keyword_step. destruct (decide _) as [Hne|_]; intros [= <-];
      [|by right].
    left. eexists. split; [|done]. right. by eexists. }
  destruct bm as [m|]; [|by apply Hkw].
  destruct (Rle_dec _ _) as [Hle|]; [|by apply Hkw].
  unfold semantic_step in Hstep.
  destruct (mosru_url_already_used _ _ _) as [[|]|]; [|  |done].
  { injection Hstep as <-. by right. }
  injection Hstep as <-. left. eexists. split; [|done]. left.
  exists m, bs.
  pose proof (f_equal fst Hf) as Hf1. cbn [fst] in Hf1.
  destruct (SimilarityFacts.find_best_match_spec _ _ _ _ _ Hf1)
    as (_ & _ & [[? _]|(j & item & Hj & _ & Hitem & _)]); [done|].
  injection Hitem as <-.
  destruct (DzenFacts.find_best_match_range _ _ _ _ _ Hf1) as [[_ H1] _].
  split; [by apply list_elem_of_lookup_2 in Hj|]. done.
Qed.

Lemma NoDup_snoc_middle (l1 l2 : list str) (x : str) :
  NoDup (l1 ++ l2) → x ∉ l1 ++ l2 → NoDup ((l1 ++ [x]) ++ l2).
Proof.
  intros Hnd Hx. rewrite <- app_assoc. cbn [app].
  apply (NoDup_Permutation_proper _ _ (Permutation_middle l1 l2 x)).
  by apply NoDup_cons.
Qed.

Lemma NoDup_snoc (l : list str) (x : str) :
  NoDup l → x ∉ l → NoDup (l ++ [x]).
Proof.
  intros Hnd Hx. apply NoDup_app. split; [done|]. split.
  - by intros y Hy ->%list_elem_of_singleton.
  - apply NoDup_singleton.
Qed.

(** A step of the pass keeps what holds all along. *)
Lemma card_step_inv cx A cards p card p' :
  card ∈ cards → pass_inv cx A cards p → card_step cx p card = Done p' →
  pass_inv cx A cards p'.
Proof.
  intros Hcard (HA & Hnd & Hall & Hpar) Hstep.
  assert (Hmono : ∀ x : str,
            Forall (λ url, url ∈ {[x]} ∪ url_set p ∧ url ∉ A
                           ∧ url ∉ dzen_history_urls cx ∧ url ≠ [])
                   ((n_url <$> filtered_dzen_news p) ++ filtered_out_urls p)).
  { intros x. eapply Forall_impl; [exact Hall|].
    intros url (H1 & H2 & H3 & H4). split; [set_solver|done]. }
  destruct (card_step_cases cx p card p' Hstep)
    as [->|[->|[->|[(os & raw & history & ->)|(Hreach & st & Hcase)]]]].
  { done. }
  { done. }
  { unfold pass_inv. cbn [add_url p_storage filtered_dzen_news
      filtered_dzen_history filtered_out_urls url_set]. done. }
  { unfold pass_inv. cbn [set_history add_url p_storage filtered_dzen_news
      filtered_dzen_history filtered_out_urls url_set save_dzen_history
      analyzed_urls]. done. }
  destruct Hreach as (Hu & Ht & Hset & Han & Hmap & Hhist).
  assert (HnA : card_url card.1 ∉ A).
  { unfold is_url_analyzed in Han. apply bool_decide_eq_false in Han.
    by rewrite HA in Han. }
  assert (Hfresh : card_url card.1
                   ∉ (n_url <$> filtered_dzen_news p) ++ filtered_out_urls p).
  { intros Hin. rewrite Forall_forall in Hall.
    by destruct (Hall _ Hin) as [? _]. }
  assert (Hnew : card_url card.1 ∈ {[card_url card.1]} ∪ url_set p
                 ∧ card_url card.1 ∉ A
                 ∧ card_url card.1 ∉ dzen_history_urls cx
                 ∧ card_url card.1 ≠ []).
  { split; [set_solver|done]. }
  destruct Hcase as [(r & Hr & ->)| ->].
  - unfold pass_inv.
    cbn [accept set_caches add_url p_storage filtered_dzen_news
         filtered_dzen_history filtered_out_urls url_set].
    split; [done|]. rewrite fmap_app. cbn [fmap list_fmap news_of n_url].
    split; [by apply NoDup_snoc_middle|]. split.
    + rewrite <- app_assoc. cbn [app]. apply Forall_app.
      specialize (Hmono (card_url card.1)).
      apply Forall_app in Hmono as [H1 H2]. split; [done|].
      by constructor.
    + apply Forall2_app; [done|]. constructor; [|constructor].
      by exists card.
  - unfold pass_inv.
    cbn [reject set_caches add_url p_storage filtered_dzen_news
         filtered_dzen_history filtered_out_urls url_set].
    split; [done|]. rewrite app_assoc.
    split; [by apply NoDup_snoc|]. split; [|done].
    apply Forall_app. split; [apply Hmono|]. by apply Forall_singleton.
Qed.

Lemma run_cards_inv cx A cards0 cards p p' :
  cards ⊆ cards0 → pass_inv cx A cards0 p → run_cards cx p cards = Done p' →
  pass_inv cx A cards0 p'.
Proof.
  revert p. induction cards as [|card cards IH]; intros p Hsub Hinv.
  - by intros [= <-].
  - cbn [run_cards]. destruct (card_step cx p card) as [p1|p1] eqn:Hs; [|done].
    intros Hrun. apply (IH p1); [set_solver| |done].
    apply (card_step_inv cx A cards0 p card p1); [set_solver|done|done].
Qed.

(** A step delivers or filters out one url at most. *)
Lemma run_cards_count cx cards p p' :
  run_cards cx p cards = Done p' →
  (length (filtered_dzen_news p') + length (filtered_out_urls p')
   ≤ length (filtered_dzen_news p) + length (filtered_out_urls p)
     + length cards)%nat.
Proof.
  revert p. induction cards as [|card cards IH]; intros p.
  - intros [= <-]. cbn. lia.
  - cbn [run_cards]. destruct (card_step cx p card) as [p1|p1] eqn:Hs; [|done].
    intros Hrun. specialize (IH p1 Hrun). cbn [length].
    destruct (card_step_cases cx p card p1 Hs)
      as [->|[->|[->|[(os & raw & history & ->)|(_ & st & [(r & _ & ->)| ->])]]]];
      cbn [accept reject set_caches add_url set_history count_analyzed
           filtered_dzen_news filtered_out_urls] in IH;
      rewrite ?length_app in IH; cbn [length] in IH; lia.
Qed.

Lemma pass_inv_first cx (cards : list (str * str))
    (history : list (gmap string json)) st s :
  pass_inv cx (analyzed_urls s) cards (first_pass history st s).
Proof.
  unfold pass_inv, first_pass.
  cbn [p_storage filtered_dzen_news filtered_dzen_history filtered_out_urls
       fmap list_fmap app].
  split; [done|]. split; [constructor|]. split; constructor.
Qed.

(** The items delivered and the records go side by side. *)
Lemma delivered_parallel cx (cards : list (str * str)) news items :
  Forall2 (λ n r, ∃ card, card ∈ cards
                          ∧ n = news_of (card_url card.1) card.2
                          ∧ (semantic_record cx card r
                             ∨ keyword_record cx card r)) news items →
  n_url <$> news = d_url <$> items
  ∧ n_title <$> news = d_title <$> items
  ∧ Forall (λ n, n_source n = u "Дзен" ∧ n_snippet n = None
                 ∧ ∃ card, card ∈ cards ∧ n_url n = card_url card.1
                           ∧ n_title n = strip card.2) news.
Proof.
  induction 1 as [|n r news items (card & Hcard & -> & Hr) _ (IH1 & IH2 & IH3)].
  { split; [done|]. split; [done|constructor]. }
  rewrite !fmap_cons, IH1, IH2. cbn [news_of n_url n_title].
  assert (Hr' : d_url r = card_url card.1 ∧ d_title r = strip card.2).
  { destruct Hr as [(m & s & _ & _ & _ & ->)|(kws & _ & _ & ->)]; done. }
  destruct Hr' as [-> ->]. split; [done|]. split; [done|].
  constructor; [|done]. cbn. split; [done|]. split; [done|]. by exists card.
Qed.

(** What [fetch_dzen_news] returns comes out of a pass that went through. *)
Lemma fetch_dzen_news_pass (O : SetOrder) mosru_history urls max_items cards
    st s news items :
  f_result (fetch_dzen_news mosru_history urls max_items (Some cards) st s)
  = Some (news, items) →
  ∃ raw_keywords tmap p,
    keywords_topics = Some raw_keywords
    ∧ run_cards (mkCtx tmap urls (recent_of mosru_history)
                       (norm_keywords_of raw_keywords))
        (first_pass (load_dzen_history s) st s) (take max_items cards)
      = Done p
    ∧ news = filtered_dzen_news p ∧ items = filtered_dzen_history p
    ∧ f_storage (fetch_dzen_news mosru_history urls max_items (Some cards) st s)
      = store_analyzed p.
Proof.
  unfold fetch_dzen_news.
  destruct keywords_topics as [raw_keywords|]; [|done].
  destruct (build_title_map _ _ _) as [tmap|]; [|done].
  destruct (run_cards _ _ _) as [p|p] eqn:Hr; [|done].
  cbn [f_result f_storage]. intros [= <- <-]. by exists raw_keywords, tmap, p.
Qed.

(** X19.  What a pass over the aggregator page delivers: no url twice, and
    no url that is in the history given to it or was analyzed before; each
    item is built from one of the first [max_items] cards, with the url of
    the card and its stripped title, and goes with the record of the same
    url and title; there are at most [max_items] items. *)
Theorem fetch_dzen_news_delivers (O : SetOrder) mosru_history urls max_items
    cards st s news items :
  f_result (fetch_dzen_news mosru_history urls max_items (Some cards) st s)
  = Some (news, items) →
  NoDup (n_url <$> news)
  ∧ n_url <$> news = d_url <$> items
  ∧ n_title <$> news = d_title <$> items
  ∧ Forall (λ n, n_url n ∉ urls ∧ n_url n ∉ analyzed_urls s ∧ n_url n ≠ []
                 ∧ n_source n = u "Дзен" ∧ n_snippet n = None
                 ∧ ∃ card, card ∈ take max_items cards
                           ∧ n_url n = card_url card.1
                           ∧ n_title n = strip card.2) news
  ∧ (length news ≤ max_items)%nat.
Proof.
  intros Hres.
  destruct (fetch_dzen_news_pass O _ _ _ _ _ _ _ _ Hres)
    as (raw_keywords & tmap & p & _ & Hrun & -> & -> & _).
  pose proof (run_cards_inv _ (analyzed_urls s) (take max_items cards) _ _ _
                (reflexivity _) (pass_inv_first _ _ _ _ _) Hrun)
    as (_ & Hnd & Hall & Hpar).
  destruct (delivered_parallel _ _ _ _ Hpar) as (H1 & H2 & H3).
  apply NoDup_app in Hnd as [Hnd _]. apply Forall_app in Hall as [Hall _].
  rewrite Forall_fmap in Hall.
  split; [done|]. split; [done|]. split; [done|]. split.
  - apply Forall_forall. intros n Hn. rewrite Forall_forall in Hall, H3.
    destruct (Hall n Hn) as (_ & Ha & Hu & Hne). cbn in Ha, Hu, Hne.
    destruct (H3 n Hn) as (Hs & Hsn & Hc). done.
  - pose proof (run_cards_count _ _ _ _ Hrun) as Hcount.
    cbn [first_pass filtered_dzen_news filtered_out_urls length] in Hcount.
    pose proof (firstn_le_length max_items cards). lia.
Qed.

End pass.

(** On the sample page the card is delivered for its keyword. *)
Lemma clinic_page_result :
  f_result (fetch_dzen_news (H := Sample.sample_env) (H0 := Sample.sample_order)
              [] ∅ 20 (Some Sample.clinic_page) Sample.empty_caches
              Sample.empty_storage)
  = Some ([news_of (u "https://dzen.ru/a/5") (u " New clinic opens ")],
          [keywords_record (H := Sample.sample_env) (u "https://dzen.ru/a/5")
             (u " New clinic opens ") [u "clinic"]]).
Proof. vm_compute. reflexivity. Qed.

Lemma fetch_dzen_news_delivers_witness :
  NoDup (n_url <$> [news_of (u "https://dzen.ru/a/5") (u " New clinic opens ")])
  ∧ n_url <$> [news_of (u "https://dzen.ru/a/5") (u " New clinic opens ")]
    = d_url <$> [keywords_record (H := Sample.sample_env)
                   (u "https://dzen.ru/a/5") (u " New clinic opens ")
                   [u "clinic"]]
  ∧ n_title <$> [news_of (u "https://dzen.ru/a/5") (u " New clinic opens ")]
    = d_title <$> [keywords_record (H := Sample.sample_env)
                     (u "https://dzen.ru/a/5") (u " New clinic opens ")
                     [u "clinic"]]
  ∧ Forall (λ n, n_url n ∉ (∅ : gset str)
                 ∧ n_url n ∉ analyzed_urls Sample.empty_storage
                 ∧ n_url n ≠ []
                 ∧ n_source n = u "Дзен" ∧ n_snippet n = None
                 ∧ ∃ card, card ∈ take 20 Sample.clinic_page
                           ∧ n_url n = card_url card.1
                           ∧ n_title n = strip card.2)
      [news_of (u "https://dzen.ru/a/5") (u " New clinic opens ")]
  ∧ (length [news_of (u "https://dzen.ru/a/5") (u " New clinic opens ")]
     ≤ 20)%nat.
Proof.
  exact (fetch_dzen_news_delivers (H := Sample.sample_env)
           Sample.sample_order [] ∅ 20 Sample.clinic_page
           Sample.empty_caches Sample.empty_storage _ _
           clinic_page_result).
Defined.

End PassFacts.

(** ** The renamed record and the cycle ([sources/dzen.py], [scheduler.py]) *)

Module RenameFacts.
Import PyStr Similarity Storage Dzen Scheduler.

Section title_map.

(** A title that no record has is mapped as it was before the loop. *)
Lemma build_title_map_absent (history : list (gmap string json)) :
  ∀ i m tmap t,
    build_title_map history i m = Some tmap →
    (∀ j, title_of history j ≠ Some t) →
    tmap !! t = m !! t.
Proof.
  induction history as [|item history IH]; intros i m tmap t.
  - by intros [= <-].
  - cbn [build_title_map]. intros Hb Hno.
    destruct (record_title item) as [nt|] eqn:Hnt; [|done]. cbn in Hb.
    rewrite (IH _ _ _ t Hb).
    + apply lookup_insert_ne. intros ->. by apply (Hno 0).
    + intros j. apply (Hno (S j)).
Qed.

(** The title map holds, for a normalized title, the last record of the
    history that has it. *)
Lemma build_title_map_last (history : list (gmap string json)) :
  ∀ i m tmap t k,
    build_title_map history i m = Some tmap →
    title_of history k = Some t →
    (∀ j, k < j → title_of history j ≠ Some t) →
    tmap !! t = Some (i + k).
Proof.
  induction history as [|item history IH]; intros i m tmap t k.
  - by destruct k.
  - cbn [build_title_map]. intros Hb Hk Hlast.
    destruct (record_title item) as [nt|] eqn:Hnt; [|done]. cbn in Hb.
    destruct k as [|k].
    + unfold title_of in Hk. cbn in Hk. rewrite Hnt in Hk.
      injection Hk as ->.
      rewrite (build_title_map_absent _ _ _ _ t Hb).
      * rewrite Nat.add_0_r. apply lookup_insert_eq.
      * intros j. apply (Hlast (S j)). lia.
    + replace (i + S k) with (S i + k) by lia.
      apply (IH _ _ _ _ _ Hb Hk). intros j Hj. apply (Hlast (S j)). lia.
Qed.

(** And what the map holds for a title is a record with this title, after
    which no record has it. *)
Lemma build_title_map_holds (history : list (gmap string json)) :
  ∀ i m tmap t old_id,
    build_title_map history i m = Some tmap →
    tmap !! t = Some old_id →
    (m !! t = Some old_id ∧ ∀ j, title_of history j ≠ Some t)
    ∨ (∃ k, old_id = i + k ∧ title_of history k = Some t
            ∧ ∀ j, k < j → title_of history j ≠ Some t).
Proof.
  induction history as [|item history IH]; intros i m tmap t old_id.
  - intros [= <-] Hm. left. split; [done|]. by intros [|j].
  - cbn [build_title_map]. intros Hb Hm.
    destruct (record_title item) as [nt|] eqn:Hnt; [|done]. cbn in Hb.
    destruct (IH _ _ _ _ _ Hb Hm) as [[Hin Hno]|(k & -> & Hk & Hlast)].
    + destruct (decide (nt = t)) as [->|Hne].
      * rewrite lookup_insert_eq in Hin. injection Hin as <-.
        right. exists 0. split; [lia|]. split.
        { unfold title_of. cbn. by rewrite Hnt. }
        intros [|j] Hj; [lia|]. apply (Hno j).
      * rewrite lookup_insert_ne in Hin by done. left. split; [done|].
        intros [|j]; [|apply (Hno j)].
        unfold title_of. cbn. rewrite Hnt. by intros [= ->].
    + right. exists (S k). split; [lia|]. split; [done|].
      intros [|j] Hj; [lia|]. apply (Hlast j). lia.
Qed.

(** The loop goes through only when every record has a title that can be
    normalized. *)
Lemma build_title_map_titled (history : list (gmap string json)) :
  ∀ i m tmap k,
    build_title_map history i m = Some tmap →
    k < length history → is_Some (title_of history k).
Proof.
  induction history as [|item history IH]; intros i m tmap k.
  - cbn. lia.
  - cbn [build_title_map]. intros Hb Hk.
    destruct (record_title item) as [nt|] eqn:Hnt; [|done]. cbn in Hb.
    destruct k as [|k].
    + unfold title_of. cbn. by rewrite Hnt.
    + apply (IH _ _ _ k Hb). cbn in Hk. lia.
Qed.

Lemma resolve_lookup (os : list (gmap string json)) (raw : list nat) :
  ∀ k i o,
    (∀ j, j ∈ raw → is_Some (os !! j)) →
    raw !! k = Some i → os !! i = Some o →
    resolve os raw !! k = Some o.
Proof.
  unfold resolve. induction raw as [|a raw IH]; intros k i o Hall Hk Hi.
  - done.
  - cbn [omap list_omap]. destruct (Hall a) as [oa Ha]; [by left|].
    rewrite Ha. destruct k as [|k].
    + injection Hk as ->. by rewrite Hi in Ha.
    + cbn. apply (IH k i o); [|done|done]. intros j Hj. apply Hall. by right.
Qed.

End title_map.

Section cycle.
Context `{Env}.

(** The url, the title and the timestamp of a record are those of the
    dictionary it was built from. *)
Lemma dzen_of_dict_fields (item : gmap string json) (r : DzenHistoryItem) :
  dzen_of_dict item = Some r →
  item !! "url"%string = Some (JStr (d_url r))
  ∧ item !! "title"%string = Some (JStr (d_title r))
  ∧ (∀ a, item !! "added_at"%string = Some a → a = JStr (d_added_at r)).
Proof.
  unfold dzen_of_dict. destruct (bool_decide _); [|done].
  destruct (item !! "url"%string) as [[| | | |url|]|]; try done.
  destruct (item !! "title"%string) as [[| | | |title|]|]; try done.
  cbn [jstr mbind option_bind].
  destruct (item !! "added_at"%string) as [[| | | |added_at|]|]; try done;
    cbn [mbind option_bind];
    (destruct (jopt_str (item !! "mosru_source_url"%string)); [|done]);
    cbn [mbind option_bind];
    (destruct (jopt_str (item !! "mosru_title"%string)); [|done]);
    cbn [mbind option_bind];
    (destruct (jopt_str (item !! "mosru_snippet"%string)); [|done]);
    cbn [mbind option_bind];
    (destruct (jopt_str (item !! "match_type"%string)); [|done]);
    cbn [mbind option_bind];
    (destruct (match item !! "similarity_score"%string with
               | Some JNull => _ | _ => _ end); [|done]);
    cbn [mbind option_bind];
    (destruct (match item !! "common_words"%string with
               | Some JNull => _ | _ => _ end); [|done]);
    cbn [mbind option_bind];
    (destruct (match item !! "matched_keywords"%string with
               | Some JNull => _ | _ => _ end); [|done]);
    cbn [mbind option_bind]; intros [= <-]; cbn; repeat split; try done.
  by intros a [= <-].
Qed.

Lemma dzen_to_dict_fields (r : DzenHistoryItem) :
  dzen_to_dict r !! "url"%string = Some (JStr (d_url r))
  ∧ dzen_to_dict r !! "title"%string = Some (JStr (d_title r))
  ∧ dzen_to_dict r !! "added_at"%string = Some (JStr (d_added_at r)).
Proof. unfold dzen_to_dict. repeat split; by simplify_map_eq. Qed.

(** What a cycle that goes through leaves in the history file of the
    aggregator when it has a new record: the records it loaded at its
    start, as they were then, and the new records. *)
Lemma cycle_dzen_history_file (O : SetOrder) mosru_pages dzen_page st s c st1 s1 :
  fetch_and_send_news mosru_pages dzen_page st s = (Some c, st1, s1) →
  new_dzen_history c ≠ [] →
  ∃ DH,
    mapM dzen_of_dict (load_dzen_history s) = Some DH
    ∧ dzen_history_file s1 = dzen_to_dict <$> (DH ++ new_dzen_history c).
Proof.
  unfold fetch_and_send_news, cycle_with.
  destruct (mapM mosru_of_dict (load_mosru_history s)) as [MH|]; [|done].
  destruct (mapM dzen_of_dict (load_dzen_history s)) as [DH|]; [|done].
  destruct (Mosru.get_all_mosru_news mosru_pages) as [N I].
  destruct (f_result _) as [[DN DI]|]; [|done].
  intros [= <- <- <-]. cbn [new_dzen_history]. intros Hnew.
  exists DH. split; [done|]. by rewrite (bool_decide_eq_true_2 _ Hnew).
Qed.

(** The pass of a cycle that goes through: the title map was built from the
    history file, the loop over the cards went through, and the cycle got
    what the loop found. *)
Lemma cycle_pass (O : SetOrder) mosru_pages cards st s c st1 s1 :
  fetch_and_send_news mosru_pages (Some cards) st s = (Some c, st1, s1) →
  ∃ tmap cx p DH,
    build_title_map (load_dzen_history s) 0 ∅ = Some tmap
    ∧ mapM dzen_of_dict (load_dzen_history s) = Some DH
    ∧ dzen_title_map cx = tmap
    ∧ dzen_history_urls cx = list_to_set (d_url <$> DH)
    ∧ run_cards cx (first_pass (load_dzen_history s) st s) (take 20 cards)
      = Done p
    ∧ dzen_news c = filtered_dzen_news p
    ∧ dzen_new_items c = filtered_dzen_history p.
Proof.
  unfold fetch_and_send_news, cycle_with.
  destruct (mapM mosru_of_dict (load_mosru_history s)) as [MH|]; [|done].
  destruct (mapM dzen_of_dict (load_dzen_history s)) as [DH|]; [|done].
  destruct (Mosru.get_all_mosru_news mosru_pages) as [N I].
  destruct (f_result _) as [[DN DI]|] eqn:HF; [|done].
  intros [= <- <- <-]. cbn [dzen_news dzen_new_items].
  revert HF. unfold fetch_dzen_news.
  destruct keywords_topics as [raw_keywords|]; [|done].
  destruct (build_title_map _ _ _) as [tmap|]; [|done].
  destruct (run_cards _ _ _) as [p|p] eqn:Hr; [|done].
  cbn [f_result]. intros [= <- <-].
  match type of Hr with
  | run_cards ?cx _ _ = _ => exists tmap, cx, p, DH
  end.
  done.
Qed.

(** C6.  A candidate whose normalized title is that of a history record
    with another url.  The title map holds the last record of the history
    with this title; the pass gives it the url of the candidate and the
    current timestamp, saves the history with the rewritten record and
    delivers nothing for the candidate.  But the rewritten record is not
    what the cycle persists: when the cycle goes through and has a new
    record of the aggregator, it saves the records it loaded at its start
    with the new ones after them, so that the history file has the record
    with its old url and its old timestamp again. *)
Theorem rename_undone_by_cycle (O : SetOrder) mosru_pages card cards st s
    c st1 s1 old_id old_item old_url :
  card_url card.1 ≠ [] → card.2 ≠ [] →
  is_url_analyzed (card_url card.1) s = false →
  load_dzen_history s !! old_id = Some old_item →
  record_title old_item = Some (normalize_text card.2) →
  (∀ j, old_id < j →
        title_of (load_dzen_history s) j ≠ Some (normalize_text card.2)) →
  old_item !! "url"%string = Some (JStr old_url) →
  old_url ≠ card_url card.1 →
  fetch_and_send_news mosru_pages (Some (card :: cards)) st s
  = (Some c, st1, s1) →
  new_dzen_history c ≠ [] →
  ∃ tmap cx p1 p DH r,
    build_title_map (load_dzen_history s) 0 ∅ = Some tmap
    ∧ tmap !! normalize_text card.2 = Some old_id
    ∧ dzen_title_map cx = tmap
    ∧ dzen_history_urls cx = list_to_set (d_url <$> DH)
    ∧ card_step cx (first_pass (load_dzen_history s) st s) card = Done p1
    ∧ run_cards cx p1 (take 19 cards) = Done p
    ∧ dzen_news c = filtered_dzen_news p
    ∧ dzen_new_items c = filtered_dzen_history p
    ∧ dzen_history_file (p_storage p1) !! old_id
      = Some (<["added_at"%string := JStr now_iso]>
                (<["url"%string := JStr (card_url card.1)]> old_item))
    ∧ filtered_dzen_news p1 = [] ∧ filtered_dzen_history p1 = []
    ∧ filtered_out_urls p1 = []
    ∧ mapM dzen_of_dict (load_dzen_history s) = Some DH
    ∧ dzen_history_file s1 = dzen_to_dict <$> (DH ++ new_dzen_history c)
    ∧ dzen_of_dict old_item = Some r
    ∧ dzen_history_file s1 !! old_id = Some (dzen_to_dict r)
    ∧ dzen_to_dict r !! "url"%string = Some (JStr old_url)
    ∧ (∀ a, old_item !! "added_at"%string = Some a →
            dzen_to_dict r !! "added_at"%string = Some a).
Proof.
  intros Hu Ht Ha Hold Htitle Hlast Hurl Hne Hcycle Hnew.
  destruct (cycle_pass O _ _ _ _ _ _ _ Hcycle)
    as (tmap & cx & p & DH & Hmap & HDH & Hcx & Hcu & Hrun & Hdn & Hdi).
  destruct (cycle_dzen_history_file O _ _ _ _ _ _ _ Hcycle Hnew)
    as (DH' & HDH' & Hfile).
  rewrite HDH in HDH'. injection HDH' as <-.
  set (history := load_dzen_history s) in *.
  assert (Htof : title_of history old_id = Some (normalize_text card.2)).
  { unfold title_of. by rewrite Hold. }
  assert (Hlook : tmap !! normalize_text card.2 = Some old_id).
  { by rewrite (build_title_map_last _ _ _ _ _ _ Hmap Htof Hlast). }
  assert (Hlt : old_id < length history) by by eapply lookup_lt_Some.
  (* the step of the pass on the candidate *)
  destruct (DzenFacts.rename_in_place cx (first_pass history st s) card
              old_id old_item (JStr old_url))
    as (p1 & Hstep & Hobjs & Hraw & Hsaved & _ & _ & Hn & Hh & Ho & _);
    try done.
  { by rewrite Hcx. }
  { by intros [= ->]. }
  { intros i Hi. cbn [first_pass dzen_history_raw objs] in *.
    apply elem_of_seq in Hi.
    apply (build_title_map_titled _ _ _ _ _ Hmap). lia. }
  cbn [first_pass objs dzen_history_raw filtered_dzen_news
       filtered_dzen_history filtered_out_urls] in Hobjs, Hraw, Hn, Hh, Ho.
  (* the record as the scheduler loaded it *)
  apply mapM_Some in HDH.
  destruct (Forall2_lookup_l _ _ _ _ _ HDH Hold) as (r & Hr & Hof).
  destruct (dzen_of_dict_fields _ _ Hof) as (Hfu & _ & Hfa).
  destruct (dzen_to_dict_fields r) as (Htu & _ & Hta).
  exists tmap, cx, p1, p, DH, r.
  split; [done|]. split; [done|]. split; [done|]. split; [done|].
  split; [done|].
  split.
  { cbn [take run_cards] in Hrun. by rewrite Hstep in Hrun. }
  split; [done|]. split; [done|].
  split.
  { rewrite Hsaved, Hobjs, Hraw.
    apply (resolve_lookup _ _ old_id old_id).
    - intros j Hj. apply lookup_lt_is_Some. rewrite length_insert.
      apply list_elem_of_fmap in Hj as (i & -> & Hi).
      apply elem_of_seq in Hi. destruct (bool_decide _); lia.
    - rewrite list_lookup_fmap, lookup_seq_lt by done. cbn.
      by rewrite bool_decide_eq_true_2.
    - by apply list_lookup_insert_eq. }
  split; [done|]. split; [done|]. split; [done|].
  split; [by apply mapM_Some|]. split; [done|]. split; [done|].
  split.
  { rewrite Hfile, list_lookup_fmap, lookup_app_l by by eapply lookup_lt_Some.
    by rewrite Hr. }
  split.
  { rewrite Htu. rewrite Hurl in Hfu. by injection Hfu as ->. }
  intros a Haa. by rewrite Hta, (Hfa a Haa).
Qed.

End cycle.

(** The history has one record, "Big News" under the link a/7; the page has
    a card with this title under the link a/9 and a card that names a
    keyword.  The pass saves the record with the link a/9; the cycle adds
    the record of the second card and saves the history with the link a/7
    again. *)
Lemma rename_undone_by_cycle_witness :
  ∃ tmap cx p1 p DH r,
    build_title_map (load_dzen_history Sample.single_storage) 0 ∅ = Some tmap
    ∧ tmap !! normalize_text (u "Big news") = Some 0
    ∧ dzen_title_map cx = tmap
    ∧ dzen_history_urls cx = list_to_set (d_url <$> DH)
    ∧ card_step (H := Sample.sample_env) cx
        (first_pass (load_dzen_history Sample.single_storage)
           Sample.empty_caches Sample.single_storage)
        (u "https://dzen.ru/a/9?from=feed", u "Big news") = Done p1
    ∧ run_cards (H := Sample.sample_env) cx p1
        (take 19 [(u "/a/5?from=feed", u " New clinic opens ")]) = Done p
    ∧ [news_of (u "https://dzen.ru/a/5") (u " New clinic opens ")]
      = filtered_dzen_news p
    ∧ [keywords_record (H := Sample.sample_env)
         (u "https://dzen.ru/a/5") (u " New clinic opens ") [u "clinic"]]
      = filtered_dzen_history p
    ∧ dzen_history_file (p_storage p1) !! 0
      = Some (<["added_at"%string := JStr (now_iso (Env := Sample.sample_env))]>
                (<["url"%string := JStr (u "https://dzen.ru/a/9")]>
                   Sample.record_first))
    ∧ filtered_dzen_news p1 = [] ∧ filtered_dzen_history p1 = []
    ∧ filtered_out_urls p1 = []
    ∧ mapM (dzen_of_dict (H := Sample.sample_env))
        (load_dzen_history Sample.single_storage) = Some DH
    ∧ dzen_history_file
        (fetch_and_send_news (H := Sample.sample_env)
           (H0 := Sample.sample_order) [] (Some Sample.renamed_page)
           Sample.empty_caches Sample.single_storage).2
      = dzen_to_dict
          <$> (DH ++ [keywords_record (H := Sample.sample_env)
                        (u "https://dzen.ru/a/5") (u " New clinic opens ")
                        [u "clinic"]])
    ∧ dzen_of_dict (H := Sample.sample_env) Sample.record_first = Some r
    ∧ dzen_history_file
        (fetch_and_send_news (H := Sample.sample_env)
           (H0 := Sample.sample_order) [] (Some Sample.renamed_page)
           Sample.empty_caches Sample.single_storage).2 !! 0
      = Some (dzen_to_dict r)
    ∧ dzen_to_dict r !! "url"%string = Some (JStr (u "https://dzen.ru/a/7"))
    ∧ (∀ a, Sample.record_first !! "added_at"%string = Some a →
            dzen_to_dict r !! "added_at"%string = Some a).
Proof.
  destruct (rename_undone_by_cycle (H := Sample.sample_env)
              Sample.sample_order []
              (u "https://dzen.ru/a/9?from=feed", u "Big news")
              [(u "/a/5?from=feed", u " New clinic opens ")]
              Sample.empty_caches Sample.single_storage
              (mkCycle
                 [news_of (u "https://dzen.ru/a/5") (u " New clinic opens ")]
                 [keywords_record (H := Sample.sample_env)
                    (u "https://dzen.ru/a/5") (u " New clinic opens ")
                    [u "clinic"]]
                 [] []
                 [news_of (u "https://dzen.ru/a/5") (u " New clinic opens ")]
                 [keywords_record (H := Sample.sample_env)
                    (u "https://dzen.ru/a/5") (u " New clinic opens ")
                    [u "clinic"]])
              (fetch_and_send_news (H := Sample.sample_env)
                 (H0 := Sample.sample_order) [] (Some Sample.renamed_page)
                 Sample.empty_caches Sample.single_storage).1.2
              (fetch_and_send_news (H := Sample.sample_env)
                 (H0 := Sample.sample_order) [] (Some Sample.renamed_page)
                 Sample.empty_caches Sample.single_storage).2
              0 Sample.record_first (u "https://dzen.ru/a/7"))
    as (tmap & cx & p1 & p & DH & r & Hw).
  - intros Heq. vm_compute in Heq. discriminate.
  - intros Heq. vm_compute in Heq. discriminate.
  - vm_compute. reflexivity.
  - vm_compute. reflexivity.
  - vm_compute. reflexivity.
  - intros [|j] Hj; [lia|]. intros Heq. vm_compute in Heq. discriminate.
  - vm_compute. reflexivity.
  - intros Heq. vm_compute in Heq. discriminate.
  - vm_compute. reflexivity.
  - cbn [new_dzen_history]. discriminate.
  - exists tmap, cx, p1, p, DH, r. exact Hw.
Defined.

End RenameFacts.
